(** * Silence removal core of ffmpeg-scripts-collection

    A shallow embedding of the silence-removal logic shared by
    [audio_silence_remover.py] and [video_silence_remover.py]:
    the silence event parser, the interval normalizer (reverse pairing
    and margin policy), the excision planner and the single edit step
    that rewrites the working file.

    Modelling conventions.
    - A Python [float] holding a time in seconds is modelled as an exact
      rational [Q].  Comparisons ([>], [<], [!=]) are exact on floats and
      on [Q] alike, and NaN and the infinities are left out.  Equality
      of times is [Qeq] ([==]).
    - The one sum the silence removers compute, [start + margin] in
      the pairing loop, is a binary64 addition.  The loop is given over its
      arithmetic ([normalize_with]) and read three ways: with the exact
      sum ([normalize], for the properties of order and count, which
      rounding does not touch), with the sum rounded to binary64 on
      rational values ([normalize_rounded]), and on IEEE 754 binary64
      values with their infinities and NaN ([normalize_float64]).
    - A Python [str] is a Rocq [string]; its characters are the code
      points below 256.
    - The file system is a finite map from path names to file contents.
    - The external programs ([ffprobe], [ffmpeg]) are the fields of a
      record [Engine] that the effectful code takes as an argument; an
      edit run writes its output path only. *)

From Stdlib Require Import QArith Qround Qpower Qabs Lqa Lia.
From Stdlib Require Import List Bool Ascii String SpecFloat.
From stdpp Require Import gmap strings.

Import ListNotations.
Local Open Scope Q_scope.

(** ** Times *)

Abbreviation time := Q.

(** A silence interval is the Python tuple [(start, end)]. *)
Abbreviation interval := (time * time)%type.

(** Python [a < b] on floats. *)
Definition Qltb (a b : Q) : bool := negb (Qle_bool b a).

(** ** Interval Normalizer

    [detect_silence_intervals], the pairing loop
    (audio_silence_remover.py lines 94-101, video_silence_remover.py
    lines 81-87; the two copies are identical):
<<
    for start, end in zip(reversed(silence_starts), reversed(silence_ends)):
        if start != 0:
            start += margin
        intervals.append((start, end))
>> *)

(** [zip(reversed(silence_starts), reversed(silence_ends))] *)
Definition pair_reversed (silence_starts silence_ends : list time)
  : list interval :=
  combine (rev silence_starts) (rev silence_ends).

(** The loop body: [if start != 0: start += margin]. *)
Definition add_margin (margin : time) (p : interval) : interval :=
  let '(start, end_) := p in
  (if negb (Qeq_bool start 0) then start + margin else start, end_).

(** The loop appends one tuple per pair, in the order of the pairs. *)
Definition normalize (silence_starts silence_ends : list time)
  (margin : time) : list interval :=
  map (add_margin margin) (pair_reversed silence_starts silence_ends).

(** ** The pairing loop over its arithmetic

    The loop uses two operations on floats: the test [start != 0] and
    the sum [start + margin].  [normalize_with] is the loop over any
    arithmetic that provides them; [normalize] above is its reading
    with the exact sum. *)

Section PairingLoop.

Context {T : Type}.
Variable nonzero : T -> bool.
Variable add : T -> T -> T.

Definition add_margin_with (margin : T) (p : T * T) : T * T :=
  let '(start, end_) := p in
  (if nonzero start then add start margin else start, end_).

Definition normalize_with (silence_starts silence_ends : list T)
  (margin : T) : list (T * T) :=
  map (add_margin_with margin)
      (combine (rev silence_starts) (rev silence_ends)).

End PairingLoop.

(** ** Binary64 rounding of a rational

    Round to nearest, ties to even, with 53 bits of precision and the
    subnormal exponent -1074: the value [float(x)] of a rational [x],
    and the rounding of every binary64 operation whose exact result is
    [x].  A result of magnitude [2^1024] or more stands for an
    infinity. *)

Definition pow2 (k : Z) : Q := 2 ^ k.

(** [floor(log2(x))] for [x > 0]. *)
Definition floor_log2 (x : Q) : Z :=
  let e := (Z.log2 (Qnum x) - Z.log2 (Z.pos (Qden x)))%Z in
  if Qle_bool (pow2 e) x then e else (e - 1)%Z.

(** The integer nearest to [q], the even one of two that are equally
    near. *)
Definition round_half_even (q : Q) : Z :=
  let f := Qfloor q in
  match Qcompare (q - inject_Z f) (1 # 2) with
  | Lt => f
  | Gt => (f + 1)%Z
  | Eq => if Z.even f then f else (f + 1)%Z
  end.

(** The exponent of the unit in the last place of [x]. *)
Definition ulp_exponent (x : Q) : Z :=
  Z.max (floor_log2 (Qabs x) - 52) (-1074).

(** The multiple of [2^u] nearest to [x]. *)
Definition round_at (u : Z) (x : Q) : Q :=
  inject_Z (round_half_even (x / pow2 u)) * pow2 u.

Definition binary64_round (x : Q) : Q := round_at (ulp_exponent x) x.

(** [a + b] on floats. *)
Definition float_add (a b : Q) : Q := binary64_round (a + b).

(** The values that need no rounding; below [2^1024] in magnitude
    these are the finite binary64 values. *)
Definition representable (x : Q) : Prop := binary64_round x == x.

(** The pairing loop on rational values, with the sum rounded. *)
Definition normalize_rounded : list time -> list time -> time
                               -> list interval :=
  normalize_with (fun start => negb (Qeq_bool start 0)) float_add.

(** ** The pairing loop on IEEE 754 binary64 values

    [spec_float] has the zeros of both signs, the infinities, NaN and
    the finite values [(-1)^s * m * 2^e]; [SFadd 53 1024] is the
    binary64 addition, and [SFeqb] the comparison [==], under which
    both zeros are equal and NaN differs from everything. *)

Abbreviation float64 := spec_float.

Definition float64_add : float64 -> float64 -> float64 := SFadd 53 1024.

(** [x != 0] *)
Definition float64_nonzero (x : float64) : bool :=
  negb (SFeqb x (S754_zero false)).

Definition normalize_float64 : list float64 -> list float64 -> float64
                               -> list (float64 * float64) :=
  normalize_with float64_nonzero float64_add.

(** The rational a binary64 value denotes, when it is finite. *)
Definition float64_value (x : float64) : option Q :=
  match x with
  | S754_zero _ => Some 0
  | S754_finite s m e =>
      Some ((if s then - inject_Z (Z.pos m) else inject_Z (Z.pos m)) * pow2 e)
  | S754_infinity _ | S754_nan => None
  end.

(** [float(n) / float(d)]: the binary64 value nearest to [n/d], for
    integers that are binary64 values themselves. *)
Definition float64_ratio (n d : Z) : float64 :=
  SFdiv 53 1024 (binary_normalize 53 1024 n 0 false)
                (binary_normalize 53 1024 d 0 false).

(** ** Exceptions and results

    The Python exceptions the modelled code can raise, and the result of
    a computation that may raise. *)

Inductive exn : Type :=
| ValueError          (* float() on a malformed token *)
| CalledProcessError  (* subprocess.run(..., check=True), nonzero exit *)
| FileNotFoundError   (* shutil.copy / os.replace on a missing source *)
| IndexError.         (* list index out of range *)

Inductive result (A : Type) : Type :=
| Ok (a : A)
| Raise (e : exn).
Arguments Ok {A} a.
Arguments Raise {A} e.

Definition rbind {A B} (r : result A) (k : A -> result B) : result B :=
  match r with
  | Ok a => k a
  | Raise e => Raise e
  end.

(** ** Silence Event Parser

    The scanning loop of [detect_silence_intervals]
    (audio_silence_remover.py lines 85-93, video_silence_remover.py
    lines 72-80). *)

Definition code_in (c : ascii) (codes : list N) : bool :=
  existsb (N.eqb (N_of_ascii c)) codes.

(** The line boundaries of [str.splitlines] among the code points
    below 256: LF, VT, FF, CR, FS, GS, RS and NEL. *)
Definition is_linebreak (c : ascii) : bool :=
  code_in c [10; 11; 12; 13; 28; 29; 30; 133]%N.

(** [\s] of a [str] pattern among the code points below 256. *)
Definition is_space (c : ascii) : bool :=
  code_in c [9; 10; 11; 12; 13; 28; 29; 30; 31; 32; 133; 160]%N.

Definition is_digit (c : ascii) : bool :=
  ((48 <=? N_of_ascii c) && (N_of_ascii c <=? 57))%N.

Definition is_dot (c : ascii) : bool := (N_of_ascii c =? 46)%N.

(** The character class [[0-9.]]. *)
Definition is_num_char (c : ascii) : bool := is_digit c || is_dot c.

(** [output.splitlines()]: [acc] is the line read so far; a CR LF pair
    is one boundary; no empty line is produced at the end of the text. *)
Fixpoint splitlines_from (acc : string) (s : string) : list string :=
  match s with
  | EmptyString =>
      match acc with
      | EmptyString => []
      | _ => [acc]
      end
  | String c t =>
      if is_linebreak c then
        acc ::
        match t with
        | String c' t' =>
            if ((N_of_ascii c =? 13) && (N_of_ascii c' =? 10))%N
            then splitlines_from EmptyString t'
            else splitlines_from EmptyString t
        | EmptyString => splitlines_from EmptyString t
        end
      else splitlines_from (acc +:+ String c EmptyString) t
  end.

Definition splitlines (s : string) : list string :=
  splitlines_from EmptyString s.

(** [marker in line] *)
Fixpoint contains (marker line : string) : bool :=
  String.prefix marker line ||
  match line with
  | EmptyString => false
  | String _ t => contains marker t
  end.

Fixpoint drop_chars (n : nat) (s : string) : string :=
  match n, s with
  | O, _ => s
  | S n', String _ t => drop_chars n' t
  | S _, EmptyString => EmptyString
  end.

(** The greedy [\s*]. *)
Fixpoint skip_spaces (s : string) : string :=
  match s with
  | String c t => if is_space c then skip_spaces t else s
  | EmptyString => EmptyString
  end.

(** The greedy [[0-9.]+] (empty when it does not match). *)
Fixpoint take_num (s : string) : string :=
  match s with
  | String c t => if is_num_char c then String c (take_num t) else EmptyString
  | EmptyString => EmptyString
  end.

(** The pattern [marker\s*([0-9.]+)] anchored at the start of [s];
    the result is [group(1)].  [\s] and [[0-9.]] share no character, so
    the greedy choice for [\s*] is the only one that can succeed. *)
Definition match_here (marker s : string) : option string :=
  if String.prefix marker s then
    match take_num (skip_spaces (drop_chars (String.length marker) s)) with
    | EmptyString => None
    | tok => Some tok
    end
  else None.

(** [re.search]: the leftmost position at which the pattern matches. *)
Fixpoint re_search (marker s : string) : option string :=
  match match_here marker s with
  | Some tok => Some tok
  | None =>
      match s with
      | EmptyString => None
      | String _ t => re_search marker t
      end
  end.

(** [float(tok)] for a token over [[0-9.]]: at most one dot and at least
    one digit, else [ValueError] ([None]).  The value is the decimal
    number read exactly: numerator [mant] over the power of ten [den]. *)
Fixpoint float_digits (s : string) (dot digits : bool)
  (mant : Z) (den : positive) : option Q :=
  match s with
  | EmptyString => if digits then Some (mant # den) else None
  | String c t =>
      if is_digit c then
        let d := Z.of_N (N_of_ascii c - 48) in
        float_digits t dot true (10 * mant + d)%Z
          (if dot then (10 * den)%positive else den)
      else if is_dot c then
        if dot then None else float_digits t true digits mant den
      else None
  end.

Definition float_of_token (tok : string) : option Q :=
  float_digits tok false false 0%Z 1%positive.

(** One [if marker in line: m = re.search(...); if m: acc.append(float(...))]. *)
Definition scan_marker (marker line : string) (acc : list time)
  : result (list time) :=
  if contains marker line then
    match re_search marker line with
    | Some tok =>
        match float_of_token tok with
        | Some v => Ok (acc ++ [v])
        | None => Raise ValueError
        end
    | None => Ok acc
    end
  else Ok acc.

Definition scan_line (line : string) (acc : list time * list time)
  : result (list time * list time) :=
  let '(silence_starts, silence_ends) := acc in
  rbind (scan_marker "silence_start:" line silence_starts) (fun starts' =>
  rbind (scan_marker "silence_end:" line silence_ends) (fun ends' =>
  Ok (starts', ends'))).

Fixpoint scan_lines (lines : list string) (acc : list time * list time)
  : result (list time * list time) :=
  match lines with
  | [] => Ok acc
  | line :: rest => rbind (scan_line line acc) (scan_lines rest)
  end.

(** The parser: from the detector's diagnostic text to
    [(silence_starts, silence_ends)]. *)
Definition parse_silence_events (output : string)
  : result (list time * list time) :=
  scan_lines (splitlines output) ([], []).

(** ** Threshold normalization

    [noise_param = noise if noise.endswith("dB") else noise + "dB"] *)

(** [s.endswith(suffix)]: some tail of [s] is [suffix]. *)
Fixpoint endswith (s suffix : string) : bool :=
  String.eqb s suffix ||
  match s with
  | EmptyString => false
  | String _ t => endswith t suffix
  end.

Definition noise_param (noise : string) : string :=
  if endswith noise "dB" then noise else noise +:+ "dB".

(** ** Files and the external engine *)

(** The contents of a file. *)
Abbreviation content := string.

(** The file system: path name to contents. *)
Abbreviation files := (gmap string content).

(** The outcome of a computation on the file system: its result, and the
    file system it leaves behind (also when it raises). *)
Definition M (A : Type) : Type := files -> result A * files.

Definition ret {A} (a : A) : M A := fun fs => (Ok a, fs).

Definition raise {A} (e : exn) : M A := fun fs => (Raise e, fs).

Definition bind {A B} (m : M A) (k : A -> M B) : M B :=
  fun fs =>
    match m fs with
    | (Ok a, fs') => k a fs'
    | (Raise e, fs') => (Raise e, fs')
    end.

Notation "x <- c ;; k" := (bind c (fun x => k))
  (at level 100, c at next level, right associativity).
Notation "c ;;; k" := (bind c (fun _ => k))
  (at level 100, right associativity).

(** [shutil.copy(src, dst)] *)
Definition shutil_copy (src dst : string) : M unit :=
  fun fs =>
    match fs !! src with
    | Some c => (Ok tt, <[dst := c]> fs)
    | None => (Raise FileNotFoundError, fs)
    end.

(** [os.replace(src, dst)]: one atomic rename; [dst] holds the contents
    of [src] and [src] is gone. *)
Definition os_replace (src dst : string) : M unit :=
  fun fs =>
    match fs !! src with
    | Some c => (Ok tt, <[dst := c]> (delete src fs))
    | None => (Raise FileNotFoundError, fs)
    end.

(** The streams of the input, [[0:v]] and [[0:a]]. *)
Inductive stream : Type := Vid | Aud.

(** A filter pad name: ["a1"], ["v2"], ... *)
Record pad : Type := Pad { pad_stream : stream; pad_index : nat }.

(** One trimming filter,
    [[0:a]atrim={from}:{to},asetpts=PTS-STARTPTS[{out}]] on the audio
    stream or [[0:v]trim={from}:{to},setpts=PTS-STARTPTS[{out}]] on the
    video stream. *)
Record trim : Type := Trim {
  trim_stream : stream;
  trim_from : time;
  trim_to : time;
  trim_out : pad;
}.

(** The value of [-filter_complex]: the filters joined by ["; "], and
    for two segments the closing [concat=n=2:v=..:a=..] over the listed
    pads. *)
Inductive filter_complex : Type :=
| Filters (fl : list trim)
| FiltersConcat (fl : list trim) (inputs : list pad) (v a : nat).

(** One [-map] argument: a pad, or the output of the concatenation. *)
Inductive map_arg : Type :=
| MapPad (p : pad)
| MapOut
| MapOutV
| MapOutA.

(** The edit request handed to [ffmpeg -y -i input ... tmp_out]. *)
Record command : Type := Command {
  cmd_filter : filter_complex;
  cmd_map : list map_arg;
}.

(** What [ffprobe] answers on a file. *)
Inductive probe_result : Type :=
| ProbeFailed                          (* nonzero exit status *)
| ProbeStdout (value : option time).   (* float(result.stdout.strip()),
                                          [None] when it raises ValueError *)

(** What an [ffmpeg] edit run does. *)
Inductive run_result : Type :=
| Exit0 (out : content)                (* the complete artifact *)
| ExitFailed (left : option content).  (* nonzero exit status; what it
                                          left at the output path, if
                                          anything *)

(** The external media engine.  An edit run reads its input file and
    writes its output path only. *)
Record Engine : Type := {
  ffprobe : content -> probe_result;
  ffmpeg_silencedetect : string -> time -> option content -> string;
  ffmpeg_edit : command -> content -> run_result;
}.

(** [get_audio_duration] (audio, lines 34-54) and [get_media_duration]
    (video, lines 38-52); the two are the same code. *)
Definition get_audio_duration (E : Engine) (filename : string) : M time :=
  fun fs =>
    match fs !! filename with
    | None => (Raise CalledProcessError, fs)
    | Some c =>
        match ffprobe E c with
        | ProbeFailed => (Raise CalledProcessError, fs)
        | ProbeStdout (Some d) => (Ok d, fs)
        | ProbeStdout None => (Ok 0, fs)
        end
    end.

Definition get_media_duration := get_audio_duration.

(** [subprocess.run(cmd, check=True)] for an edit command. *)
Definition run_ffmpeg (E : Engine) (cmd : command) (input tmp_out : string)
  : M unit :=
  fun fs =>
    match fs !! input with
    | None => (Raise CalledProcessError, fs)
    | Some c =>
        match ffmpeg_edit E cmd c with
        | Exit0 out => (Ok tt, <[tmp_out := out]> fs)
        | ExitFailed (Some part) =>
            (Raise CalledProcessError, <[tmp_out := part]> fs)
        | ExitFailed None => (Raise CalledProcessError, fs)
        end
    end.

(** ** Excision Planner and edit step, audio

    [remove_silence_segment] (audio_silence_remover.py lines 103-147). *)

(** Lines 116-126: the lists [filters] and [segments]. *)
Definition build_filters (start end_ total_duration : time)
  : list trim * list pad :=
  let filters := [] in
  let segments := [] in
  let '(filters, segments) :=
    if Qltb 0 start
    then (filters ++ [Trim Aud 0 start (Pad Aud 1)],
          segments ++ [Pad Aud 1])
    else (filters, segments) in
  let '(filters, segments) :=
    if Qltb end_ total_duration
    then (filters ++ [Trim Aud end_ total_duration (Pad Aud 2)],
          segments ++ [Pad Aud 2])
    else (filters, segments) in
  (filters, segments).

(** Lines 134-145: the command for a plan that is not empty. *)
Definition build_command (filters : list trim) (segments : list pad)
  : result command :=
  match segments with
  | [s0] =>
      match filters with
      | f0 :: _ => Ok (Command (Filters [f0]) [MapPad s0])
      | [] => Raise IndexError
      end
  | s0 :: s1 :: _ =>
      Ok (Command (FiltersConcat filters [s0; s1] 0 1) [MapOut])
  | [] => Raise IndexError
  end.

Definition lift {A} (r : result A) : M A := fun fs => (r, fs).

Definition remove_silence_segment (E : Engine) (input_wav : string)
  (start end_ : time) : M unit :=
  let tmp_out := input_wav +:+ ".nosilence.wav" in
  total_duration <- get_audio_duration E input_wav ;;
  let '(filters, segments) := build_filters start end_ total_duration in
  match segments with
  | [] =>
      shutil_copy input_wav tmp_out ;;;
      os_replace tmp_out input_wav
  | _ =>
      cmd <- lift (build_command filters segments) ;;
      run_ffmpeg E cmd input_wav tmp_out ;;;
      os_replace tmp_out input_wav
  end.

(** ** Excision Planner and edit step, video

    [remove_silence_segment_video] (video_silence_remover.py lines
    89-137). *)

(** Lines 98-115: [filters], [v_segments], [a_segments]; [seg_index]
    numbers the kept segments. *)
Definition build_filters_video (start end_ total_duration : time)
  : list trim * list pad * list pad :=
  let filters := [] in
  let v_segments := [] in
  let a_segments := [] in
  let seg_index := 1%nat in
  let '(filters, v_segments, a_segments, seg_index) :=
    if Qltb 0 start
    then (filters ++ [Trim Vid 0 start (Pad Vid seg_index)]
                  ++ [Trim Aud 0 start (Pad Aud seg_index)],
          v_segments ++ [Pad Vid seg_index],
          a_segments ++ [Pad Aud seg_index],
          (seg_index + 1)%nat)
    else (filters, v_segments, a_segments, seg_index) in
  let '(filters, v_segments, a_segments) :=
    if Qltb end_ total_duration
    then (filters ++ [Trim Vid end_ total_duration (Pad Vid seg_index)]
                  ++ [Trim Aud end_ total_duration (Pad Aud seg_index)],
          v_segments ++ [Pad Vid seg_index],
          a_segments ++ [Pad Aud seg_index])
    else (filters, v_segments, a_segments) in
  (filters, v_segments, a_segments).

(** Lines 123-135. *)
Definition build_command_video (filters : list trim)
  (v_segments a_segments : list pad) : result command :=
  match v_segments with
  | [v0] =>
      match a_segments with
      | a0 :: _ => Ok (Command (Filters filters) [MapPad v0; MapPad a0])
      | [] => Raise IndexError
      end
  | v0 :: v1 :: _ =>
      match a_segments with
      | a0 :: a1 :: _ =>
          Ok (Command (FiltersConcat filters [v0; a0; v1; a1] 1 1)
                [MapOutV; MapOutA])
      | _ => Raise IndexError
      end
  | [] => Raise IndexError
  end.

Definition remove_silence_segment_video (E : Engine) (input_video : string)
  (start end_ : time) : M unit :=
  let tmp_out := input_video +:+ ".nosilence.mp4" in
  total_duration <- get_media_duration E input_video ;;
  let '(filters, v_segments, a_segments) :=
    build_filters_video start end_ total_duration in
  match v_segments with
  | [] =>
      shutil_copy input_video tmp_out ;;;
      os_replace tmp_out input_video
  | _ =>
      cmd <- lift (build_command_video filters v_segments a_segments) ;;
      run_ffmpeg E cmd input_video tmp_out ;;;
      os_replace tmp_out input_video
  end.

(** ** Kept segments

    The excision plan of one edit step, read off the filters: one kept
    segment [(from, to)] per trimming filter of the given stream, in
    order. *)

Abbreviation segment := (time * time)%type.

Definition is_stream (s : stream) (t : trim) : bool :=
  match s, trim_stream t with
  | Vid, Vid | Aud, Aud => true
  | _, _ => false
  end.

Definition kept_segments (s : stream) (filters : list trim) : list segment :=
  map (fun t => (trim_from t, trim_to t)) (filter (is_stream s) filters).

Definition seg_length (g : segment) : time := snd g - fst g.

Definition total_length (gs : list segment) : time :=
  fold_right (fun g acc => seg_length g + acc) 0 gs.

(** The plan of the audio remover, and the plan of the video remover on
    each of its two streams. *)
Definition plan (start end_ total_duration : time) : list segment :=
  kept_segments Aud (fst (build_filters start end_ total_duration)).

Definition plan_video (s : stream) (start end_ total_duration : time)
  : list segment :=
  kept_segments s (fst (fst (build_filters_video start end_ total_duration))).

(** ** The detector run *)

(** [detect_silence_intervals] (audio lines 56-101, video lines 54-87):
    the threshold parameter, the detector run (its exit status is not
    checked), the parser and the pairing loop. *)
Definition detect_silence_intervals (E : Engine) (wav_file : string)
  (noise : string) (duration margin : time) : M (list interval) :=
  fun fs =>
    let output :=
      ffmpeg_silencedetect E (noise_param noise) duration (fs !! wav_file) in
    (rbind (parse_silence_events output) (fun '(silence_starts, silence_ends) =>
     Ok (normalize silence_starts silence_ends margin)), fs).

(** ** Properties of interval lists *)

(** The raw intervals of a detector output with as many starts as ends:
    the i-th start with the i-th end, in emission order. *)
Definition raw_intervals (silence_starts silence_ends : list time)
  : list interval :=
  combine silence_starts silence_ends.

(** Chronological and non-overlapping: every start is at most its end,
    and every end is at most the next start. *)
Fixpoint chronological (raw : list interval) : Prop :=
  match raw with
  | [] => True
  | (s, e) :: rest =>
      s <= e /\
      match rest with
      | [] => True
      | (s', _) :: _ => e <= s'
      end /\
      chronological rest
  end.

(** [end >= start]. *)
Definition well_formed (p : interval) : Prop := fst p <= snd p.

(** [intervals[i].start >= intervals[i+1].end] for every valid [i]. *)
Definition latest_first (intervals : list interval) : Prop :=
  forall (i : nat) (p q : interval),
    nth_error intervals i = Some p ->
    nth_error intervals (S i) = Some q ->
    snd q <= fst p.

(** The margin fits the raw silence: the silence starts at zero (and
    gets no margin) or is at least [margin] long. *)
Definition margin_fits (margin : time) (p : interval) : Prop :=
  fst p == 0 \/ margin <= snd p - fst p.

(** The pairing when the surplus of the longer sequence is cut off at
    its end, and when it is cut off at its beginning. *)
Definition pairs_dropping_trailing (silence_starts silence_ends : list time)
  : list interval :=
  let n := Nat.min (length silence_starts) (length silence_ends) in
  pair_reversed (firstn n silence_starts) (firstn n silence_ends).

Definition pairs_dropping_leading (silence_starts silence_ends : list time)
  : list interval :=
  let n := Nat.min (length silence_starts) (length silence_ends) in
  pair_reversed (skipn (length silence_starts - n) silence_starts)
                (skipn (length silence_ends - n) silence_ends).

(** ** Properties of strings *)

(** Every character of [s] satisfies [P]. *)
Fixpoint all_chars (P : ascii -> bool) (s : string) : bool :=
  match s with
  | EmptyString => true
  | String c t => P c && all_chars P t
  end.

(** [s] starts with a character that satisfies [P]. *)
Definition starts_with (P : ascii -> bool) (s : string) : bool :=
  match s with
  | EmptyString => false
  | String c _ => P c
  end.

(** The number of characters of [s] that satisfy [P]. *)
Fixpoint count_chars (P : ascii -> bool) (s : string) : nat :=
  match s with
  | EmptyString => O
  | String c t => ((if P c then 1 else 0) + count_chars P t)%nat
  end.

(** A character at which the pattern stops: neither white space for
    [\s*] nor a character of [[0-9.]]. *)
Definition stopper (c : ascii) : bool := negb (is_space c || is_num_char c).

(** The first [n] characters of [s] exist and are stoppers. *)
Fixpoint stop_prefix (n : nat) (s : string) : bool :=
  match n with
  | O => true
  | S n' =>
      match s with
      | String c t => stopper c && stop_prefix n' t
      | EmptyString => false
      end
  end.

(** A line feed, to write the detector's text. *)
Definition LF : string := String "010"%char EmptyString.

(** ** The two removers side by side

    [remove_silence_segment] and [remove_silence_segment_video] have
    the same shape; these definitions name the parts in which they
    differ, so that a property can be stated once for both. *)

Inductive remover : Type := AudioRemover | VideoRemover.

Definition edit_step (w : remover)
  : Engine -> string -> time -> time -> M unit :=
  match w with
  | AudioRemover => remove_silence_segment
  | VideoRemover => remove_silence_segment_video
  end.

(** [tmp_out] *)
Definition tmp_path (w : remover) (input : string) : string :=
  match w with
  | AudioRemover => input +:+ ".nosilence.wav"
  | VideoRemover => input +:+ ".nosilence.mp4"
  end.

(** The kept segments of the plan. *)
Definition kept (w : remover) (start end_ total_duration : time)
  : list segment :=
  match w with
  | AudioRemover => plan start end_ total_duration
  | VideoRemover => plan_video Vid start end_ total_duration
  end.

(** The edit request built for the engine: [None] when the plan is
    empty (the file is copied instead). *)
Definition edit_request (w : remover) (start end_ total_duration : time)
  : option (result command) :=
  match w with
  | AudioRemover =>
      let '(filters, segments) := build_filters start end_ total_duration in
      match segments with
      | [] => None
      | _ => Some (build_command filters segments)
      end
  | VideoRemover =>
      let '(filters, v_segments, a_segments) :=
        build_filters_video start end_ total_duration in
      match v_segments with
      | [] => None
      | _ => Some (build_command_video filters v_segments a_segments)
      end
  end.

(** [x] clamped to [>= 0]. *)
Definition clamp0 (x : Q) : Q := if Qltb x 0 then 0 else x.

(** ** A sample engine and file system, for examples *)

(** Reports a duration of 10 seconds, detects nothing, and edits by
    returning the input; it fails on the command that maps no output. *)
Definition sample_engine : Engine := {|
  ffprobe := fun _ => ProbeStdout (Some 10);
  ffmpeg_silencedetect := fun _ _ _ => EmptyString;
  ffmpeg_edit := fun cmd c =>
    match cmd_map cmd with
    | [] => ExitFailed None
    | _ => Exit0 c
    end;
|}.

(** Fails on every edit, leaving a partial artifact behind. *)
Definition failing_engine : Engine := {|
  ffprobe := fun _ => ProbeStdout (Some 10);
  ffmpeg_silencedetect := fun _ _ _ => EmptyString;
  ffmpeg_edit := fun _ _ => ExitFailed (Some "partial"%string);
|}.

Definition sample_files : files := {[ "talk.wav"%string := "RIFF"%string ]}.

(** [sample_files] after a failed edit of [talk.wav] by [failing_engine]. *)
Definition sample_files_failed : files :=
  <["talk.wav.nosilence.wav"%string := "partial"%string]> sample_files.

(** Succeeds on every edit, with an artifact that differs from the
    input. *)
Definition editing_engine : Engine := {|
  ffprobe := fun _ => ProbeStdout (Some 10);
  ffmpeg_silencedetect := fun _ _ _ => EmptyString;
  ffmpeg_edit := fun _ _ => Exit0 "edited"%string;
|}.

(** [sample_files] after an edit of [talk.wav] by [editing_engine]. *)
Definition sample_files_edited : files :=
  {[ "talk.wav"%string := "edited"%string ]}.

(** ** Path names

    [os.path.splitext] and [os.path.basename] as [posixpath] has them
    (separator ["/"], extension separator ["."]). *)

Definition is_sep (c : ascii) : bool := (N_of_ascii c =? 47)%N.

(** [p.rfind(c)] for the characters [c] that satisfy [P]: the last
    index of one, or -1. *)
Fixpoint rfind (P : ascii -> bool) (p : string) : Z :=
  match p with
  | EmptyString => (-1)%Z
  | String a t =>
      let r := rfind P t in
      if (0 <=? r)%Z then (r + 1)%Z else if P a then 0%Z else (-1)%Z
  end.

(** [p[:n]] for [0 <= n]. *)
Fixpoint take_chars (n : nat) (s : string) : string :=
  match n, s with
  | S n', String c t => String c (take_chars n' t)
  | _, _ => EmptyString
  end.

(** The loop of [genericpath._splitext] that skips the leading dots of
    the file name:
<<
    while filenameIndex < dotIndex:
        if p[filenameIndex:filenameIndex+1] != extsep:
            return p[:dotIndex], p[dotIndex:]
        filenameIndex += 1
>>
    [steps] is [dotIndex - filenameIndex]; the result is [true] when the
    loop returns the split. *)
Fixpoint skip_leading_dots (p : string) (filenameIndex : Z) (steps : nat)
  : bool :=
  match steps with
  | O => false
  | S steps' =>
      match String.get (Z.to_nat filenameIndex) p with
      | Some c =>
          if is_dot c
          then skip_leading_dots p (filenameIndex + 1)%Z steps'
          else true
      | None => true
      end
  end.

(** [os.path.splitext(p)] *)
Definition splitext (p : string) : string * string :=
  let sepIndex := rfind is_sep p in
  let dotIndex := rfind is_dot p in
  if (sepIndex <? dotIndex)%Z then
    let filenameIndex := (sepIndex + 1)%Z in
    if skip_leading_dots p filenameIndex (Z.to_nat (dotIndex - filenameIndex))
    then (take_chars (Z.to_nat dotIndex) p, drop_chars (Z.to_nat dotIndex) p)
    else (p, EmptyString)
  else (p, EmptyString).

(** [os.path.basename(p)]: [p[p.rfind("/") + 1:]] *)
Definition basename (p : string) : string :=
  drop_chars (Z.to_nat (rfind is_sep p + 1)) p.

(** ** Default output names

    [get_default_output_filename] (video_speedup.py lines 37-49,
    downsize_movie.py lines 78-87):
    [base, ext = os.path.splitext(input_file)] and
    [return f"{base}{suffix}{ext}"]. *)
Definition get_default_output_filename (input_file suffix : string)
  : string :=
  let '(base, ext) := splitext input_file in
  base +:+ suffix +:+ ext.

(** [generate_output_filename] (silent_video_creator.py lines 80-91). *)
Definition generate_output_filename (input_file : string) : string :=
  let '(base, ext) := splitext input_file in
  base +:+ "_silent" +:+ ext.

(** The default of [--output_file] in trim_video.py, lines 71-73. *)
Definition default_segment_filename (input_file : string) : string :=
  let '(base, ext) := splitext input_file in
  base +:+ "_segment" +:+ ext.

(** The default of [--output] in extract_audio_mp3.py, lines 62-66. *)
Definition default_extracted_filename (input_file : string) : string :=
  let '(base, _) := splitext input_file in
  base +:+ "_extracted.mp3".

(** The default of [--output] in video_merger.py, lines 193-198. *)
Definition default_merged_filename (input_files : list string)
  : result string :=
  match input_files with
  | [] => Raise IndexError
  | first :: _ =>
      let '(base, ext) := splitext (basename first) in
      Ok (base +:+
          (if (1 <? length input_files)%nat then "_merged" else EmptyString)
          +:+ ext)
  end.

(** ** The executor: one input from conversion to the edited file *)

(** [for start, end in intervals: remove_silence_segment(wav_file, start, end)]
    (audio_silence_remover.py lines 172-174), and the same loop over
    [remove_silence_segment_video] (video_silence_remover.py lines
    167-169). *)
Fixpoint remove_all (w : remover) (E : Engine) (working_file : string)
  (intervals : list interval) : M unit :=
  match intervals with
  | [] => ret tt
  | (start, end_) :: rest =>
      edit_step w E working_file start end_ ;;;
      remove_all w E working_file rest
  end.

(** The transcoding runs of [ffmpeg]: from the options between input
    and output and the input's contents to the outcome of the run.  A
    run writes its output path only. *)
Record Transcoder : Type := {
  ffmpeg_transcode : list string -> content -> run_result;
}.

(** [subprocess.run(["ffmpeg", "-y", "-i", input, *options, output], check=True)] *)
Definition run_transcode (T : Transcoder) (options : list string)
  (input output : string) : M unit :=
  fun fs =>
    match fs !! input with
    | None => (Raise CalledProcessError, fs)
    | Some c =>
        match ffmpeg_transcode T options c with
        | Exit0 out => (Ok tt, <[output := out]> fs)
        | ExitFailed (Some part) =>
            (Raise CalledProcessError, <[output := part]> fs)
        | ExitFailed None => (Raise CalledProcessError, fs)
        end
    end.

(** [os.path.exists(path)] *)
Definition path_exists (path : string) : M bool :=
  fun fs => (Ok (bool_decide (is_Some (fs !! path))), fs).

(** [os.remove(path)] *)
Definition os_remove (path : string) : M unit :=
  fun fs =>
    match fs !! path with
    | Some _ => (Ok tt, delete path fs)
    | None => (Raise FileNotFoundError, fs)
    end.

(** [process_audio_file] (audio_silence_remover.py lines 149-175). *)
Definition process_audio_file (E : Engine) (T : Transcoder)
  (input_file noise : string) (duration margin : time) : M string :=
  let '(base, _) := splitext input_file in
  let wav_file := base +:+ ".wav" in
  run_transcode T ["-acodec"; "pcm_s16le"; "-ar"; "44100"]%string
    input_file wav_file ;;;
  intervals <- detect_silence_intervals E wav_file noise duration margin ;;
  remove_all AudioRemover E wav_file intervals ;;;
  ret wav_file.

(** [process_video_file] (video_silence_remover.py lines 139-170). *)
Definition process_video_file (E : Engine) (T : Transcoder)
  (input_file noise : string) (duration margin : time) : M string :=
  let '(base, _) := splitext input_file in
  let working_video := base +:+ ".temp_video.mp4" in
  run_transcode T ["-c"; "copy"]%string input_file working_video ;;;
  let temp_wav := base +:+ ".temp_audio.wav" in
  run_transcode T ["-vn"; "-acodec"; "pcm_s16le"; "-ar"; "44100"]%string
    working_video temp_wav ;;;
  intervals <- detect_silence_intervals E temp_wav noise duration margin ;;
  there <- path_exists temp_wav ;;
  (if there then os_remove temp_wav else ret tt) ;;;
  remove_all VideoRemover E working_video intervals ;;;
  ret working_video.

(** ** The pads of an edit request *)

(** The trimming filters of a filter graph. *)
Definition filters_of (fc : filter_complex) : list trim :=
  match fc with
  | Filters fl => fl
  | FiltersConcat fl _ _ _ => fl
  end.

(** The pads a filter graph feeds into its concatenation. *)
Definition concat_inputs (fc : filter_complex) : list pad :=
  match fc with
  | Filters _ => []
  | FiltersConcat _ inputs _ _ => inputs
  end.

(** The pads a command maps to its output. *)
Definition mapped_pads (cmd : command) : list pad :=
  flat_map (fun a => match a with MapPad p => [p] | _ => [] end)
           (cmd_map cmd).

(** The pads a command reads: those concatenated and those mapped. *)
Definition used_pads (cmd : command) : list pad :=
  concat_inputs (cmd_filter cmd) ++ mapped_pads cmd.

(** The pads a command defines: the outputs of its trimming filters. *)
Definition defined_pads (cmd : command) : list pad :=
  map trim_out (filters_of (cmd_filter cmd)).

(** A transcoder that returns its input, an input file for it, and the
    files after [process_audio_file] on that input with
    [sample_engine], which detects no silence. *)
Definition sample_transcoder : Transcoder :=
  {| ffmpeg_transcode := fun _ c => Exit0 c |}.

Definition sample_inputs : files := {[ "talk.m4a"%string := "M4A"%string ]}.

Definition sample_inputs_done : files :=
  <["talk.wav"%string := "M4A"%string]> sample_inputs.

(** An engine whose detector reports a malformed number, a video input
    for it, and the files [process_video_file] leaves when the parser
    raises on that report. *)
Definition garbled_engine : Engine := {|
  ffprobe := fun _ => ProbeStdout (Some 10);
  ffmpeg_silencedetect := fun _ _ _ => "silence_start: 1.2.3"%string;
  ffmpeg_edit := fun _ c => Exit0 c;
|}.

Definition sample_videos : files := {[ "clip.mkv"%string := "MKV"%string ]}.

Definition sample_videos_garbled : files :=
  <["clip.temp_audio.wav"%string := "MKV"%string]>
    (<["clip.temp_video.mp4"%string := "MKV"%string]> sample_videos).

Definition sample_videos_done : files :=
  <["clip.temp_video.mp4"%string := "MKV"%string]> sample_videos.

(** An engine whose detector reports scenario A of the specification. *)
Definition scenario_engine : Engine := {|
  ffprobe := fun _ => ProbeStdout (Some 15);
  ffmpeg_silencedetect := fun _ _ _ =>
    "silence_start: 2.0" +:+ LF +:+ "silence_end: 5.0" +:+ LF +:+
    "silence_start: 10.0" +:+ LF +:+ "silence_end: 12.0";
  ffmpeg_edit := fun _ c => Exit0 c;
|}.

(** ** The merger (video_merger.py) *)

(** The exceptions of the scripts outside the silence removers. *)
Inductive py_exn : Type :=
| PyValueError
| PyRuntimeError
| PyZeroDivisionError
| PyCalledProcessError
| PyEOFError               (* input() at the end of the input *)
| PyUnicodeDecodeError
| PyTypeError
| PyOverflowError
| PySystemExit (code : Z). (* sys.exit(code) *)

Inductive outcome (A : Type) : Type :=
| Returns (a : A)
| Raises (e : py_exn).
Arguments Returns {A} a.
Arguments Raises {A} e.

(** A Python float: a finite value, an infinity, or NaN. *)
Inductive py_float : Type :=
| Finite (q : Q)
| Infinite (negative : bool)
| NotANumber.

(** A value of the document that [json.loads] returns, as far as
    [get_video_info] looks at it: [None] (also what [.get] returns for
    an absent key), [True] or [False], an int, a float (the literals
    NaN, Infinity and -Infinity included), a text, a list or a
    dictionary. *)
Inductive json_value : Type :=
| JNull
| JBool (b : bool)
| JInt (n : Z)
| JFloat (x : py_float)
| JText (s : string)
| JArray
| JObject.

(** The outcome of [int(v)] or [float(v)]: the number, or the exception
    raised. *)
Inductive conversion (A : Type) : Type :=
| Converted (a : A)
| TypeErrorRaised
| ValueErrorRaised
| OverflowErrorRaised.
Arguments Converted {A} a.
Arguments TypeErrorRaised {A}.
Arguments ValueErrorRaised {A}.
Arguments OverflowErrorRaised {A}.

(** One entry of [info["streams"]], a dictionary: the values of
    [stream.get("codec_type")], [stream.get("width")] and
    [stream.get("height")]. *)
Record stream_entry : Type := {
  codec_type : json_value;
  width_value : json_value;
  height_value : json_value;
}.

(** The document that [json.loads] returns on the output of [ffprobe],
    in the shape [ffprobe] prints: a dictionary whose ["streams"] is a
    list of dictionaries (or absent) and whose ["format"] is a
    dictionary (or absent); [info_duration] is
    [info.get("format", {}).get("duration")]. *)
Record probe_info : Type := {
  info_streams : list stream_entry;
  info_duration : json_value;
}.

(** The run of [ffprobe] in [get_video_info]: a nonzero return code, or
    the standard output with what [json.loads] makes of it ([None] when
    it raises, a ValueError). *)
Inductive probe_run : Type :=
| ProbeReturnCode
| ProbeOutput (parsed : option probe_info).

(** The dictionary [get_video_info] returns. *)
Record video_info : Type := {
  vi_width : Z;
  vi_height : Z;
  vi_duration : py_float;
  vi_has_audio : bool;
}.

(** [stream.get("codec_type") == name] *)
Definition is_codec (name : string) (stream : stream_entry) : bool :=
  match codec_type stream with
  | JText t => String.eqb t name
  | _ => false
  end.

Section Conversions.

(** [int(s)] and [float(s)] for a text [s]: [None] when the text is
    not a number (ValueError).  The grammar of numbers in text is not
    part of the script. *)
Variable int_of_text : string -> option Z.
Variable float_of_text : string -> option py_float.

(** [int(v)]: a float is truncated toward zero. *)
Definition py_int (v : json_value) : conversion Z :=
  match v with
  | JNull | JArray | JObject => TypeErrorRaised
  | JBool b => Converted (if b then 1 else 0)%Z
  | JInt n => Converted n
  | JFloat (Finite q) => Converted (Z.quot (Qnum q) (Z.pos (Qden q)))
  | JFloat (Infinite _) => OverflowErrorRaised
  | JFloat NotANumber => ValueErrorRaised
  | JText s =>
      match int_of_text s with
      | Some n => Converted n
      | None => ValueErrorRaised
      end
  end.

(** [float(v)]: an int is rounded to binary64, and is out of range
    when the rounding reaches [2^1024]. *)
Definition py_float_of (v : json_value) : conversion py_float :=
  match v with
  | JNull | JArray | JObject => TypeErrorRaised
  | JBool b => Converted (Finite (if b then 1 else 0))
  | JInt n =>
      let x := binary64_round (inject_Z n) in
      if Qle_bool (pow2 1024) (Qabs x) then OverflowErrorRaised
      else Converted (Finite x)
  | JFloat x => Converted x
  | JText s =>
      match float_of_text s with
      | Some x => Converted x
      | None => ValueErrorRaised
      end
  end.

(** Lines 63-67:
<<
    try:
        width = int(stream.get("width"))
        ...
    except (TypeError, ValueError):
        raise ValueError(...)
>> *)
Definition convert_dimension (v : json_value) : outcome Z :=
  match py_int v with
  | Converted n => Returns n
  | TypeErrorRaised | ValueErrorRaised => Raises PyValueError
  | OverflowErrorRaised => Raises PyOverflowError
  end.

(** Lines 72-79: [None] gives 0.0, and so does a ValueError of
    [float]; its other exceptions are not caught. *)
Definition convert_duration (duration_str : json_value) : outcome py_float :=
  match duration_str with
  | JNull => Returns (Finite 0)
  | _ =>
      match py_float_of duration_str with
      | Converted x => Returns x
      | ValueErrorRaised => Returns (Finite 0)
      | TypeErrorRaised => Raises PyTypeError
      | OverflowErrorRaised => Raises PyOverflowError
      end
  end.

(** The loop over the streams (video_merger.py lines 60-69), from the
    values of [width], [height] and [has_audio] before a stream to
    their values after the last one. *)
Fixpoint scan_streams (streams : list stream_entry)
  (width height : option Z) (has_audio : bool)
  : outcome (option Z * option Z * bool) :=
  match streams with
  | [] => Returns (width, height, has_audio)
  | stream :: rest =>
      if is_codec "video" stream &&
         match width with None => true | Some _ => false end
      then
        match convert_dimension (width_value stream) with
        | Raises e => Raises e
        | Returns w =>
            match convert_dimension (height_value stream) with
            | Raises e => Raises e
            | Returns h => scan_streams rest (Some w) (Some h) has_audio
            end
        end
      else if is_codec "audio" stream
      then scan_streams rest width height true
      else scan_streams rest width height has_audio
  end.

(** [get_video_info] (video_merger.py lines 26-84), from the run of
    [ffprobe] on: the loop over the streams, then the duration, then
    the test that a resolution was found. *)
Definition get_video_info (run : probe_run) : outcome video_info :=
  match run with
  | ProbeReturnCode => Raises PyRuntimeError
  | ProbeOutput None => Raises PyValueError
  | ProbeOutput (Some info) =>
      match scan_streams (info_streams info) None None false with
      | Raises e => Raises e
      | Returns (width, height, has_audio) =>
          match convert_duration (info_duration info) with
          | Raises e => Raises e
          | Returns duration =>
              match width, height with
              | Some w, Some h =>
                  Returns {| vi_width := w; vi_height := h;
                             vi_duration := duration;
                             vi_has_audio := has_audio |}
              | _, _ => Raises PyValueError
              end
          end
      end
  end.

End Conversions.

(** [max(...)] over a sequence of integers: ValueError when it is
    empty. *)
Definition py_max (values : list Z) : outcome Z :=
  match values with
  | [] => Raises PyValueError
  | v :: rest => Returns (fold_left Z.max rest v)
  end.

(** What [f"{d:.3f}"] writes, as the number it denotes: the count of
    thousandths nearest to [d], the even one of two that are equally
    near (12.3456 gives 12.346, 0.0625 gives 0.062); [inf], [-inf] or
    [nan] for a float that is not finite. *)
Inductive fixed3 : Type :=
| Thousandths (n : Z)
| FixedInf (negative : bool)
| FixedNaN.

Definition format_3f (d : py_float) : fixed3 :=
  match d with
  | Finite q => Thousandths (round_half_even (q * 1000))
  | Infinite negative => FixedInf negative
  | NotANumber => FixedNaN
  end.

(** The parts of the filter graph of the merger; the number of a pad
    is the index of its input.
    - [[i:v]scale=w=W:h=H:force_original_aspect_ratio=decrease,
      pad=W:H:((W-iw)/2):((H-ih)/2)[vi]]
    - [[i:a]aresample=async=1,asetpts=PTS-STARTPTS[ai]]
    - [anullsrc=channel_layout=stereo:sample_rate=44100,
      atrim=duration=D,asetpts=PTS-STARTPTS[ai]], where [D] is the
      duration as [:.3f] writes it
    - [[v0][a0]...concat=n=N:v=1:a=1[v][a]] *)
Inductive merge_filter : Type :=
| ScalePad (input : nat) (target_width target_height : Z)
| Resample (input : nat)
| SilentAudio (input : nat) (duration : fixed3)
| ConcatAll (inputs : list nat) (n : nat).

(** The body of the loop over [enumerate(video_infos)], for the inputs
    from index [i] on. *)
Fixpoint input_filters (i : nat) (video_infos : list video_info)
  (target_width target_height : Z) : list merge_filter :=
  match video_infos with
  | [] => []
  | info :: rest =>
      ScalePad i target_width target_height ::
      (if vi_has_audio info then Resample i
       else SilentAudio i (format_3f (vi_duration info))) ::
      input_filters (S i) rest target_width target_height
  end.

(** [build_filter_complex] (video_merger.py lines 101-150); the result
    is the list [filters] that the function joins with [";"]. *)
Definition build_filter_complex (video_infos : list video_info)
  : outcome (list merge_filter) :=
  match py_max (map vi_width video_infos) with
  | Raises e => Raises e
  | Returns target_width =>
      match py_max (map vi_height video_infos) with
      | Raises e => Raises e
      | Returns target_height =>
          Returns (input_filters 0 video_infos target_width target_height
                   ++ [ConcatAll (seq 0 (length video_infos))
                         (length video_infos)])
      end
  end.

(** ** Answers typed by the user *)

(** [s.rstrip()] *)
Fixpoint rstrip (s : string) : string :=
  match s with
  | EmptyString => EmptyString
  | String c t =>
      match rstrip t with
      | EmptyString => if is_space c then EmptyString
                       else String c EmptyString
      | t' => String c t'
      end
  end.

(** [s.strip()]: white space is what [str.isspace] accepts, as for
    [\s]. *)
Definition strip (s : string) : string := rstrip (skip_spaces s).

(** [c.lower()] for a code point below 256: the letters A-Z and the
    capital letters of Latin-1 (192-222 without the multiplication
    sign 215) move up by 32. *)
Definition lower_char (c : ascii) : ascii :=
  let n := N_of_ascii c in
  if ((65 <=? n) && (n <=? 90) ||
      (192 <=? n) && (n <=? 222) && negb (n =? 215))%N
  then ascii_of_N (n + 32)
  else c.

(** [s.lower()] *)
Fixpoint lower (s : string) : string :=
  match s with
  | EmptyString => EmptyString
  | String c t => String (lower_char c) (lower t)
  end.

(** ** The speed-up script (video_speedup.py) *)

(** A computation of these scripts on the file system. *)
Definition Script (A : Type) : Type := files -> outcome A * files.

(** [subprocess.run(["ffmpeg", "-i", input, ..., output], check=True)]
    with the filter given as a value. *)
Definition run_ffmpeg_script {F : Type} (run : F -> content -> bool -> run_result)
  (filter : F) (input output : string) : Script unit :=
  fun fs =>
    match fs !! input with
    | None => (Raises PyCalledProcessError, fs)
    | Some c =>
        match run filter c (bool_decide (is_Some (fs !! output))) with
        | Exit0 out => (Returns tt, <[output := out]> fs)
        | ExitFailed (Some part) =>
            (Raises PyCalledProcessError, <[output := part]> fs)
        | ExitFailed None => (Raises PyCalledProcessError, fs)
        end
    end.

(** The run of [speed_up_video], which does not pass [-y]: from the
    factor of [setpts={1/speed}*PTS], the input's contents and whether
    the output path exists, to the outcome of the run. *)
Record SpeedFfmpeg : Type := {
  ffmpeg_setpts : Q -> content -> bool -> run_result;
}.

(** [speed_up_video] (video_speedup.py lines 19-34).  The command list
    is built first; [1/speed] raises ZeroDivisionError for a speed of
    zero. *)
Definition speed_up_video (F : SpeedFfmpeg)
  (input_file output_file : string) (speed : Q) : Script unit :=
  if Qeq_bool speed 0
  then fun fs => (Raises PyZeroDivisionError, fs)
  else run_ffmpeg_script (ffmpeg_setpts F) (1 / speed) input_file output_file.

(** [args.output_file or default]: [None] and the empty string both
    give the default. *)
Definition or_default (given : option string) (default : string) : string :=
  match given with
  | Some (String c t) => String c t
  | _ => default
  end.

(** [input(prompt)] where the user is asked once: the line typed, or
    EOFError when the standard input is at its end. *)
Definition input_line (answer : option string) : outcome string :=
  match answer with
  | Some line => Returns line
  | None => Raises PyEOFError
  end.

(** [main] of video_speedup.py (lines 52-76).  [answer] is what the
    user types if asked; the question is outside the [try]. *)
Definition speedup_main (F : SpeedFfmpeg) (input_file : string)
  (output_arg : option string) (speed : Q) (answer : option string)
  : Script unit :=
  fun fs =>
    let output_file :=
      or_default output_arg
        (get_default_output_filename input_file "_speedup") in
    let process :=
      match speed_up_video F input_file output_file speed fs with
      | (Raises PyCalledProcessError, fs') => (Returns tt, fs')
      | other => other
      end in
    if bool_decide (is_Some (fs !! output_file)) then
      match input_line answer with
      | Returns overwrite =>
          if String.eqb (lower (strip overwrite)) "y" then process
          else (Returns tt, fs)
      | Raises e => (Raises e, fs)
      end
    else process.

(** ** The other scripts *)

(** The [ffmpeg] runs of the scripts that do not pass [-y]: from the
    options between input and output, the input's contents, and
    whether the output path exists, to the outcome of the run. *)
Record Ffmpeg : Type := {
  ffmpeg_run : list string -> content -> bool -> run_result;
}.

(** [confirm_overwrite] of downsize_movie.py (lines 11-25): it asks
    until the answer, stripped and lowered, is [y], [n] or empty.
    [answers] are the lines the user types; the result comes with the
    lines not read. *)
Fixpoint confirm_overwrite_downsize (answers : list string)
  : outcome bool * list string :=
  match answers with
  | [] => (Raises PyEOFError, [])
  | answer :: rest =>
      let response := lower (strip answer) in
      if String.eqb response "y" then (Returns true, rest)
      else if String.eqb response "" || String.eqb response "n"
      then (Returns false, rest)
      else confirm_overwrite_downsize rest
  end.

(** [confirm_overwrite] of silent_video_creator.py (lines 34-51): it
    asks until the answer, lowered, is [y], [yes], [n] or [no]. *)
Fixpoint confirm_overwrite_silent (answers : list string)
  : outcome bool * list string :=
  match answers with
  | [] => (Raises PyEOFError, [])
  | answer :: rest =>
      let choice := lower answer in
      if String.eqb choice "y" || String.eqb choice "yes"
      then (Returns true, rest)
      else if String.eqb choice "n" || String.eqb choice "no"
      then (Returns false, rest)
      else confirm_overwrite_silent rest
  end.

(** [downsize_video] (downsize_movie.py lines 27-50): a failure of
    [ffmpeg] ends the program with status 1. *)
Definition downsize_video (F : Ffmpeg) (input_file output_file scale : string)
  : Script unit :=
  fun fs =>
    match run_ffmpeg_script (ffmpeg_run F)
            ["-vf"; "scale=" +:+ scale; "-c:a"; "copy"]%string
            input_file output_file fs with
    | (Raises PyCalledProcessError, fs') => (Raises (PySystemExit 1), fs')
    | other => other
    end.

(** [main] of downsize_movie.py (lines 89-107). *)
Definition downsize_main (F : Ffmpeg) (input_file : string)
  (output_arg : option string) (scale : string) (answers : list string)
  : Script unit :=
  fun fs =>
    let output_file :=
      or_default output_arg
        (get_default_output_filename input_file "_downsized") in
    if bool_decide (is_Some (fs !! output_file)) then
      match confirm_overwrite_downsize answers with
      | (Returns true, _) => downsize_video F input_file output_file scale fs
      | (Returns false, _) => (Raises (PySystemExit 0), fs)
      | (Raises e, _) => (Raises e, fs)
      end
    else downsize_video F input_file output_file scale fs.

(** [make_video_silent] (silent_video_creator.py lines 16-32): a
    failure of [ffmpeg] is reported and not raised. *)
Definition make_video_silent (F : Ffmpeg) (input_file output_file : string)
  : Script unit :=
  fun fs =>
    match run_ffmpeg_script (ffmpeg_run F) ["-an"]%string
            input_file output_file fs with
    | (Raises PyCalledProcessError, fs') => (Returns tt, fs')
    | other => other
    end.

(** [main] of silent_video_creator.py (lines 93-111); [yes] is the
    flag [-y]. *)
Definition silent_main (F : Ffmpeg) (input_file : string)
  (output_arg : option string) (yes : bool) (answers : list string)
  : Script unit :=
  fun fs =>
    let output_file :=
      or_default output_arg (generate_output_filename input_file) in
    if negb (bool_decide (is_Some (fs !! input_file))) then (Returns tt, fs)
    else if bool_decide (is_Some (fs !! output_file)) && negb yes then
      match confirm_overwrite_silent answers with
      | (Returns true, _) => make_video_silent F input_file output_file fs
      | (Returns false, _) => (Returns tt, fs)
      | (Raises e, _) => (Raises e, fs)
      end
    else make_video_silent F input_file output_file fs.

(** [extract_segment] (trim_video.py lines 13-44): the answer is
    lowered but not stripped; a failure of [ffmpeg] is reported and
    raised again. *)
Definition extract_segment (F : Ffmpeg)
  (input_file output_file duration : string) (answer : option string)
  : Script unit :=
  fun fs =>
    let run :=
      run_ffmpeg_script (ffmpeg_run F)
        ["-t"; duration; "-c"; "copy"]%string input_file output_file fs in
    if bool_decide (is_Some (fs !! output_file)) then
      match input_line answer with
      | Returns overwrite =>
          if String.eqb (lower overwrite) "y" then run else (Returns tt, fs)
      | Raises e => (Raises e, fs)
      end
    else run.

(** [main] of trim_video.py (lines 47-76): [if not args.output_file]
    takes the default for [None] and for the empty string. *)
Definition trim_main (F : Ffmpeg) (input_file : string)
  (output_arg : option string) (duration : string) (answer : option string)
  : Script unit :=
  extract_segment F input_file
    (or_default output_arg (default_segment_filename input_file))
    duration answer.

(** [extract_audio] (extract_audio_mp3.py lines 11-30): a failure of
    [ffmpeg] is raised as RuntimeError, whose message decodes the
    captured standard error; [stderr_utf8] tells whether these bytes
    are UTF-8, and when they are not, [decode] raises
    UnicodeDecodeError in the handler. *)
Definition extract_audio (F : Ffmpeg) (stderr_utf8 : bool)
  (input_file output_file : string) : Script unit :=
  fun fs =>
    match run_ffmpeg_script (ffmpeg_run F)
            ["-vn"; "-ab"; "192k"; "-ar"; "44100"]%string
            input_file output_file fs with
    | (Raises PyCalledProcessError, fs') =>
        (Raises (if stderr_utf8 then PyRuntimeError
                 else PyUnicodeDecodeError), fs')
    | other => other
    end.

(** [confirm_overwrite] of extract_audio_mp3.py (lines 32-45). *)
Definition confirm_overwrite_extract (file_path : string)
  (answer : option string) : Script bool :=
  fun fs =>
    if bool_decide (is_Some (fs !! file_path))
    then
      match input_line answer with
      | Returns response => (Returns (String.eqb (lower (strip response)) "y"), fs)
      | Raises e => (Raises e, fs)
      end
    else (Returns true, fs).

(** [main] of extract_audio_mp3.py (lines 47-79): the question is
    outside the [try]; [except Exception] catches what [extract_audio]
    raises. *)
Definition extract_main (F : Ffmpeg) (stderr_utf8 : bool)
  (input_file : string) (output_arg : option string)
  (answer : option string) : Script unit :=
  fun fs =>
    let output_file :=
      or_default output_arg (default_extracted_filename input_file) in
    match confirm_overwrite_extract output_file answer fs with
    | (Returns false, fs') => (Returns tt, fs')
    | (Returns true, fs') =>
        match extract_audio F stderr_utf8 input_file output_file fs' with
        | (Raises (PySystemExit code), fs'') =>
            (Raises (PySystemExit code), fs'')
        | (_, fs'') => (Returns tt, fs'')
        end
    | (Raises e, fs') => (Raises e, fs')
    end.

(** The shape of the two asking loops: ask until an answer is accepted
    as yes or as no. *)
Fixpoint ask_until (yes no : string -> bool) (answers : list string)
  : outcome bool * list string :=
  match answers with
  | [] => (Raises PyEOFError, [])
  | answer :: rest =>
      if yes answer then (Returns true, rest)
      else if no answer then (Returns false, rest)
      else ask_until yes no rest
  end.

(** The answers the two loops accept. *)
Definition downsize_yes (answer : string) : bool :=
  String.eqb (lower (strip answer)) "y".

Definition downsize_no (answer : string) : bool :=
  String.eqb (lower (strip answer)) "" || String.eqb (lower (strip answer)) "n".

Definition silent_yes (answer : string) : bool :=
  String.eqb (lower answer) "y" || String.eqb (lower answer) "yes".

Definition silent_no (answer : string) : bool :=
  String.eqb (lower answer) "n" || String.eqb (lower answer) "no".

(** * Theorems *)

(** ** Comparisons *)

Lemma Qltb_lt (a b : Q) : Qltb a b = true <-> a < b.
Proof.
  unfold Qltb. rewrite negb_true_iff.
  destruct (Qle_bool b a) eqn:E.
  - apply Qle_bool_iff in E. split; [discriminate | intros H; lra].
  - split; [intros _ | reflexivity].
    destruct (Qlt_le_dec a b) as [H|H]; [exact H|].
    apply Qle_bool_iff in H. congruence.
Qed.

Lemma Qltb_ge (a b : Q) : Qltb a b = false <-> b <= a.
Proof.
  unfold Qltb. rewrite negb_false_iff. apply Qle_bool_iff.
Qed.

(** Turn the recorded outcomes of [Qltb] tests into order facts. *)
Ltac qltb_facts :=
  repeat match goal with
         | H : Qltb _ _ = true |- _ => apply Qltb_lt in H
         | H : Qltb _ _ = false |- _ => apply Qltb_ge in H
         end.

(** ** Interval Normalizer *)

(** Scenario A of the specification. *)
Example normalize_scenario_A :
  normalize [2; 10] [5; 12] 1 = [(10 + 1, 12); (2 + 1, 5)].
Proof. reflexivity. Qed.

(** Pairing two sequences of equal length that each got one more
    element at the end. *)
Lemma zip_snoc (starts ends : list time) (s e : time) :
  length starts = length ends ->
  combine (starts ++ [s]) (ends ++ [e]) = combine starts ends ++ [(s, e)].
Proof.
  revert ends. induction starts as [|s0 starts IH]; intros [|e0 ends] Hlen;
    simpl in Hlen; try discriminate; [reflexivity|].
  simpl. f_equal. apply IH. lia.
Qed.

Lemma zip_reversed (starts ends : list time) :
  length starts = length ends ->
  combine (rev starts) (rev ends) = rev (combine starts ends).
Proof.
  revert ends. induction starts as [|s0 starts IH]; intros [|e0 ends] Hlen;
    simpl in Hlen; try discriminate; [reflexivity|].
  simpl. rewrite zip_snoc by (rewrite !length_rev; lia).
  rewrite IH by lia. reflexivity.
Qed.

Lemma pair_reversed_rev (starts ends : list time) :
  length starts = length ends ->
  pair_reversed starts ends = rev (raw_intervals starts ends).
Proof. apply zip_reversed. Qed.

Lemma normalize_length (starts ends : list time) (margin : time) :
  length (normalize starts ends margin)
  = Nat.min (length starts) (length ends).
Proof.
  unfold normalize, pair_reversed.
  rewrite length_map, length_combine, !length_rev. reflexivity.
Qed.

Lemma chronological_adjacent (raw : list interval) :
  chronological raw ->
  forall (j : nat) (p q : interval),
    nth_error raw j = Some p -> nth_error raw (S j) = Some q ->
    snd p <= fst q.
Proof.
  induction raw as [|[s e] rest IH]; intros Hc j p q Hp Hq.
  - destruct j; discriminate.
  - destruct Hc as (_ & Hnext & Hrest).
    destruct j as [|j].
    + simpl in Hp. injection Hp as <-.
      destruct rest as [|[s' e'] rest']; [discriminate|].
      simpl in Hq. injection Hq as <-. exact Hnext.
    + apply (IH Hrest j p q); assumption.
Qed.

Lemma chronological_well_formed (raw : list interval) :
  chronological raw -> Forall well_formed raw.
Proof.
  induction raw as [|[s e] rest IH]; intros Hc; constructor.
  - exact (proj1 Hc).
  - apply IH, Hc.
Qed.

Lemma add_margin_end (margin : time) (p : interval) :
  snd (add_margin margin p) = snd p.
Proof. destruct p; reflexivity. Qed.

Lemma add_margin_start_ge (margin : time) (p : interval) :
  0 <= margin -> fst p <= fst (add_margin margin p).
Proof.
  intros Hm. destruct p as [s e]; simpl.
  destruct (Qeq_bool s 0); simpl; lra.
Qed.

(** The loop with the exact sum is [normalize]. *)
Lemma normalize_exact (starts ends : list time) (margin : time) :
  normalize_with (fun start => negb (Qeq_bool start 0)) Qplus
    starts ends margin
  = normalize starts ends margin.
Proof. reflexivity. Qed.

(** One position of the loop, over any arithmetic. *)
Lemma normalize_with_nth {T : Type} (nonzero : T -> bool) (add : T -> T -> T)
  (starts ends : list T) (margin : T) (i : nat) (s e : T) :
  nth_error (combine (rev starts) (rev ends)) i = Some (s, e) ->
  nth_error (normalize_with nonzero add starts ends margin) i
  = Some (if nonzero s then add s margin else s, e).
Proof.
  intros Hraw. unfold normalize_with.
  rewrite nth_error_map, Hraw. reflexivity.
Qed.

(** C5 (margin property), on binary64 values.  At every position of
    the pairing, the normalized interval keeps the raw end; its start
    is the raw start itself when the raw start equals zero (of either
    sign), and the binary64 sum of the raw start and the margin when
    the raw start does not equal zero (NaN included). *)
Theorem normalize_margin_property
  (starts ends : list float64) (margin : float64) (i : nat) (s e : float64) :
  nth_error (combine (rev starts) (rev ends)) i = Some (s, e) ->
  exists s' : float64,
    nth_error (normalize_float64 starts ends margin) i = Some (s', e) /\
    (SFeqb s (S754_zero false) = true -> s' = s) /\
    (SFeqb s (S754_zero false) = false -> s' = float64_add s margin).
Proof.
  intros Hraw. unfold normalize_float64.
  rewrite (normalize_with_nth _ _ _ _ _ _ _ _ Hraw).
  unfold float64_nonzero.
  destruct (SFeqb s (S754_zero false)); cbn [negb].
  - exists s. split; [reflexivity|]. split; [reflexivity|discriminate].
  - exists (float64_add s margin).
    split; [reflexivity|]. split; [discriminate|reflexivity].
Qed.

Lemma normalize_margin_property_witness :
  exists s' : float64,
    nth_error (normalize_float64
                 [float64_ratio 0 1; float64_ratio 1 10]
                 [float64_ratio 0 1; float64_ratio 1 1]
                 (float64_ratio 2 10)) 0
    = Some (s', float64_ratio 1 1) /\
    (SFeqb (float64_ratio 1 10) (S754_zero false) = true ->
     s' = float64_ratio 1 10) /\
    (SFeqb (float64_ratio 1 10) (S754_zero false) = false ->
     s' = float64_add (float64_ratio 1 10) (float64_ratio 2 10)).
Proof.
  apply (normalize_margin_property
           [float64_ratio 0 1; float64_ratio 1 10]
           [float64_ratio 0 1; float64_ratio 1 1]
           (float64_ratio 2 10) 0
           (float64_ratio 1 10) (float64_ratio 1 1)).
  reflexivity.
Defined.

(** The sum is the rounded one: 0.1 + 0.2 is 0.30000000000000004, the
    binary64 value above 0.3; a start at zero gets no margin. *)
Example normalize_float64_rounds :
  normalize_float64 [float64_ratio 0 1; float64_ratio 1 10]
                    [float64_ratio 0 1; float64_ratio 1 1]
                    (float64_ratio 2 10)
  = [(S754_finite false 5404319552844596 (-54), float64_ratio 1 1);
     (S754_zero false, S754_zero false)] /\
  float64_ratio 3 10 = S754_finite false 5404319552844595 (-54).
Proof. split; vm_compute; reflexivity. Qed.

(** The rounding on rationals gives the same sums as the binary64
    addition: 0.1 + 0.2 and 2.0 + 3.0000000000000004. *)
Example float_add_examples :
  float_add (7205759403792794 # 72057594037927936)
            (7205759403792794 # 36028797018963968)
  == 5404319552844596 # 18014398509481984 /\
  float64_value (float64_add (float64_ratio 1 10) (float64_ratio 2 10))
  = Some (inject_Z 5404319552844596 * pow2 (-54)) /\
  float_add 2 (6755399441055745 # 2251799813685248) == 5 /\
  float64_add (float64_ratio 2 1)
              (S754_finite false 6755399441055745 (-51))
  = float64_ratio 5 1.
Proof. repeat split; vm_compute; reflexivity. Qed.

(** ** Rounding is monotone *)

Lemma pow2_pos (k : Z) : 0 < pow2 k.
Proof. apply Qpower_0_lt. reflexivity. Qed.

Lemma pow2_add (a b : Z) : pow2 (a + b) == pow2 a * pow2 b.
Proof. apply Qpower_plus. discriminate. Qed.

Lemma pow2_le (a b : Z) : (a <= b)%Z -> pow2 a <= pow2 b.
Proof. intros H. apply Qpower_le_compat_l; [exact H|discriminate]. Qed.

Lemma pow2_lt_inv (a b : Z) : pow2 a < pow2 b -> (a < b)%Z.
Proof. intros H. apply (Qpower_lt_compat_l_inv 2); [exact H|reflexivity]. Qed.

Lemma pow2_Z (k : Z) : (0 <= k)%Z -> pow2 k == inject_Z (2 ^ k).
Proof. intros H. unfold pow2. rewrite Zpower_Qpower by exact H. reflexivity. Qed.

Lemma pow2_div (a b : Z) : pow2 a / pow2 b == pow2 (a - b).
Proof.
  pose proof (pow2_pos b) as Hb.
  replace a with ((a - b) + b)%Z at 1 by ring.
  rewrite pow2_add. field. intros H. rewrite H in Hb. inversion Hb.
Qed.

Lemma floor_log2_spec (x : Q) :
  0 < x -> pow2 (floor_log2 x) <= x /\ x < pow2 (floor_log2 x + 1).
Proof.
  intros Hx. destruct x as [a d]. unfold floor_log2. cbn [Qnum Qden].
  assert (Ha : (0 < a)%Z).
  { unfold Qlt in Hx. cbn in Hx. lia. }
  set (la := Z.log2 a). set (ld := Z.log2 (Z.pos d)).
  destruct (Z.log2_spec a Ha) as [Ha1 Ha2]. fold la in Ha1, Ha2.
  destruct (Z.log2_spec (Z.pos d) ltac:(lia)) as [Hd1 Hd2].
  fold ld in Hd1, Hd2.
  assert (Hla : (0 <= la)%Z) by apply Z.log2_nonneg.
  assert (Hld : (0 <= ld)%Z) by apply Z.log2_nonneg.
  assert (Hq : a # d == inject_Z a / inject_Z (Z.pos d)) by apply Qmake_Qdiv.
  assert (Hdpos : 0 < inject_Z (Z.pos d)).
  { unfold Qlt. cbn. lia. }
  assert (Hup : a # d < pow2 (la - ld + 1)).
  { rewrite Hq. apply Qlt_shift_div_r; [exact Hdpos|].
    apply Qlt_le_trans with (pow2 (la - ld + 1) * pow2 ld).
    - rewrite <- pow2_add. replace (la - ld + 1 + ld)%Z with (la + 1)%Z by ring.
      rewrite pow2_Z by lia. rewrite <- Zlt_Qlt. exact Ha2.
    - apply Qmult_le_l; [apply pow2_pos|].
      rewrite pow2_Z by lia. rewrite <- Zle_Qle. exact Hd1. }
  assert (Hlow : pow2 (la - ld - 1) <= a # d).
  { rewrite Hq. apply Qle_shift_div_l; [exact Hdpos|].
    apply Qle_trans with (pow2 (la - ld - 1) * pow2 (ld + 1)).
    - apply Qmult_le_l; [apply pow2_pos|].
      rewrite pow2_Z by lia. rewrite <- Zle_Qle. lia.
    - rewrite <- pow2_add. replace (la - ld - 1 + (ld + 1))%Z with la by ring.
      rewrite pow2_Z by lia. rewrite <- Zle_Qle. exact Ha1. }
  destruct (Qle_bool (pow2 (la - ld)) (a # d)) eqn:E.
  - apply Qle_bool_iff in E. split; assumption.
  - split; [exact Hlow|].
    replace (la - ld - 1 + 1)%Z with (la - ld)%Z by ring.
    apply Qnot_le_lt. intros H. apply Qle_bool_iff in H. congruence.
Qed.

Lemma floor_log2_le (x y : Q) :
  0 < x -> x <= y -> (floor_log2 x <= floor_log2 y)%Z.
Proof.
  intros Hx Hxy.
  destruct (floor_log2_spec x Hx) as [Hx1 _].
  destruct (floor_log2_spec y) as [_ Hy2]; [lra|].
  assert (H : pow2 (floor_log2 x) < pow2 (floor_log2 y + 1)) by lra.
  apply pow2_lt_inv in H. lia.
Qed.

Lemma round_half_even_bounds (q : Q) :
  (Qfloor q <= round_half_even q <= Qfloor q + 1)%Z.
Proof.
  unfold round_half_even.
  destruct (Qcompare _ _); [destruct (Z.even _)| |]; lia.
Qed.

Lemma round_half_even_le (p q : Q) :
  p <= q -> (round_half_even p <= round_half_even q)%Z.
Proof.
  intros Hpq.
  pose proof (Qfloor_resp_le p q Hpq) as Hf.
  pose proof (round_half_even_bounds p) as Hp.
  pose proof (round_half_even_bounds q) as Hq.
  destruct (Z.eq_dec (Qfloor p) (Qfloor q)) as [Heq|Hne]; [|lia].
  clear Hp Hq. unfold round_half_even. rewrite <- Heq.
  destruct (Qcompare (p - inject_Z (Qfloor p)) (1 # 2)) eqn:Ep;
    destruct (Qcompare (q - inject_Z (Qfloor p)) (1 # 2)) eqn:Eq;
    try (destruct (Z.even (Qfloor p))); try lia; exfalso;
    repeat match goal with
           | H : (_ ?= _) = Datatypes.Eq |- _ => apply Qeq_alt in H
           | H : (_ ?= _) = Lt |- _ => apply Qlt_alt in H
           | H : (_ ?= _) = Gt |- _ => apply Qgt_alt in H
           end; lra.
Qed.

Lemma round_half_even_Z (n : Z) : round_half_even (inject_Z n) = n.
Proof.
  unfold round_half_even. rewrite Qfloor_Z.
  assert (H : inject_Z n - inject_Z n < 1 # 2) by lra.
  rewrite Qlt_alt in H. rewrite H. reflexivity.
Qed.

Lemma round_half_even_le_Z (q : Q) (n : Z) :
  q <= inject_Z n -> (round_half_even q <= n)%Z.
Proof.
  intros H. apply round_half_even_le in H.
  rewrite round_half_even_Z in H. exact H.
Qed.

Lemma round_half_even_ge_Z (q : Q) (n : Z) :
  inject_Z n <= q -> (n <= round_half_even q)%Z.
Proof.
  intros H. apply round_half_even_le in H.
  rewrite round_half_even_Z in H. exact H.
Qed.

Lemma round_at_le (u : Z) (x y : Q) :
  x <= y -> round_at u x <= round_at u y.
Proof.
  intros Hxy. pose proof (pow2_pos u) as Hu. unfold round_at.
  apply Qmult_le_compat_r; [|lra].
  rewrite <- Zle_Qle. apply round_half_even_le.
  apply Qmult_le_compat_r; [exact Hxy|].
  apply Qlt_le_weak, Qinv_lt_0_compat, Hu.
Qed.

(** Rounding at step [2^u] does not cross a multiple of [2^u]. *)
Lemma round_at_le_grid (u n : Z) (x : Q) :
  x <= inject_Z n * pow2 u -> round_at u x <= inject_Z n * pow2 u.
Proof.
  intros Hx. pose proof (pow2_pos u) as Hu. unfold round_at.
  apply Qmult_le_compat_r; [|lra].
  rewrite <- Zle_Qle. apply round_half_even_le_Z.
  apply Qle_shift_div_r; assumption.
Qed.

Lemma round_at_ge_grid (u n : Z) (x : Q) :
  inject_Z n * pow2 u <= x -> inject_Z n * pow2 u <= round_at u x.
Proof.
  intros Hx. pose proof (pow2_pos u) as Hu. unfold round_at.
  apply Qmult_le_compat_r; [|lra].
  rewrite <- Zle_Qle. apply round_half_even_ge_Z.
  apply Qle_shift_div_l; assumption.
Qed.

(** A power of two at or above the step is a multiple of the step. *)
Lemma pow2_grid (e u : Z) :
  (u <= e)%Z -> pow2 e == inject_Z (2 ^ (e - u)) * pow2 u.
Proof.
  intros H. rewrite <- (pow2_Z (e - u)) by lia. rewrite <- pow2_add.
  replace (e - u + u)%Z with e by ring. reflexivity.
Qed.

Lemma pow2_grid_opp (e u : Z) :
  (u <= e)%Z -> - pow2 e == inject_Z (- 2 ^ (e - u)) * pow2 u.
Proof.
  intros H. rewrite (pow2_grid e u H), inject_Z_opp. ring.
Qed.

Lemma magnitude_spec (x : Q) :
  ~ x == 0 ->
  pow2 (floor_log2 (Qabs x)) <= Qabs x /\
  Qabs x < pow2 (floor_log2 (Qabs x) + 1).
Proof.
  intros Hx. apply floor_log2_spec.
  destruct (Qlt_le_dec 0 x) as [Hp|Hn].
  - rewrite Qabs_pos; lra.
  - rewrite Qabs_neg by exact Hn.
    destruct (Qlt_le_dec x 0) as [Hlt|Hge]; [lra|].
    exfalso. apply Hx. lra.
Qed.

Lemma binary64_round_le (x y : Q) :
  x <= y -> binary64_round x <= binary64_round y.
Proof.
  intros Hxy. unfold binary64_round.
  set (ux := ulp_exponent x). set (uy := ulp_exponent y).
  destruct (Z.eq_dec ux uy) as [Heq|Hne].
  { rewrite <- Heq. apply round_at_le, Hxy. }
  destruct (Qlt_le_dec 0 x) as [Hx|Hx]; [|destruct (Qlt_le_dec y 0) as [Hy|Hy]].
  - (* 0 < x <= y *)
    assert (Hy : 0 < y) by lra.
    destruct (magnitude_spec x) as [Hx1 Hx2]; [lra|].
    destruct (magnitude_spec y) as [Hy1 Hy2]; [lra|].
    assert (Hax : Qabs x == x) by (apply Qabs_pos; lra).
    assert (Hay : Qabs y == y) by (apply Qabs_pos; lra).
    assert (He : (floor_log2 (Qabs x) <= floor_log2 (Qabs y))%Z).
    { assert (H : pow2 (floor_log2 (Qabs x)) < pow2 (floor_log2 (Qabs y) + 1))
        by lra.
      apply pow2_lt_inv in H. lia. }
    unfold ulp_exponent in ux, uy.
    set (ex := floor_log2 (Qabs x)) in *. set (ey := floor_log2 (Qabs y)) in *.
    apply Qle_trans with (pow2 ey).
    + rewrite (pow2_grid ey ux) by lia. apply round_at_le_grid.
      rewrite <- (pow2_grid ey ux) by lia.
      apply Qle_trans with (pow2 (ex + 1)); [lra|apply pow2_le; lia].
    + rewrite (pow2_grid ey uy) by lia. apply round_at_ge_grid.
      rewrite <- (pow2_grid ey uy) by lia. lra.
  - (* x <= y < 0 *)
    destruct (magnitude_spec x) as [Hx1 Hx2]; [lra|].
    destruct (magnitude_spec y) as [Hy1 Hy2]; [lra|].
    assert (Hax : Qabs x == - x) by (apply Qabs_neg; lra).
    assert (Hay : Qabs y == - y) by (apply Qabs_neg; lra).
    assert (He : (floor_log2 (Qabs y) <= floor_log2 (Qabs x))%Z).
    { assert (H : pow2 (floor_log2 (Qabs y)) < pow2 (floor_log2 (Qabs x) + 1))
        by lra.
      apply pow2_lt_inv in H. lia. }
    unfold ulp_exponent in ux, uy.
    set (ex := floor_log2 (Qabs x)) in *. set (ey := floor_log2 (Qabs y)) in *.
    apply Qle_trans with (- pow2 ex).
    + rewrite (pow2_grid_opp ex ux) by lia. apply round_at_le_grid.
      rewrite <- (pow2_grid_opp ex ux) by lia. lra.
    + rewrite (pow2_grid_opp ex uy) by lia. apply round_at_ge_grid.
      rewrite <- (pow2_grid_opp ex uy) by lia.
      assert (H : pow2 (ey + 1) <= pow2 ex) by (apply pow2_le; lia). lra.
  - (* x <= 0 <= y *)
    apply Qle_trans with (inject_Z 0 * pow2 ux).
    + apply round_at_le_grid. change (inject_Z 0) with 0. lra.
    + assert (E : inject_Z 0 * pow2 ux == inject_Z 0 * pow2 uy)
        by (change (inject_Z 0) with 0; ring).
      rewrite E. apply round_at_ge_grid. change (inject_Z 0) with 0. lra.
Qed.

Lemma binary64_round_below (x e : Q) :
  representable e -> x <= e -> binary64_round x <= e.
Proof.
  intros He Hx. unfold representable in He. rewrite <- He.
  apply binary64_round_le, Hx.
Qed.

Lemma add_margin_rounded_well_formed (margin : time) (p : interval) :
  well_formed p -> representable (snd p) -> margin_fits margin p ->
  well_formed
    (add_margin_with (fun start => negb (Qeq_bool start 0)) float_add
       margin p).
Proof.
  destruct p as [s e]. unfold well_formed, margin_fits; cbn [fst snd].
  intros Hwf He Hfit. unfold add_margin_with.
  destruct (Qeq_bool s 0) eqn:E; cbn [negb fst snd].
  - exact Hwf.
  - destruct Hfit as [H0|Hm].
    + apply Qeq_eq_bool in H0. congruence.
    + apply binary64_round_below; [exact He|lra].
Qed.

(** C1, as amended.  For a detector output with equal counts whose raw
    intervals are chronological and non-overlapping, and a margin >= 0
    that fits every raw silence (the silence starts at zero, and gets no
    margin, or is at least [margin] long), every interval produced by
    the normalizer has [end >= start], the sum being the rounded one of
    the code.  The ends are binary64 values. *)
Theorem normalize_well_formed
  (starts ends : list time) (margin : time) :
  length starts = length ends ->
  chronological (raw_intervals starts ends) ->
  0 <= margin ->
  Forall representable ends ->
  Forall (margin_fits margin) (raw_intervals starts ends) ->
  Forall well_formed (normalize_rounded starts ends margin).
Proof.
  intros Hlen Hchrono _ Hrep Hfit.
  unfold normalize_rounded, normalize_with.
  rewrite (zip_reversed starts ends Hlen).
  apply chronological_well_formed in Hchrono.
  rewrite Forall_map. apply Forall_rev.
  unfold raw_intervals in *.
  rewrite Forall_forall in Hchrono. rewrite Forall_forall in Hfit.
  rewrite Forall_forall in Hrep.
  rewrite Forall_forall. intros p Hp.
  apply add_margin_rounded_well_formed; auto.
  destruct p as [s e]. cbn [snd]. apply Hrep.
  apply list_elem_of_In. apply list_elem_of_In in Hp.
  exact (in_combine_r _ _ _ _ Hp).
Qed.

Lemma normalize_well_formed_witness :
  Forall well_formed (normalize_rounded [2; 10] [5; 12] 1).
Proof.
  apply (normalize_well_formed [2; 10] [5; 12] 1).
  - reflexivity.
  - simpl. repeat split; lra.
  - lra.
  - constructor; [vm_compute; reflexivity|].
    constructor; [vm_compute; reflexivity|]. constructor.
  - constructor; [right; simpl; lra|].
    constructor; [right; simpl; lra|]. constructor.
Defined.

(** C1, as stated, fails: one raw silence from 2 to 5 (nonzero start,
    raw length 3) and margin 4 give the interval (6, 5), with the exact
    sum and with the rounded one (6 is a binary64 value). *)
Lemma normalize_ill_formed_counterexample :
  length [2] = length [5] /\
  chronological (raw_intervals [2] [5]) /\
  0 <= 4 /\
  ~ 2 == 0 /\
  5 - 2 < 4 /\
  ~ Forall well_formed (normalize [2] [5] 4) /\
  ~ Forall well_formed (normalize_rounded [2] [5] 4).
Proof.
  split; [reflexivity|]. split; [simpl; repeat split; lra|].
  split; [lra|]. split; [lra|]. split; [lra|]. split.
  - intros H. inversion H as [|p l Hwf _]; subst.
    unfold well_formed in Hwf. simpl in Hwf. lra.
  - intros H. inversion H as [|p l Hwf _]; subst.
    vm_compute in Hwf. apply Hwf. reflexivity.
Qed.

(** The condition of C1 is sufficient, not necessary, because the sum
    is rounded: the margin 3.0000000000000004 exceeds the raw length 3
    of the silence from 2 to 5, and the rounded sum is 5. *)
Example normalize_rounded_sum_fits :
  ~ margin_fits (6755399441055745 # 2251799813685248) (2, 5) /\
  Forall well_formed
    (normalize_rounded [2] [5] (6755399441055745 # 2251799813685248)).
Proof.
  split.
  - unfold margin_fits. cbn [fst snd]. intros [H|H].
    + vm_compute in H. discriminate H.
    + vm_compute in H. apply H. reflexivity.
  - constructor; [|constructor]. vm_compute. discriminate.
Qed.

(** C2.  For starts and ends of equal length n whose raw intervals are
    chronological and non-overlapping, and a margin >= 0, the normalizer
    produces exactly n intervals, ordered latest-first:
    [intervals[i].start >= intervals[i+1].end] for every valid [i]. *)
Theorem normalize_latest_first
  (starts ends : list time) (margin : time) :
  length starts = length ends ->
  chronological (raw_intervals starts ends) ->
  0 <= margin ->
  length (normalize starts ends margin) = length starts /\
  latest_first (normalize starts ends margin).
Proof.
  intros Hlen Hchrono Hm. split.
  - rewrite normalize_length. lia.
  - unfold latest_first, normalize. intros i p q Hp Hq.
    rewrite pair_reversed_rev in Hp, Hq by exact Hlen.
    rewrite nth_error_map, nth_error_rev in Hp, Hq.
    set (raw := raw_intervals starts ends) in *.
    destruct (Nat.ltb_spec (S i) (length raw)) as [Hlt|Hge];
      [|discriminate].
    destruct (Nat.ltb_spec i (length raw)) as [_|Hge]; [|lia].
    destruct (nth_error raw (length raw - S i)) as [p0|] eqn:Ep;
      [|discriminate].
    destruct (nth_error raw (length raw - S (S i))) as [q0|] eqn:Eq;
      [|discriminate].
    simpl in Hp, Hq. injection Hp as <-. injection Hq as <-.
    replace (length raw - S i)%nat with (S (length raw - S (S i)))
      in Ep by lia.
    pose proof (chronological_adjacent raw Hchrono _ _ _ Eq Ep) as Hadj.
    rewrite add_margin_end.
    pose proof (add_margin_start_ge margin p0 Hm). lra.
Qed.

Lemma normalize_latest_first_witness :
  length (normalize [2; 10] [5; 12] 1) = length [2; 10] /\
  latest_first (normalize [2; 10] [5; 12] 1).
Proof.
  apply (normalize_latest_first [2; 10] [5; 12] 1).
  - reflexivity.
  - simpl. repeat split; lra.
  - lra.
Defined.

Lemma pair_reversed_drops_leading (starts ends : list time) :
  pair_reversed starts ends = pairs_dropping_leading starts ends.
Proof.
  unfold pairs_dropping_leading, pair_reversed.
  set (n := Nat.min (length starts) (length ends)).
  rewrite <- !firstn_rev, <- combine_firstn.
  symmetry. apply firstn_all2.
  rewrite length_combine, !length_rev. fold n. lia.
Qed.

(** C4, as amended.  For starts and ends of different lengths the
    pairing stage produces exactly min(len(starts), len(ends))
    intervals, built from the last min(len(starts), len(ends)) elements
    of each sequence: what it drops from the longer sequence are its
    leading (earliest-emitted) elements. *)
Theorem normalize_unequal_lengths
  (starts ends : list time) (margin : time) :
  length starts <> length ends ->
  length (normalize starts ends margin)
  = Nat.min (length starts) (length ends) /\
  normalize starts ends margin
  = map (add_margin margin) (pairs_dropping_leading starts ends).
Proof.
  intros _. split.
  - apply normalize_length.
  - unfold normalize. rewrite pair_reversed_drops_leading. reflexivity.
Qed.

Lemma normalize_unequal_lengths_witness :
  length (normalize [1; 10; 20] [5; 15] 0) = 2%nat /\
  normalize [1; 10; 20] [5; 15] 0
  = map (add_margin 0) (pair_reversed [10; 20] [5; 15]).
Proof.
  apply (normalize_unequal_lengths [1; 10; 20] [5; 15] 0).
  simpl. lia.
Defined.

(** C4, as stated, fails: with starts 1, 10, 20 and ends 5, 15 the
    start that is dropped is 1, the first one emitted, and not 20, the
    trailing one. *)
Lemma pairing_drops_trailing_counterexample :
  length [1; 10; 20] <> length [5; 15] /\
  pair_reversed [1; 10; 20] [5; 15] = [(20, 15); (10, 5)] /\
  pair_reversed [1; 10; 20] [5; 15]
  <> pairs_dropping_trailing [1; 10; 20] [5; 15].
Proof.
  split; [simpl; lia|]. split; [reflexivity|].
  unfold pairs_dropping_trailing, pair_reversed. simpl.
  intros H. discriminate H.
Qed.

(** ** Threshold normalization *)

Lemma endswith_spec (s suffix : string) :
  endswith s suffix = true <-> exists p : string, s = p +:+ suffix.
Proof.
  split.
  - induction s as [|c t IH]; cbn [endswith]; intros H.
    + rewrite orb_false_r in H. apply String.eqb_eq in H.
      exists EmptyString. exact H.
    + apply orb_true_iff in H as [H|H].
      * apply String.eqb_eq in H. exists EmptyString. exact H.
      * destruct (IH H) as [p ->]. exists (String c p). reflexivity.
  - intros [p ->]. induction p as [|c p IH].
    + change (EmptyString +:+ suffix) with suffix.
      destruct suffix; cbn [endswith]; rewrite String.eqb_refl; reflexivity.
    + change (String c p +:+ suffix) with (String c (p +:+ suffix)).
      cbn [endswith]. rewrite IH. apply orb_true_r.
Qed.

Lemma endswith_app (p suffix : string) :
  endswith (p +:+ suffix) suffix = true.
Proof. apply endswith_spec. exists p. reflexivity. Qed.

(** C8.  The detector parameter built from a noise threshold always ends
    with "dB"; a threshold that already ends with "dB" is passed through
    unchanged, a threshold that does not gets "dB" appended; and the
    suffix is never added twice (the rule is idempotent). *)
Theorem noise_param_unit_suffix (noise : string) :
  (exists p : string, noise_param noise = p +:+ "dB") /\
  ((exists p : string, noise = p +:+ "dB") -> noise_param noise = noise) /\
  (~ (exists p : string, noise = p +:+ "dB") ->
   noise_param noise = noise +:+ "dB") /\
  noise_param (noise_param noise) = noise_param noise.
Proof.
  destruct (endswith noise "dB") eqn:E.
  - assert (Hn : noise_param noise = noise)
      by (unfold noise_param; rewrite E; reflexivity).
    rewrite !Hn. apply endswith_spec in E.
    split; [exact E|]. split; [reflexivity|]. split; [|reflexivity].
    intros Hno. contradiction.
  - assert (Hn : noise_param noise = noise +:+ "dB")
      by (unfold noise_param; rewrite E; reflexivity).
    rewrite !Hn.
    split; [exists noise; reflexivity|]. split; [|split].
    + intros Hex. apply endswith_spec in Hex. congruence.
    + reflexivity.
    + unfold noise_param. rewrite endswith_app. reflexivity.
Qed.

Example noise_param_default : noise_param "-50" = "-50dB"%string.
Proof. reflexivity. Qed.

Example noise_param_with_unit : noise_param "-40dB" = "-40dB"%string.
Proof. reflexivity. Qed.

(** ** Silence Event Parser *)

(** Scenario A of the specification, from the detector's text on. *)
Example parse_scenario_A :
  parse_silence_events
    ("silence_start: 2.0" +:+ LF +:+ "silence_end: 5.0" +:+ LF +:+
     "silence_start: 10.0" +:+ LF +:+ "silence_end: 12.0")
  = Ok ([20 # 10; 100 # 10], [50 # 10; 120 # 10]).
Proof. reflexivity. Qed.

Example parse_ffmpeg_lines :
  parse_silence_events
    ("[silencedetect @ 0x55d0] silence_start: 1.5" +:+ LF +:+
     "frame=  100 fps=0.0 q=-0.0 size=N/A time=00:00:04.00" +:+ LF +:+
     "[silencedetect @ 0x55d0] silence_end: 4.25 | silence_duration: 2.75")
  = Ok ([15 # 10], [425 # 100]).
Proof. reflexivity. Qed.

Example float_of_token_examples :
  float_of_token "5." = Some (5 # 1) /\
  float_of_token ".5" = Some (5 # 10) /\
  float_of_token "." = None /\
  float_of_token "1.2.3" = None.
Proof. repeat split; reflexivity. Qed.

Lemma append_cons (c : ascii) (s t : string) :
  String c s +:+ t = String c (s +:+ t).
Proof. reflexivity. Qed.

Lemma append_empty (t : string) : EmptyString +:+ t = t.
Proof. reflexivity. Qed.

Lemma append_assoc (s t u : string) : (s +:+ t) +:+ u = s +:+ (t +:+ u).
Proof.
  induction s as [|c s IH]; [reflexivity|].
  rewrite !append_cons, IH. reflexivity.
Qed.

Lemma prefix_append (m s : string) : String.prefix m (m +:+ s) = true.
Proof.
  induction m as [|c m IH]; [destruct s; reflexivity|].
  rewrite append_cons. cbn [String.prefix].
  destruct (ascii_dec c c); [exact IH | congruence].
Qed.

Lemma drop_chars_append (m s : string) :
  drop_chars (String.length m) (m +:+ s) = s.
Proof. induction m as [|c m IH]; [destruct s|]; auto. Qed.

Lemma contains_append (pre m s : string) :
  contains m (pre +:+ m +:+ s) = true.
Proof.
  induction pre as [|c pre IH].
  - change (EmptyString +:+ m +:+ s) with (m +:+ s).
    destruct (m +:+ s) eqn:E; cbn [contains]; rewrite <- E;
      rewrite prefix_append; reflexivity.
  - rewrite append_cons. cbn [contains]. rewrite IH. apply orb_true_r.
Qed.

Lemma skip_spaces_append (ws s : string) :
  all_chars is_space ws = true ->
  starts_with is_space s = false ->
  skip_spaces (ws +:+ s) = s.
Proof.
  intros Hws Hs. induction ws as [|c ws IH].
  - destruct s as [|a s]; [reflexivity|].
    simpl in Hs |- *. rewrite Hs. reflexivity.
  - cbn [all_chars] in Hws. apply andb_true_iff in Hws as [Hc Hws].
    rewrite append_cons. cbn [skip_spaces]. rewrite Hc. auto.
Qed.

Lemma take_num_append (tok rest : string) :
  all_chars is_num_char tok = true ->
  starts_with is_num_char rest = false ->
  take_num (tok +:+ rest) = tok.
Proof.
  intros Htok Hrest. induction tok as [|c tok IH].
  - destruct rest as [|a rest]; [reflexivity|].
    simpl in Hrest |- *. rewrite Hrest. reflexivity.
  - cbn [all_chars] in Htok. apply andb_true_iff in Htok as [Hc Htok].
    rewrite append_cons. cbn [take_num]. rewrite Hc, IH by exact Htok.
    reflexivity.
Qed.

(** The character classes of the pattern are disjoint. *)
Lemma num_char_not_space (c : ascii) :
  is_num_char c = true -> is_space c = false.
Proof.
  destruct c as [[] [] [] [] [] [] [] []]; intros H;
    solve [reflexivity | discriminate H].
Qed.

Lemma space_not_s (c : ascii) :
  is_space c = true -> negb (Ascii.eqb "s" c) = true.
Proof.
  destruct c as [[] [] [] [] [] [] [] []]; intros H;
    solve [reflexivity | discriminate H].
Qed.

Lemma stopper_inv (c : ascii) :
  stopper c = true -> is_space c = false /\ is_num_char c = false.
Proof.
  unfold stopper. rewrite negb_true_iff, orb_false_iff. tauto.
Qed.

Lemma all_chars_impl (P R : ascii -> bool) (s : string) :
  (forall c, P c = true -> R c = true) ->
  all_chars P s = true -> all_chars R s = true.
Proof.
  intros HPR. induction s as [|c s IH]; [reflexivity|].
  cbn [all_chars]. rewrite !andb_true_iff. intros [Hc Hs]. auto.
Qed.

Lemma all_chars_append (P : ascii -> bool) (s t : string) :
  all_chars P (s +:+ t) = all_chars P s && all_chars P t.
Proof.
  induction s as [|c s IH]; [reflexivity|].
  rewrite append_cons. cbn [all_chars]. rewrite IH. apply andb_assoc.
Qed.

Lemma length_append (s t : string) :
  String.length (s +:+ t) = (String.length s + String.length t)%nat.
Proof.
  induction s as [|c s IH]; [reflexivity|].
  rewrite append_cons. simpl. rewrite IH. reflexivity.
Qed.

Lemma drop_chars_short (k : nat) (u : string) :
  (String.length u <= k)%nat -> drop_chars k u = EmptyString.
Proof.
  revert u. induction k as [|k IH]; intros [|c u] Hlen;
    cbn [String.length] in Hlen; try reflexivity; [lia|].
  cbn [drop_chars]. apply IH. lia.
Qed.

Lemma stop_prefix_weaken (n : nat) (s : string) :
  stop_prefix (S n) s = true -> stop_prefix n s = true.
Proof.
  revert s. induction n as [|n IH]; intros s H; [reflexivity|].
  destruct s as [|c t]; [discriminate H|].
  cbn [stop_prefix] in H |- *. apply andb_true_iff in H as [Hc Ht].
  rewrite Hc. exact (IH t Ht).
Qed.

(** After fewer than [n] of [n] leading stoppers, neither [\s*] nor
    [[0-9.]+] can take a character. *)
Lemma stop_prefix_drop (j n : nat) (s : string) :
  stop_prefix n s = true -> (j < n)%nat ->
  take_num (skip_spaces (drop_chars j s)) = EmptyString.
Proof.
  revert n s. induction j as [|j IH]; intros [|n] [|c t] H Hlt;
    try lia; try discriminate H;
    cbn [stop_prefix] in H; apply andb_true_iff in H as [Hc Ht].
  - apply stopper_inv in Hc as [Hsp Hnum].
    cbn [drop_chars skip_spaces]. rewrite Hsp.
    cbn [take_num]. rewrite Hnum. reflexivity.
  - cbn [drop_chars]. apply (IH n); [exact Ht | lia].
Qed.

(** A text on which white space and number token take nothing still
    yields nothing when a text that starts with a stopper follows it. *)
Lemma take_num_skip_spaces_append (u s : string) :
  stop_prefix 1 s = true ->
  take_num (skip_spaces u) = EmptyString ->
  take_num (skip_spaces (u +:+ s)) = EmptyString.
Proof.
  intros Hs Hu. induction u as [|c u IH].
  - rewrite append_empty. exact (stop_prefix_drop 0 1 s Hs Nat.lt_0_1).
  - rewrite append_cons. cbn [skip_spaces] in Hu |- *.
    destruct (is_space c); [exact (IH Hu)|].
    cbn [take_num] in Hu |- *.
    destruct (is_num_char c); [discriminate Hu | reflexivity].
Qed.

Lemma take_num_drop_append (u : string) (k : nat) (s : string) :
  stop_prefix (S k) s = true ->
  take_num (skip_spaces (drop_chars k u)) = EmptyString ->
  take_num (skip_spaces (drop_chars k (u +:+ s))) = EmptyString.
Proof.
  revert k. induction u as [|c u IH]; intros k Hs Hu.
  - rewrite append_empty. apply (stop_prefix_drop k (S k)); [exact Hs | lia].
  - rewrite append_cons. destruct k as [|k].
    + cbn [drop_chars] in Hu |- *. rewrite <- append_cons.
      apply take_num_skip_spaces_append; [|exact Hu].
      clear Hu. destruct s; [discriminate Hs|].
      cbn [stop_prefix] in Hs |- *. exact Hs.
    + cbn [drop_chars] in Hu |- *.
      apply IH; [apply stop_prefix_weaken, Hs | exact Hu].
Qed.

(** A marker found at the start of [a +:+ s] but not at the start of
    [a] is longer than [a]. *)
Lemma prefix_short (m a s : string) :
  String.prefix m (a +:+ s) = true ->
  String.prefix m a = false ->
  (String.length a < String.length m)%nat.
Proof.
  revert a. induction m as [|x m IH]; intros a H1 H2.
  - destruct a; discriminate H2.
  - destruct a as [|y a]; cbn [String.length]; [lia|].
    rewrite append_cons in H1. cbn [String.prefix] in H1, H2.
    destruct (ascii_dec x y); [|discriminate H1].
    specialize (IH a H1 H2). lia.
Qed.

Lemma re_search_cons (m : string) (c : ascii) (t : string) :
  re_search m (String c t)
  = match match_here m (String c t) with
    | Some tok => Some tok
    | None => re_search m t
    end.
Proof. reflexivity. Qed.

Lemma re_search_here (m s tok : string) :
  match_here m s = Some tok -> re_search m s = Some tok.
Proof. intros H. destruct s; cbn [re_search]; rewrite H; reflexivity. Qed.

Lemma match_here_no_prefix (m s : string) :
  String.prefix m s = false -> match_here m s = None.
Proof. intros H. unfold match_here. rewrite H. reflexivity. Qed.

(** A position at which the pattern does not match still does not match
    when a text that starts with as many stoppers as the marker is long
    is appended: the marker may then reach into the appended text, but
    white space and token cannot start there. *)
Lemma match_here_extend (m : string) (c : ascii) (u s : string) :
  m <> EmptyString ->
  stop_prefix (String.length m) s = true ->
  match_here m (String c u) = None ->
  match_here m (String c u +:+ s) = None.
Proof.
  intros Hm Hs Hhere. destruct m as [|m0 m']; [contradiction|].
  unfold match_here in Hhere |- *.
  destruct (String.prefix (String m0 m') (String c u +:+ s)) eqn:Hp;
    [|reflexivity].
  assert (Hk : take_num (skip_spaces
                 (drop_chars (String.length (String m0 m')) (String c u)))
               = EmptyString).
  { destruct (String.prefix (String m0 m') (String c u)) eqn:Hq.
    - destruct (take_num _); [reflexivity | discriminate Hhere].
    - pose proof (prefix_short _ _ _ Hp Hq) as Hlen.
      rewrite drop_chars_short by lia. reflexivity. }
  cbn [String.length] in Hs, Hk |- *. rewrite append_cons.
  cbn [drop_chars] in Hk |- *.
  rewrite take_num_drop_append; [reflexivity | exact Hs | exact Hk].
Qed.

(** The search passes over a text without a match when a text that
    starts with that many stoppers follows. *)
Lemma re_search_before (m pre s : string) :
  m <> EmptyString ->
  stop_prefix (String.length m) s = true ->
  re_search m pre = None ->
  re_search m (pre +:+ s) = re_search m s.
Proof.
  intros Hm Hs. induction pre as [|c u IH]; intros Hpre; [reflexivity|].
  rewrite re_search_cons in Hpre.
  destruct (match_here m (String c u)) eqn:Hhere; [discriminate Hpre|].
  pose proof (match_here_extend m c u s Hm Hs Hhere) as Hext.
  rewrite append_cons in Hext |- *.
  rewrite re_search_cons, Hext. exact (IH Hpre).
Qed.

(** The search passes over characters that differ from the first
    character of the marker. *)
Lemma re_search_skip_chars (m0 : ascii) (m' skipped rest : string) :
  all_chars (fun c => negb (Ascii.eqb m0 c)) skipped = true ->
  re_search (String m0 m') (skipped +:+ rest) = re_search (String m0 m') rest.
Proof.
  intros H. induction skipped as [|c t IH]; [reflexivity|].
  cbn [all_chars] in H. apply andb_true_iff in H as [Hc Ht].
  rewrite append_cons, re_search_cons, match_here_no_prefix.
  - exact (IH Ht).
  - cbn [String.prefix]. destruct (ascii_dec m0 c) as [->|]; [|reflexivity].
    rewrite Ascii.eqb_refl in Hc. discriminate Hc.
Qed.

Lemma spaces_minus_not_s (ws : string) :
  all_chars is_space ws = true ->
  all_chars (fun c => negb (Ascii.eqb "s" c)) (ws +:+ "-") = true.
Proof.
  intros Hws. rewrite all_chars_append.
  rewrite (all_chars_impl _ _ ws space_not_s Hws). reflexivity.
Qed.

Lemma digit_not_dot (c : ascii) : is_digit c = true -> is_dot c = false.
Proof.
  destruct c as [[] [] [] [] [] [] [] []]; intros H;
    solve [reflexivity | discriminate H].
Qed.

Lemma float_digits_none (s : string) (dot digits : bool)
  (mant : Z) (den : positive) :
  all_chars is_num_char s = true ->
  float_digits s dot digits mant den = None <->
  (2 <= count_chars is_dot s + (if dot then 1 else 0))%nat \/
  (digits = false /\ count_chars is_digit s = 0%nat).
Proof.
  revert dot digits mant den.
  induction s as [|c t IH]; intros dot digits mant den Hs.
  - cbn [float_digits count_chars].
    destruct digits, dot; split; intros H; try reflexivity;
      try discriminate H; try (right; split; reflexivity);
      destruct H as [H|[H _]]; solve [lia | discriminate H].
  - cbn [all_chars] in Hs. apply andb_true_iff in Hs as [Hc Hs].
    cbn [float_digits count_chars].
    destruct (is_digit c) eqn:Hd.
    + rewrite (digit_not_dot c Hd), (IH _ _ _ _ Hs).
      split; intros [H|[H H']]; solve [left; lia | discriminate H | lia].
    + unfold is_num_char in Hc. rewrite Hd in Hc. cbn [orb] in Hc.
      rewrite Hc. destruct dot.
      * split; [intros _; left; lia | reflexivity].
      * rewrite (IH _ _ _ _ Hs).
        split; intros [H|[H H']];
          solve [left; lia | right; split; [exact H | lia]].
Qed.

(** [float] rejects a token of digits and dots exactly when it has two
    dots or more, or no digit. *)
Lemma float_of_token_none (tok : string) :
  all_chars is_num_char tok = true ->
  float_of_token tok = None <->
  (2 <= count_chars is_dot tok)%nat \/ count_chars is_digit tok = 0%nat.
Proof.
  intros Htok. unfold float_of_token.
  rewrite float_digits_none by exact Htok.
  split; intros [H|H]; solve [left; lia | right; tauto].
Qed.

(** The anchored match on a marker followed by a number token. *)
Lemma match_here_number (m ws tok rest : string) :
  all_chars is_space ws = true ->
  all_chars is_num_char tok = true ->
  tok <> EmptyString ->
  starts_with is_num_char rest = false ->
  match_here m (m +:+ ws +:+ tok +:+ rest) = Some tok.
Proof.
  intros Hws Htok Hne Hrest. unfold match_here.
  rewrite prefix_append, drop_chars_append.
  rewrite skip_spaces_append, take_num_append; auto.
  - destruct tok; [contradiction | reflexivity].
  - destruct tok as [|c tok]; [contradiction|].
    cbn [all_chars] in Htok. apply andb_true_iff in Htok as [Hc _].
    rewrite append_cons. simpl. apply num_char_not_space, Hc.
Qed.

(** The anchored match on a marker followed by a minus sign. *)
Lemma match_here_minus (m ws rest : string) :
  all_chars is_space ws = true ->
  match_here m (m +:+ ws +:+ "-" +:+ rest) = None.
Proof.
  intros Hws. unfold match_here.
  rewrite prefix_append, drop_chars_append.
  rewrite skip_spaces_append by (exact Hws || reflexivity).
  reflexivity.
Qed.

(** Search a marker [m], given as a literal, in
    [pre +:+ m' +:+ ws +:+ "-" +:+ rest], where [m'] is a literal
    marker too: pass over [pre], step through [m'] character by
    character (at its start with [Hhere], when [m'] is [m]), pass over
    the white space and the minus sign. *)
Ltac search_minus_line m ws rest Hws Hpre Hrest Hhere :=
  rewrite (re_search_before m) by
    solve [discriminate | reflexivity | exact Hpre];
  set (tail := ws +:+ "-" +:+ rest) in *;
  rewrite !append_cons, append_empty in Hhere |- *;
  try rewrite re_search_cons, Hhere;
  repeat (rewrite re_search_cons, match_here_no_prefix by reflexivity);
  subst tail; rewrite <- append_assoc;
  rewrite re_search_skip_chars by (apply spaces_minus_not_s; exact Hws);
  exact Hrest.

Lemma re_search_start_minus (pre ws rest : string) :
  all_chars is_space ws = true ->
  re_search "silence_start:" pre = None ->
  re_search "silence_start:" rest = None ->
  re_search "silence_start:"
    (pre +:+ "silence_start:" +:+ ws +:+ "-" +:+ rest) = None.
Proof.
  intros Hws Hpre Hrest.
  pose proof (match_here_minus "silence_start:" ws rest Hws) as Hhere.
  search_minus_line "silence_start:"%string ws rest Hws Hpre Hrest Hhere.
Qed.

Lemma re_search_end_minus (pre ws rest : string) :
  all_chars is_space ws = true ->
  re_search "silence_end:" pre = None ->
  re_search "silence_end:" rest = None ->
  re_search "silence_end:"
    (pre +:+ "silence_end:" +:+ ws +:+ "-" +:+ rest) = None.
Proof.
  intros Hws Hpre Hrest.
  pose proof (match_here_minus "silence_end:" ws rest Hws) as Hhere.
  search_minus_line "silence_end:"%string ws rest Hws Hpre Hrest Hhere.
Qed.

(** The pattern of [silence_end:] on a [silence_start:] line. *)
Lemma re_search_end_in_start_line (pre ws rest : string) :
  all_chars is_space ws = true ->
  re_search "silence_end:" pre = None ->
  re_search "silence_end:" rest = None ->
  re_search "silence_end:"
    (pre +:+ "silence_start:" +:+ ws +:+ "-" +:+ rest) = None.
Proof.
  intros Hws Hpre Hrest.
  pose proof (match_here_minus "silence_start:" ws rest Hws) as Hhere.
  search_minus_line "silence_end:"%string ws rest Hws Hpre Hrest Hhere.
Qed.

(** A text without line boundaries is one line. *)
Lemma splitlines_from_single (acc s : string) :
  all_chars (fun c => negb (is_linebreak c)) s = true ->
  acc +:+ s <> EmptyString ->
  splitlines_from acc s = [acc +:+ s].
Proof.
  revert acc. induction s as [|c s IH]; intros acc Hs Hne.
  - assert (Hacc : acc +:+ EmptyString = acc).
    { clear. induction acc as [|a acc IHa]; [reflexivity|].
      rewrite append_cons, IHa. reflexivity. }
    rewrite Hacc in Hne |- *. destruct acc; [contradiction | reflexivity].
  - cbn [all_chars] in Hs. apply andb_true_iff in Hs as [Hc Hs].
    apply negb_true_iff in Hc. cbn [splitlines_from]. rewrite Hc.
    assert (Happ : (acc +:+ String c EmptyString) +:+ s
                   = acc +:+ String c s).
    { rewrite append_assoc. reflexivity. }
    rewrite IH; [rewrite Happ; reflexivity | exact Hs |].
    rewrite Happ. exact Hne.
Qed.

Lemma splitlines_single (line : string) :
  all_chars (fun c => negb (is_linebreak c)) line = true ->
  line <> EmptyString ->
  splitlines line = [line].
Proof. intros H Hne. apply (splitlines_from_single EmptyString); auto. Qed.

Lemma append_marker_nonempty (pre m rest : string) :
  m <> EmptyString -> pre +:+ m +:+ rest <> EmptyString.
Proof.
  intros Hm. destruct pre; [destruct m; [contradiction|]|]; discriminate.
Qed.

Lemma scan_marker_no_match (m line : string) (acc : list time) :
  re_search m line = None -> scan_marker m line acc = Ok acc.
Proof.
  intros H. unfold scan_marker. rewrite H.
  destruct (contains m line); reflexivity.
Qed.

(** C9.  The parser is not total.  On a line in which the first match
    of the [silence_start:] pattern is the marker, white space and a
    token of digits and dots that is not a valid float (such as 1.2.3),
    the pattern matches with that token as its group, and the float
    conversion raises ValueError, which the parser does not handle: the
    parse of that line raises. *)
Theorem parser_raises_on_malformed_number
  (pre ws tok rest : string) :
  re_search "silence_start:" pre = None ->
  all_chars is_space ws = true ->
  all_chars is_num_char tok = true ->
  tok <> EmptyString ->
  starts_with is_num_char rest = false ->
  float_of_token tok = None ->
  all_chars (fun c => negb (is_linebreak c))
    (pre +:+ "silence_start:" +:+ ws +:+ tok +:+ rest) = true ->
  re_search "silence_start:"
    (pre +:+ "silence_start:" +:+ ws +:+ tok +:+ rest) = Some tok /\
  parse_silence_events
    (pre +:+ "silence_start:" +:+ ws +:+ tok +:+ rest) = Raise ValueError.
Proof.
  intros Hpre Hws Htok Hne Hrest Hfloat Hline.
  set (line := pre +:+ "silence_start:" +:+ ws +:+ tok +:+ rest) in *.
  assert (Hsearch : re_search "silence_start:" line = Some tok).
  { subst line.
    rewrite re_search_before by
      solve [discriminate | reflexivity | exact Hpre].
    apply re_search_here, match_here_number; assumption. }
  split; [exact Hsearch|].
  unfold parse_silence_events.
  rewrite splitlines_single;
    [| exact Hline | apply append_marker_nonempty; discriminate].
  assert (Hin : contains "silence_start:" line = true)
    by apply contains_append.
  cbn [scan_lines scan_line]. unfold scan_marker at 1.
  rewrite Hin, Hsearch, Hfloat. reflexivity.
Qed.

(** The detector run does not catch what the parser raises. *)
Lemma detect_silence_intervals_raises
  (E : Engine) (wav_file noise : string) (duration margin : time)
  (fs : files) (e : exn) :
  parse_silence_events
    (ffmpeg_silencedetect E (noise_param noise) duration (fs !! wav_file))
  = Raise e ->
  detect_silence_intervals E wav_file noise duration margin fs
  = (Raise e, fs).
Proof.
  intros H. unfold detect_silence_intervals. rewrite H. reflexivity.
Qed.

Lemma parser_raises_on_malformed_number_witness :
  re_search "silence_start:" "[silencedetect @ 0x55d0] silence_start: 1.2.3"
  = Some "1.2.3"%string /\
  parse_silence_events "[silencedetect @ 0x55d0] silence_start: 1.2.3"
  = Raise ValueError.
Proof.
  apply (parser_raises_on_malformed_number
           "[silencedetect @ 0x55d0] " " " "1.2.3" "");
    solve [reflexivity | discriminate].
Defined.

(** C10, as amended.  On a line in which a marker is followed, after
    optional white space, by a minus sign, and in which the patterns
    match neither before that marker nor after the minus sign, the
    pattern does not match (the minus sign is neither white space nor
    in the class of digits and dots), so nothing is recorded for that
    marker: a [silence_start:] line leaves both lists as they were, and
    a [silence_end:] line leaves the list of ends as it was. *)
Theorem parser_skips_negative_number
  (pre ws rest : string) (silence_starts silence_ends : list time) :
  all_chars is_space ws = true ->
  re_search "silence_start:" pre = None ->
  re_search "silence_end:" pre = None ->
  re_search "silence_start:" rest = None ->
  re_search "silence_end:" rest = None ->
  scan_line (pre +:+ "silence_start:" +:+ ws +:+ "-" +:+ rest)
    (silence_starts, silence_ends)
  = Ok (silence_starts, silence_ends) /\
  scan_marker "silence_end:" (pre +:+ "silence_end:" +:+ ws +:+ "-" +:+ rest)
    silence_ends
  = Ok silence_ends.
Proof.
  intros Hws Hpre_s Hpre_e Hrest_s Hrest_e. split.
  - cbn [scan_line].
    rewrite (scan_marker_no_match "silence_start:")
      by (apply re_search_start_minus; assumption).
    cbn [rbind].
    rewrite (scan_marker_no_match "silence_end:")
      by (apply re_search_end_in_start_line; assumption).
    reflexivity.
  - apply scan_marker_no_match, re_search_end_minus; assumption.
Qed.

Lemma parser_skips_negative_number_witness :
  scan_line "[silencedetect @ 0x55d0] silence_start: -0.00133" ([], [])
  = Ok ([], []) /\
  scan_marker "silence_end:"
    "[silencedetect @ 0x55d0] silence_end: -0.00133" []
  = Ok [].
Proof.
  apply (parser_skips_negative_number
           "[silencedetect @ 0x55d0] " " " "0.00133" [] []);
    reflexivity.
Defined.

(** C10, as stated, fails: the line [silence_start: -0.5] is skipped;
    the value 0.5 of its unsigned tail is not recorded. *)
Lemma parser_negative_number_counterexample :
  parse_silence_events "silence_start: -0.5" = Ok ([], []) /\
  float_of_token "0.5" = Some (5 # 10) /\
  parse_silence_events "silence_start: -0.5" <> Ok ([5 # 10], []).
Proof.
  split; [reflexivity|]. split; [reflexivity|].
  intros H. discriminate H.
Qed.

(** ** Excision Planner *)

(** Scenarios B and C of the specification. *)
Example plan_scenario_B : plan 0 4 10 = [(4, 10)].
Proof. reflexivity. Qed.

Example plan_scenario_C : plan 3 6 10 = [(0, 3); (6, 10)].
Proof. reflexivity. Qed.

(** The video remover cuts both of its streams at the boundaries the
    audio remover uses. *)
Lemma plan_video_plan (s : stream) (start end_ total : time) :
  plan_video s start end_ total = plan start end_ total.
Proof.
  unfold plan_video, plan, build_filters_video, build_filters.
  destruct (Qltb 0 start), (Qltb end_ total), s; reflexivity.
Qed.

Lemma kept_plan (w : remover) (start end_ total : time) :
  kept w start end_ total = plan start end_ total.
Proof. destruct w; [reflexivity | apply plan_video_plan]. Qed.

Lemma plan_cases (start end_ total : time) :
  plan start end_ total =
  (if Qltb 0 start then [(0, start)] else []) ++
  (if Qltb end_ total then [(end_, total)] else []).
Proof.
  unfold plan, build_filters.
  destruct (Qltb 0 start), (Qltb end_ total); reflexivity.
Qed.

(** C3, as amended.  For an interval with 0 <= start <= end and a
    duration >= 0, the plan of either remover has 0, 1 or 2 kept
    segments; when the interval ends within the file (end <= duration)
    or starts at zero, the kept lengths add up to
    duration - (end - start) clamped to >= 0; when it starts after zero
    and ends beyond the duration, the plan is the head [(0, start)]
    alone, of length start. *)
Theorem plan_segments_and_length
  (w : remover) (start end_ total : time) :
  0 <= start -> start <= end_ -> 0 <= total ->
  (length (kept w start end_ total) <= 2)%nat /\
  (end_ <= total \/ start == 0 ->
   total_length (kept w start end_ total)
   == clamp0 (total - (end_ - start))) /\
  (0 < start -> total < end_ ->
   kept w start end_ total = [(0, start)] /\
   total_length (kept w start end_ total) == start).
Proof.
  intros H0 Hse Ht. rewrite kept_plan, plan_cases.
  unfold clamp0.
  destruct (Qltb 0 start) eqn:E1, (Qltb end_ total) eqn:E2,
           (Qltb (total - (end_ - start)) 0) eqn:E3;
    qltb_facts; unfold total_length, seg_length;
    cbn [app length fold_right fst snd];
    (split; [lia|]);
    (split; [intros [H|H] | intros H1 H2; split; try reflexivity]); lra.
Qed.

Lemma plan_segments_and_length_witness :
  ((length (kept VideoRemover 3 6 10) <= 2)%nat /\
   (6 <= 10 \/ 3 == 0 ->
    total_length (kept VideoRemover 3 6 10) == clamp0 (10 - (6 - 3))) /\
   (0 < 3 -> 10 < 6 ->
    kept VideoRemover 3 6 10 = [(0, 3)] /\
    total_length (kept VideoRemover 3 6 10) == 3)) /\
  ((length (kept AudioRemover 3 20 10) <= 2)%nat /\
   (20 <= 10 \/ 3 == 0 ->
    total_length (kept AudioRemover 3 20 10) == clamp0 (10 - (20 - 3))) /\
   (0 < 3 -> 10 < 20 ->
    kept AudioRemover 3 20 10 = [(0, 3)] /\
    total_length (kept AudioRemover 3 20 10) == 3)).
Proof.
  split.
  - apply (plan_segments_and_length VideoRemover 3 6 10); lra.
  - apply (plan_segments_and_length AudioRemover 3 20 10); lra.
Defined.

(** C3, as stated, fails: the interval (3, 20) in a file of duration 10
    keeps the head of length 3, while duration - (end - start) clamped
    to >= 0 is 0. *)
Lemma plan_length_counterexample :
  0 <= 3 /\ 3 <= 20 /\ 0 <= 10 /\
  plan 3 20 10 = [(0, 3)] /\
  ~ total_length (plan 3 20 10) == clamp0 (10 - (20 - 3)).
Proof.
  repeat (split; [try reflexivity; lra|]).
  vm_compute. discriminate.
Qed.

(** ** The edit step *)

Lemma tmp_path_ne (w : remover) (input : string) : tmp_path w input <> input.
Proof.
  intros H. apply (f_equal String.length) in H.
  destruct w; unfold tmp_path in H; rewrite length_append in H;
    cbn [String.length] in H; lia.
Qed.

Lemma get_audio_duration_outcome (E : Engine) (filename : string) (fs : files) :
  get_audio_duration E filename fs =
  match fs !! filename with
  | None => (Raise CalledProcessError, fs)
  | Some c =>
      match ffprobe E c with
      | ProbeFailed => (Raise CalledProcessError, fs)
      | ProbeStdout v =>
          (Ok match v with Some d => d | None => 0 end, fs)
      end
  end.
Proof.
  unfold get_audio_duration.
  destruct (fs !! filename) as [c|]; [|reflexivity].
  destruct (ffprobe E c) as [|[d|]]; reflexivity.
Qed.

(** What one edit step does, case by case. *)
Lemma edit_step_outcome
  (w : remover) (E : Engine) (input : string) (start end_ : time)
  (fs : files) :
  edit_step w E input start end_ fs =
  let tmp := tmp_path w input in
  match fs !! input with
  | None => (Raise CalledProcessError, fs)
  | Some c =>
      match ffprobe E c with
      | ProbeFailed => (Raise CalledProcessError, fs)
      | ProbeStdout v =>
          let total := match v with Some d => d | None => 0 end in
          match edit_request w start end_ total with
          | None => (Ok tt, <[input := c]> (delete tmp (<[tmp := c]> fs)))
          | Some (Raise e) => (Raise e, fs)
          | Some (Ok cmd) =>
              match ffmpeg_edit E cmd c with
              | Exit0 out =>
                  (Ok tt, <[input := out]> (delete tmp (<[tmp := out]> fs)))
              | ExitFailed (Some part) =>
                  (Raise CalledProcessError, <[tmp := part]> fs)
              | ExitFailed None => (Raise CalledProcessError, fs)
              end
          end
      end
  end.
Proof.
  cbv zeta.
  assert (Hstep : edit_step w E input start end_ fs =
    match get_audio_duration E input fs with
    | (Raise e, fs1) => (Raise e, fs1)
    | (Ok total, fs1) =>
        match edit_request w start end_ total with
        | None =>
            (shutil_copy input (tmp_path w input) ;;;
             os_replace (tmp_path w input) input) fs1
        | Some rc =>
            (cmd <- lift rc ;;
             run_ffmpeg E cmd input (tmp_path w input) ;;;
             os_replace (tmp_path w input) input) fs1
        end
    end).
  { destruct w; unfold edit_step, remove_silence_segment,
      remove_silence_segment_video, get_media_duration, edit_request,
      tmp_path, bind;
      destruct (get_audio_duration E input fs) as [[total|e] fs1];
      try reflexivity.
    - destruct (build_filters start end_ total) as [filters [|s0 segs]];
        reflexivity.
    - destruct (build_filters_video start end_ total)
        as [[filters [|v0 vsegs]] asegs]; reflexivity. }
  rewrite Hstep, get_audio_duration_outcome. clear Hstep.
  pose proof (tmp_path_ne w input) as Hne.
  destruct (fs !! input) as [c|] eqn:Hin; [|reflexivity].
  destruct (ffprobe E c) as [|v]; [reflexivity|].
  destruct (edit_request w start end_ _) as [[cmd|e]|].
  - unfold bind, lift, run_ffmpeg. rewrite Hin.
    destruct (ffmpeg_edit E cmd c) as [out|[part|]]; try reflexivity.
    unfold os_replace. rewrite lookup_insert_eq. reflexivity.
  - reflexivity.
  - unfold bind, shutil_copy, os_replace. rewrite Hin.
    rewrite lookup_insert_eq. reflexivity.
Qed.

Lemma replaced_lookup (input tmp : string) (c : content) (fs : files) :
  tmp <> input ->
  (<[input := c]> (delete tmp (<[tmp := c]> fs)) : files) !! input = Some c
  /\
  (<[input := c]> (delete tmp (<[tmp := c]> fs)) : files) !! tmp = None.
Proof.
  intros Hne. split.
  - apply lookup_insert_eq.
  - rewrite lookup_insert_ne by congruence. apply lookup_delete_eq.
Qed.

Lemma edit_request_whole_file (w : remover) (start end_ total : time) :
  start == 0 -> total <= end_ ->
  kept w start end_ total = [] /\ edit_request w start end_ total = None.
Proof.
  intros Hs He.
  assert (E1 : Qltb 0 start = false) by (apply Qltb_ge; lra).
  assert (E2 : Qltb end_ total = false) by (apply Qltb_ge; exact He).
  destruct w; unfold kept, plan, plan_video, edit_request,
    build_filters, build_filters_video; rewrite E1, E2; split; reflexivity.
Qed.

(** C6.  For an interval with start == 0 and end >= the probed total
    duration, the plan of either remover is empty, no edit request is
    built, and the step succeeds by copying the file and renaming the
    copy over it: the content under the canonical name is what it was
    before the call, and the temporary copy is gone. *)
Theorem whole_file_silence_copies_verbatim
  (w : remover) (E : Engine) (input : string) (start end_ total : time)
  (fs : files) :
  start == 0 ->
  get_audio_duration E input fs = (Ok total, fs) ->
  total <= end_ ->
  kept w start end_ total = [] /\
  edit_request w start end_ total = None /\
  exists fs' : files,
    edit_step w E input start end_ fs = (Ok tt, fs') /\
    fs' !! input = fs !! input /\
    fs' !! tmp_path w input = None.
Proof.
  intros Hs Hdur He.
  destruct (edit_request_whole_file w start end_ total Hs He) as [Hk Hr].
  split; [exact Hk|]. split; [exact Hr|].
  rewrite edit_step_outcome. cbv zeta.
  rewrite get_audio_duration_outcome in Hdur.
  destruct (fs !! input) as [c|] eqn:Hin; [|discriminate].
  destruct (ffprobe E c) as [|v]; [discriminate|].
  injection Hdur as ->. rewrite Hr.
  eexists. split; [reflexivity|].
  apply replaced_lookup, tmp_path_ne.
Qed.

Lemma whole_file_silence_copies_verbatim_witness :
  kept AudioRemover 0 12 10 = [] /\
  edit_request AudioRemover 0 12 10 = None /\
  exists fs' : files,
    edit_step AudioRemover sample_engine "talk.wav" 0 12 sample_files
    = (Ok tt, fs') /\
    fs' !! "talk.wav"%string = sample_files !! "talk.wav"%string /\
    fs' !! tmp_path AudioRemover "talk.wav" = None.
Proof.
  apply (whole_file_silence_copies_verbatim
           AudioRemover sample_engine "talk.wav" 0 12 10 sample_files).
  - reflexivity.
  - unfold get_audio_duration, sample_files.
    rewrite lookup_singleton_eq. reflexivity.
  - lra.
Defined.

(** C7.  In an edit step of either remover, whatever the engine does:
    - if the engine run on the request exits with success, the step
      returns, the content under the canonical name is the artifact of
      that run, and the temporary path is gone;
    - if the step raises, the content under the canonical name is what
      it was before the call;
    - if that content has changed, the step has succeeded, the engine
      run on the request built for the probed duration has exited with
      success, the new content is the complete artifact of that run, and
      the temporary path is gone (the artifact was written there and
      renamed over the original in one step);
    - if the engine run on the request fails, the step raises
      CalledProcessError and the content under the canonical name is
      unchanged. *)
Theorem edit_step_replaces_after_success
  (w : remover) (E : Engine) (input : string) (start end_ : time)
  (fs fs' : files) (r : result unit) :
  edit_step w E input start end_ fs = (r, fs') ->
  (forall (c : content) (total : time) (cmd : command) (out : content),
     fs !! input = Some c ->
     get_audio_duration E input fs = (Ok total, fs) ->
     edit_request w start end_ total = Some (Ok cmd) ->
     ffmpeg_edit E cmd c = Exit0 out ->
     r = Ok tt /\
     fs' !! input = Some out /\
     fs' !! tmp_path w input = None) /\
  (forall e : exn, r = Raise e -> fs' !! input = fs !! input) /\
  (fs' !! input <> fs !! input ->
   r = Ok tt /\
   exists (c : content) (total : time) (cmd : command) (out : content),
     fs !! input = Some c /\
     get_audio_duration E input fs = (Ok total, fs) /\
     edit_request w start end_ total = Some (Ok cmd) /\
     ffmpeg_edit E cmd c = Exit0 out /\
     fs' !! input = Some out /\
     fs' !! tmp_path w input = None) /\
  (forall (c : content) (total : time) (cmd : command)
          (left : option content),
     fs !! input = Some c ->
     get_audio_duration E input fs = (Ok total, fs) ->
     edit_request w start end_ total = Some (Ok cmd) ->
     ffmpeg_edit E cmd c = ExitFailed left ->
     r = Raise CalledProcessError /\ fs' !! input = Some c).
Proof.
  intros Hstep.
  assert (Hsuccess :
            forall (c : content) (total : time) (cmd : command)
                   (out : content),
              fs !! input = Some c ->
              get_audio_duration E input fs = (Ok total, fs) ->
              edit_request w start end_ total = Some (Ok cmd) ->
              ffmpeg_edit E cmd c = Exit0 out ->
              r = Ok tt /\
              fs' !! input = Some out /\
              fs' !! tmp_path w input = None).
  { intros c total cmd out Hin Hd Hreq Hrun.
    rewrite edit_step_outcome in Hstep. cbv zeta in Hstep.
    rewrite get_audio_duration_outcome in Hd.
    rewrite Hin in Hstep, Hd.
    destruct (ffprobe E c) as [|v]; [discriminate Hd|].
    injection Hd as Hd. rewrite Hd, Hreq, Hrun in Hstep.
    injection Hstep as <- <-.
    destruct (replaced_lookup input (tmp_path w input) out fs
                (tmp_path_ne w input)) as [Hnew Htmp].
    auto. }
  split; [exact Hsuccess|]. clear Hsuccess. revert Hstep.
  intros Hstep. rewrite edit_step_outcome in Hstep. cbv zeta in Hstep.
  pose proof (tmp_path_ne w input) as Hne.
  pose proof (get_audio_duration_outcome E input fs) as Hdur.
  destruct (fs !! input) as [c|] eqn:Hin.
  2:{ injection Hstep as <- <-. rewrite Hin.
      repeat split; try congruence; intros; discriminate. }
  destruct (ffprobe E c) as [|v] eqn:Hprobe.
  { injection Hstep as <- <-. rewrite Hin.
    repeat split; congruence. }
  set (total := match v with Some d => d | None => 0 end) in *.
  destruct (edit_request w start end_ total) as [[cmd|e]|] eqn:Hreq.
  - destruct (ffmpeg_edit E cmd c) as [out|[part|]] eqn:Hrun;
      injection Hstep as <- <-.
    + destruct (replaced_lookup input (tmp_path w input) out fs Hne)
        as [Hnew Htmp].
      split; [intros e; discriminate|]. split.
      * intros _. split; [reflexivity|].
        exists c, total, cmd, out. repeat split; auto.
      * intros c0 total0 cmd0 left [= <-] Hd Hreq0 Hrun0.
        rewrite Hdur in Hd. injection Hd as <-.
        rewrite Hreq in Hreq0. injection Hreq0 as <-. congruence.
    + rewrite lookup_insert_ne by exact Hne. rewrite ?Hin.
      split; [reflexivity|]. split; [congruence|].
      intros; split; congruence.
    + rewrite ?Hin.
      split; [reflexivity|]. split; [congruence|].
      intros; split; congruence.
  - injection Hstep as <- <-. rewrite ?Hin.
    split; [reflexivity|]. split; [congruence|].
    intros c0 total0 cmd0 left _ Hd Hreq0 _.
    rewrite Hdur in Hd. injection Hd as <-. congruence.
  - injection Hstep as <- <-.
    destruct (replaced_lookup input (tmp_path w input) c fs Hne)
      as [Hnew _].
    rewrite Hnew, ?Hin.
    split; [reflexivity|]. split; [congruence|].
    intros c0 total0 cmd0 left _ Hd Hreq0 _.
    rewrite Hdur in Hd. injection Hd as <-. congruence.
Qed.

Lemma edit_step_replaces_after_success_witness :
  ((forall (c : content) (total : time) (cmd : command) (out : content),
      sample_files !! "talk.wav"%string = Some c ->
      get_audio_duration editing_engine "talk.wav" sample_files
      = (Ok total, sample_files) ->
      edit_request AudioRemover 3 6 total = Some (Ok cmd) ->
      ffmpeg_edit editing_engine cmd c = Exit0 out ->
      Ok tt = Ok tt /\
      sample_files_edited !! "talk.wav"%string = Some out /\
      sample_files_edited !! tmp_path AudioRemover "talk.wav" = None) /\
   (forall e : exn, Ok tt = Raise e ->
      sample_files_edited !! "talk.wav"%string
      = sample_files !! "talk.wav"%string) /\
   (sample_files_edited !! "talk.wav"%string
    <> sample_files !! "talk.wav"%string ->
    Ok tt = Ok tt /\
    exists (c : content) (total : time) (cmd : command) (out : content),
      sample_files !! "talk.wav"%string = Some c /\
      get_audio_duration editing_engine "talk.wav" sample_files
      = (Ok total, sample_files) /\
      edit_request AudioRemover 3 6 total = Some (Ok cmd) /\
      ffmpeg_edit editing_engine cmd c = Exit0 out /\
      sample_files_edited !! "talk.wav"%string = Some out /\
      sample_files_edited !! tmp_path AudioRemover "talk.wav" = None) /\
   (forall (c : content) (total : time) (cmd : command)
           (left : option content),
      sample_files !! "talk.wav"%string = Some c ->
      get_audio_duration editing_engine "talk.wav" sample_files
      = (Ok total, sample_files) ->
      edit_request AudioRemover 3 6 total = Some (Ok cmd) ->
      ffmpeg_edit editing_engine cmd c = ExitFailed left ->
      Ok tt = Raise CalledProcessError /\
      sample_files_edited !! "talk.wav"%string = Some c)) /\
  ((forall (c : content) (total : time) (cmd : command) (out : content),
      sample_files !! "talk.wav"%string = Some c ->
      get_audio_duration failing_engine "talk.wav" sample_files
      = (Ok total, sample_files) ->
      edit_request AudioRemover 3 6 total = Some (Ok cmd) ->
      ffmpeg_edit failing_engine cmd c = Exit0 out ->
      @Raise unit CalledProcessError = Ok tt /\
      sample_files_failed !! "talk.wav"%string = Some out /\
      sample_files_failed !! tmp_path AudioRemover "talk.wav" = None) /\
   (forall e : exn, @Raise unit CalledProcessError = Raise e ->
      sample_files_failed !! "talk.wav"%string
      = sample_files !! "talk.wav"%string) /\
   (sample_files_failed !! "talk.wav"%string
    <> sample_files !! "talk.wav"%string ->
    @Raise unit CalledProcessError = Ok tt /\
    exists (c : content) (total : time) (cmd : command) (out : content),
      sample_files !! "talk.wav"%string = Some c /\
      get_audio_duration failing_engine "talk.wav" sample_files
      = (Ok total, sample_files) /\
      edit_request AudioRemover 3 6 total = Some (Ok cmd) /\
      ffmpeg_edit failing_engine cmd c = Exit0 out /\
      sample_files_failed !! "talk.wav"%string = Some out /\
      sample_files_failed !! tmp_path AudioRemover "talk.wav" = None) /\
   (forall (c : content) (total : time) (cmd : command)
           (left : option content),
      sample_files !! "talk.wav"%string = Some c ->
      get_audio_duration failing_engine "talk.wav" sample_files
      = (Ok total, sample_files) ->
      edit_request AudioRemover 3 6 total = Some (Ok cmd) ->
      ffmpeg_edit failing_engine cmd c = ExitFailed left ->
      @Raise unit CalledProcessError = Raise CalledProcessError /\
      sample_files_failed !! "talk.wav"%string = Some c)).
Proof.
  split.
  - apply (edit_step_replaces_after_success
             AudioRemover editing_engine "talk.wav" 3 6
             sample_files sample_files_edited (Ok tt)).
    vm_compute. reflexivity.
  - apply (edit_step_replaces_after_success
             AudioRemover failing_engine "talk.wav" 3 6
             sample_files sample_files_failed (Raise CalledProcessError)).
    vm_compute. reflexivity.
Defined.

(** ** Path names *)

Example splitext_examples :
  splitext "movie.mkv" = ("movie", ".mkv")%string /\
  splitext "dir.d/movie" = ("dir.d/movie", "")%string /\
  splitext ".bashrc" = (".bashrc", "")%string /\
  splitext "a/..b.c" = ("a/..b", ".c")%string /\
  splitext "..." = ("...", "")%string /\
  splitext "a.tar.gz" = ("a.tar", ".gz")%string /\
  splitext "a." = ("a", ".")%string.
Proof. repeat split; reflexivity. Qed.

Lemma take_drop_chars (n : nat) (s : string) :
  take_chars n s +:+ drop_chars n s = s.
Proof.
  revert s. induction n as [|n IH]; intros [|c t]; try reflexivity.
  cbn [take_chars drop_chars]. rewrite append_cons, IH. reflexivity.
Qed.

Lemma take_chars_append (u v : string) :
  take_chars (String.length u) (u +:+ v) = u.
Proof.
  induction u as [|c u IH]; [destruct v; reflexivity|].
  rewrite append_cons. cbn [String.length take_chars]. rewrite IH.
  reflexivity.
Qed.

Lemma rfind_ge (P : ascii -> bool) (p : string) : (-1 <= rfind P p)%Z.
Proof.
  induction p as [|a t IH]; cbn [rfind]; [lia|].
  destruct (Z.leb_spec 0 (rfind P t)); [lia|]. destruct (P a); lia.
Qed.

Lemma rfind_lt_length (P : ascii -> bool) (p : string) :
  (rfind P p < Z.of_nat (String.length p))%Z.
Proof.
  induction p as [|a t IH]; cbn [rfind String.length]; [lia|].
  destruct (Z.leb_spec 0 (rfind P t)); [lia|]. destruct (P a); lia.
Qed.

(** Without an index, no character satisfies [P]. *)
Lemma rfind_none (P : ascii -> bool) (p : string) :
  (rfind P p < 0)%Z -> all_chars (fun c => negb (P c)) p = true.
Proof.
  induction p as [|a t IH]; cbn [rfind all_chars]; [reflexivity|].
  destruct (Z.leb_spec 0 (rfind P t)); [lia|].
  destruct (P a); [lia|]. intros _. apply IH. lia.
Qed.

Lemma rfind_free (P : ascii -> bool) (p : string) :
  all_chars (fun c => negb (P c)) p = true -> rfind P p = (-1)%Z.
Proof.
  induction p as [|a t IH]; cbn [rfind all_chars]; [reflexivity|].
  intros H. apply andb_true_iff in H as [Ha Ht].
  rewrite (IH Ht). apply negb_true_iff in Ha. rewrite Ha. reflexivity.
Qed.

(** At the index found stands a character that satisfies [P], and none
    follows it. *)
Lemma rfind_drop (P : ascii -> bool) (p : string) :
  (0 <= rfind P p)%Z ->
  exists (c : ascii) (t : string),
    drop_chars (Z.to_nat (rfind P p)) p = String c t /\
    P c = true /\
    all_chars (fun c => negb (P c)) t = true.
Proof.
  induction p as [|a t IH]; cbn [rfind]; [lia|].
  destruct (Z.leb_spec 0 (rfind P t)) as [Hr|Hr].
  - intros _. destruct (IH Hr) as (c & t' & Hd & Hc & Ht').
    exists c, t'. split; [|split; assumption].
    replace (Z.to_nat (rfind P t + 1)) with (S (Z.to_nat (rfind P t)))
      by lia.
    exact Hd.
  - destruct (P a) eqn:Ha; [|lia]. intros _.
    exists a, t. split; [reflexivity|]. split; [exact Ha|].
    apply rfind_none, Hr.
Qed.

(** From an index beyond the one found on, no character satisfies [P]. *)
Lemma rfind_lt_drop (P : ascii -> bool) (p : string) (d : nat) :
  (rfind P p < Z.of_nat d)%Z ->
  all_chars (fun c => negb (P c)) (drop_chars d p) = true.
Proof.
  revert d. induction p as [|a t IH]; intros d Hd.
  - destruct d; reflexivity.
  - destruct d as [|d].
    + apply rfind_none. exact Hd.
    + cbn [drop_chars]. apply IH. cbn [rfind] in Hd.
      destruct (Z.leb_spec 0 (rfind P t)); lia.
Qed.

Lemma rfind_append_free (P : ascii -> bool) (p u : string) :
  all_chars (fun c => negb (P c)) u = true ->
  rfind P (p +:+ u) = rfind P p.
Proof.
  intros Hu. induction p as [|a t IH].
  - rewrite append_empty. apply rfind_free, Hu.
  - rewrite append_cons. cbn [rfind]. rewrite IH. reflexivity.
Qed.

Lemma rfind_append_last (P : ascii -> bool) (p : string) (c : ascii)
  (t : string) :
  P c = true ->
  all_chars (fun c => negb (P c)) t = true ->
  rfind P (p +:+ String c t) = Z.of_nat (String.length p).
Proof.
  intros Hc Ht. induction p as [|a p IH].
  - rewrite append_empty. cbn [rfind]. rewrite (rfind_free P t Ht), Hc.
    reflexivity.
  - rewrite append_cons. cbn [rfind String.length]. rewrite IH.
    destruct (Z.leb_spec 0 (Z.of_nat (String.length p))); lia.
Qed.

Lemma append_empty_r (s : string) : s +:+ EmptyString = s.
Proof.
  induction s as [|c s IH]; [reflexivity|].
  rewrite append_cons, IH. reflexivity.
Qed.

Lemma length_take_chars (n : nat) (s : string) :
  (n <= String.length s)%nat -> String.length (take_chars n s) = n.
Proof.
  revert s. induction n as [|n IH]; intros [|c t] Hn;
    cbn [String.length take_chars] in *; try reflexivity; [lia|].
  rewrite IH by lia. reflexivity.
Qed.

Lemma is_dot_eq (c : ascii) : is_dot c = true -> c = "."%char.
Proof.
  destruct c as [[] [] [] [] [] [] [] []]; intros H;
    solve [reflexivity | discriminate H].
Qed.

Lemma get_append_left (j : nat) (u v : string) :
  (j < String.length u)%nat -> String.get j (u +:+ v) = String.get j u.
Proof.
  revert j. induction u as [|c u IH]; intros j Hj;
    cbn [String.length] in Hj; [lia|].
  rewrite append_cons. destruct j as [|j]; [reflexivity|].
  cbn [String.get]. apply IH. lia.
Qed.

(** The loop looks at the indices from [i] on only, [n] of them. *)
Lemma skip_leading_dots_agree (p q : string) (i : Z) (n : nat) :
  (0 <= i)%Z ->
  (forall j : nat, (Z.to_nat i <= j < Z.to_nat i + n)%nat ->
     String.get j p = String.get j q) ->
  skip_leading_dots p i n = skip_leading_dots q i n.
Proof.
  revert i. induction n as [|n IH]; intros i Hi Hagree; [reflexivity|].
  cbn [skip_leading_dots]. rewrite (Hagree (Z.to_nat i)) by lia.
  destruct (String.get (Z.to_nat i) q) as [c|]; [|reflexivity].
  destruct (is_dot c); [|reflexivity].
  apply IH; [lia|]. intros j Hj. apply Hagree. lia.
Qed.

(** A loop that returns the split still does so when it may run
    longer. *)
Lemma skip_leading_dots_more (p : string) (i : Z) (n k : nat) :
  skip_leading_dots p i n = true -> skip_leading_dots p i (n + k) = true.
Proof.
  revert i. induction n as [|n IH]; intros i H; [discriminate H|].
  cbn [skip_leading_dots Nat.add] in H |- *.
  destruct (String.get (Z.to_nat i) p) as [c|]; [|reflexivity].
  destruct (is_dot c); [|reflexivity]. apply IH, H.
Qed.

(** The two results of [splitext] join to the path. *)
Lemma splitext_join (p base ext : string) :
  splitext p = (base, ext) -> base +:+ ext = p.
Proof.
  unfold splitext.
  destruct (rfind is_sep p <? rfind is_dot p)%Z;
    [destruct (skip_leading_dots _ _ _)|];
    intros [= <- <-];
    solve [apply take_drop_chars | apply append_empty_r].
Qed.

(** The extension is empty, or it is a dot followed by characters
    among which there is neither a dot nor a separator. *)
Lemma splitext_extension (p base ext : string) :
  splitext p = (base, ext) ->
  ext = EmptyString \/
  exists t : string,
    ext = String "." t /\
    all_chars (fun c => negb (is_dot c)) t = true /\
    all_chars (fun c => negb (is_sep c)) ext = true.
Proof.
  unfold splitext.
  destruct (Z.ltb_spec (rfind is_sep p) (rfind is_dot p)) as [Hlt|Hge];
    [destruct (skip_leading_dots _ _ _)|];
    intros [= <- <-]; [right | left; reflexivity | left; reflexivity].
  pose proof (rfind_ge is_sep p) as Hsep.
  destruct (rfind_drop is_dot p) as (c & t & Hd & Hc & Ht); [lia|].
  exists t. rewrite Hd. apply is_dot_eq in Hc as ->.
  split; [reflexivity|]. split; [exact Ht|].
  rewrite <- Hd. apply rfind_lt_drop. lia.
Qed.

(** ** Default output names *)

Lemma append_inv_head (u v w : string) : u +:+ v = u +:+ w -> v = w.
Proof.
  induction u as [|c u IH]; [exact (fun H => H)|].
  rewrite !append_cons. intros [= H]. exact (IH H).
Qed.

Lemma insert_suffix_differs (base suffix ext : string) :
  suffix <> EmptyString -> base +:+ suffix +:+ ext <> base +:+ ext.
Proof.
  intros Hne H. apply append_inv_head in H.
  apply (f_equal String.length) in H. rewrite length_append in H.
  destruct suffix; [contradiction|]. cbn [String.length] in H. lia.
Qed.

(** X1.  The default output name is never the input name: for every
    input path, [get_default_output_filename] with a suffix that is not
    empty, [generate_output_filename], the default segment name of
    trim_video.py and the default MP3 name of extract_audio_mp3.py all
    differ from the input path. *)
Theorem default_output_name_differs (input_file : string) :
  (forall suffix : string,
     suffix <> EmptyString ->
     get_default_output_filename input_file suffix <> input_file) /\
  generate_output_filename input_file <> input_file /\
  default_segment_filename input_file <> input_file /\
  default_extracted_filename input_file <> input_file.
Proof.
  unfold get_default_output_filename, generate_output_filename,
    default_segment_filename, default_extracted_filename.
  destruct (splitext input_file) as [base ext] eqn:Hsplit.
  pose proof (splitext_join _ _ _ Hsplit) as Hjoin.
  rewrite <- Hjoin.
  split; [|split; [|split]];
    try (intros; apply insert_suffix_differs; solve [assumption|discriminate]).
  intros H. apply append_inv_head in H.
  destruct (splitext_extension _ _ _ Hsplit) as [->|(t & -> & _)];
    discriminate H.
Qed.

(** Inserting a suffix without dot and separator before the extension
    gives a path that splits at the same place. *)
Lemma splitext_insert_suffix (input_file suffix base ext : string) :
  splitext input_file = (base, ext) ->
  all_chars (fun c => negb (is_dot c)) suffix = true ->
  all_chars (fun c => negb (is_sep c)) suffix = true ->
  splitext (base +:+ suffix +:+ ext) = (base +:+ suffix, ext).
Proof.
  intros Hsplit Hdot Hsep.
  pose proof (splitext_join _ _ _ Hsplit) as Hjoin.
  pose proof (rfind_ge is_sep input_file) as Hsep_ge.
  pose proof (rfind_lt_length is_dot input_file) as Hdot_lt.
  revert Hsplit. unfold splitext at 1.
  destruct (Z.ltb_spec (rfind is_sep input_file) (rfind is_dot input_file))
    as [Hlt|Hge];
    [destruct (skip_leading_dots _ _ _) eqn:Hloop|]; intros [= Hb He].
  - (* the input has an extension *)
    destruct (rfind_drop is_dot input_file) as (c & t & Hd & Hc & Ht); [lia|].
    rewrite He in Hd.
    assert (Hext_sep : all_chars (fun c => negb (is_sep c)) ext = true).
    { rewrite <- He. apply rfind_lt_drop. lia. }
    assert (Hlen : String.length base = Z.to_nat (rfind is_dot input_file)).
    { rewrite <- Hb. apply length_take_chars. lia. }
    assert (Hsep_base : rfind is_sep base = rfind is_sep input_file).
    { rewrite <- Hjoin. symmetry. apply rfind_append_free, Hext_sep. }
    unfold splitext. rewrite <- append_assoc.
    rewrite (rfind_append_free is_sep (base +:+ suffix) ext Hext_sep).
    rewrite (rfind_append_free is_sep base suffix Hsep), Hsep_base.
    rewrite Hd, (rfind_append_last is_dot _ c t Hc Ht).
    rewrite length_append.
    destruct (Z.ltb_spec (rfind is_sep input_file)
                (Z.of_nat (String.length base + String.length suffix)))
      as [_|Hbad]; [|lia].
    replace (Z.to_nat (Z.of_nat (String.length base + String.length suffix)
                       - (rfind is_sep input_file + 1)))
      with (Z.to_nat (rfind is_dot input_file
                      - (rfind is_sep input_file + 1))
            + String.length suffix)%nat by lia.
    rewrite skip_leading_dots_more.
    + rewrite Nat2Z.id, <- length_append, <- Hd.
      rewrite take_chars_append, drop_chars_append. reflexivity.
    + rewrite <- Hloop. apply skip_leading_dots_agree; [lia|].
      intros j Hj. rewrite <- Hjoin, <- Hd.
      rewrite !get_append_left; try reflexivity;
        rewrite ?length_append; lia.
  - (* only leading dots before the last dot *)
    subst base ext. rewrite append_empty_r. unfold splitext.
    rewrite !(rfind_append_free _ input_file suffix) by assumption.
    destruct (Z.ltb_spec (rfind is_sep input_file) (rfind is_dot input_file))
      as [_|Hbad]; [|lia].
    rewrite <- (skip_leading_dots_agree input_file), Hloop; [reflexivity|lia|].
    intros j Hj. rewrite get_append_left; [reflexivity|lia].
  - (* no dot after the last separator *)
    subst base ext. rewrite append_empty_r. unfold splitext.
    rewrite !(rfind_append_free _ input_file suffix) by assumption.
    destruct (Z.ltb_spec (rfind is_sep input_file) (rfind is_dot input_file))
      as [Hbad|_]; [lia|reflexivity].
Qed.


(** X2.  The default output name keeps directory and extension: when
    the input path splits into (base, ext) and the suffix holds neither
    a dot nor a separator, the name [base + suffix + ext] splits into
    (base + suffix, ext). *)
Theorem default_output_name_keeps_extension
  (input_file suffix base ext : string) :
  splitext input_file = (base, ext) ->
  all_chars (fun c => negb (is_dot c)) suffix = true ->
  all_chars (fun c => negb (is_sep c)) suffix = true ->
  get_default_output_filename input_file suffix = base +:+ suffix +:+ ext /\
  splitext (base +:+ suffix +:+ ext) = (base +:+ suffix, ext).
Proof.
  intros Hsplit Hdot Hsep. split.
  - unfold get_default_output_filename. rewrite Hsplit. reflexivity.
  - apply (splitext_insert_suffix input_file); assumption.
Qed.

Lemma default_output_name_keeps_extension_witness :
  get_default_output_filename "clips/take.1.mov" "_speedup"
  = ("clips/take.1" +:+ "_speedup" +:+ ".mov")%string /\
  splitext ("clips/take.1" +:+ "_speedup" +:+ ".mov")
  = (("clips/take.1" +:+ "_speedup")%string, ".mov"%string).
Proof.
  apply (default_output_name_keeps_extension
           "clips/take.1.mov" "_speedup" "clips/take.1" ".mov");
    reflexivity.
Defined.

Lemma basename_no_sep (p : string) :
  all_chars (fun c => negb (is_sep c)) (basename p) = true.
Proof.
  unfold basename. pose proof (rfind_ge is_sep p).
  apply rfind_lt_drop. lia.
Qed.

(** X3.  The default output name of the merger, for the inputs
    [first :: others]: it holds no separator (the output goes to the
    current directory); with a single input it is the base name of that
    input itself; with more inputs it differs from that base name and
    keeps its extension, with [_merged] before it. *)
Theorem default_merged_filename_cases
  (first : string) (others : list string) (base ext : string) :
  splitext (basename first) = (base, ext) ->
  exists out : string,
    default_merged_filename (first :: others) = Ok out /\
    all_chars (fun c => negb (is_sep c)) out = true /\
    (others = [] -> out = basename first) /\
    (others <> [] ->
     out <> basename first /\ splitext out = (base +:+ "_merged", ext)).
Proof.
  intros Hsplit. unfold default_merged_filename. rewrite Hsplit.
  pose proof (splitext_join _ _ _ Hsplit) as Hjoin.
  pose proof (basename_no_sep first) as Hsep.
  rewrite <- Hjoin, all_chars_append in Hsep.
  apply andb_true_iff in Hsep as [Hsep_base Hsep_ext].
  eexists. split; [reflexivity|].
  destruct others as [|second others]; cbn [length Nat.ltb Nat.leb].
  - rewrite append_empty. split; [|split; [intros _|intros H; contradiction]].
    + rewrite all_chars_append, Hsep_base, Hsep_ext. reflexivity.
    + exact Hjoin.
  - split; [|split; [intros H; discriminate H|intros _; split]].
    + rewrite !all_chars_append, Hsep_base, Hsep_ext. reflexivity.
    + rewrite <- Hjoin. apply insert_suffix_differs. discriminate.
    + apply (splitext_insert_suffix (basename first));
        solve [exact Hsplit | reflexivity].
Qed.

Lemma default_merged_filename_cases_witness :
  exists out : string,
    default_merged_filename ["in/a.mov"; "b.mp4"]%string = Ok out /\
    all_chars (fun c => negb (is_sep c)) out = true /\
    (["b.mp4"%string] = [] -> out = basename "in/a.mov") /\
    (["b.mp4"%string] <> [] ->
     out <> basename "in/a.mov" /\
     splitext out = (("a" +:+ "_merged")%string, ".mov"%string)).
Proof.
  apply (default_merged_filename_cases "in/a.mov" ["b.mp4"%string] "a" ".mov").
  reflexivity.
Defined.

(** ** The executor *)

Lemma edit_step_frame
  (w : remover) (E : Engine) (input : string) (start end_ : time)
  (fs fs' : files) (r : result unit) (q : string) :
  edit_step w E input start end_ fs = (r, fs') ->
  q <> input -> q <> tmp_path w input ->
  fs' !! q = fs !! q.
Proof.
  intros Hstep Hq Hqt. rewrite edit_step_outcome in Hstep.
  cbv zeta in Hstep.
  destruct (fs !! input) as [c|]; [|injection Hstep as <- <-; reflexivity].
  destruct (ffprobe E c) as [|v]; [injection Hstep as <- <-; reflexivity|].
  destruct (edit_request w start end_ _) as [[cmd|e]|].
  - destruct (ffmpeg_edit E cmd c) as [out|[part|]];
      injection Hstep as <- <-; try reflexivity.
    + rewrite lookup_insert_ne, lookup_delete_ne, lookup_insert_ne;
        congruence.
    + rewrite lookup_insert_ne; congruence.
  - injection Hstep as <- <-. reflexivity.
  - injection Hstep as <- <-.
    rewrite lookup_insert_ne, lookup_delete_ne, lookup_insert_ne;
      congruence.
Qed.

Lemma edit_step_ok
  (w : remover) (E : Engine) (input : string) (start end_ : time)
  (fs fs' : files) (u : unit) :
  edit_step w E input start end_ fs = (Ok u, fs') ->
  is_Some (fs' !! input) /\ fs' !! tmp_path w input = None.
Proof.
  intros Hstep. rewrite edit_step_outcome in Hstep. cbv zeta in Hstep.
  pose proof (tmp_path_ne w input) as Hne.
  destruct (fs !! input) as [c|]; [|discriminate Hstep].
  destruct (ffprobe E c) as [|v]; [discriminate Hstep|].
  destruct (edit_request w start end_ _) as [[cmd|e]|];
    [destruct (ffmpeg_edit E cmd c) as [out|[part|]]| |];
    try discriminate Hstep; injection Hstep as _ <-;
    (split; [rewrite lookup_insert_eq; eexists; reflexivity|]);
    rewrite lookup_insert_ne by congruence; apply lookup_delete_eq.
Qed.

Lemma edit_step_raise
  (w : remover) (E : Engine) (input : string) (start end_ : time)
  (fs fs' : files) (e : exn) :
  edit_step w E input start end_ fs = (Raise e, fs') ->
  fs' !! input = fs !! input.
Proof.
  intros Hstep. rewrite edit_step_outcome in Hstep. cbv zeta in Hstep.
  pose proof (tmp_path_ne w input) as Hne.
  destruct (fs !! input) as [c|] eqn:Hin;
    [|injection Hstep as _ <-; exact Hin].
  destruct (ffprobe E c) as [|v];
    [injection Hstep as _ <-; exact Hin|].
  destruct (edit_request w start end_ _) as [[cmd|e1]|];
    [destruct (ffmpeg_edit E cmd c) as [out|[part|]]| |];
    try discriminate Hstep; injection Hstep as _ <-;
    rewrite ?lookup_insert_ne by exact Hne; exact Hin.
Qed.

(** The loop never touches a path other than the working file and its
    temporary output, whether it returns or raises. *)
Lemma remove_all_frame
  (w : remover) (E : Engine) (working : string) (intervals : list interval)
  (fs fs' : files) (r : result unit) (q : string) :
  remove_all w E working intervals fs = (r, fs') ->
  q <> working -> q <> tmp_path w working ->
  fs' !! q = fs !! q.
Proof.
  intros Hrun Hq Hqt. revert fs Hrun.
  induction intervals as [|[start end_] rest IH]; intros fs Hrun.
  - injection Hrun as _ <-. reflexivity.
  - cbn [remove_all] in Hrun. unfold bind in Hrun.
    destruct (edit_step w E working start end_ fs) as [[u|e] fs1] eqn:Hstep.
    + rewrite (IH fs1 Hrun).
      exact (edit_step_frame _ _ _ _ _ _ _ _ _ Hstep Hq Hqt).
    + injection Hrun as _ <-.
      exact (edit_step_frame _ _ _ _ _ _ _ _ _ Hstep Hq Hqt).
Qed.

(** X4.  When the loop raises, it has stopped at the first step that
    raised: the intervals before it were all applied, the ones after it
    were not looked at, and the working file holds what the last
    successful step left there (no rollback, and nothing partial under
    the canonical name). *)
Theorem remove_all_stops_at_first_failure
  (w : remover) (E : Engine) (working : string) (intervals : list interval)
  (fs fs' : files) (e : exn) :
  remove_all w E working intervals fs = (Raise e, fs') ->
  exists (applied : list interval) (start end_ : time)
         (skipped : list interval) (fs1 : files),
    intervals = applied ++ (start, end_) :: skipped /\
    remove_all w E working applied fs = (Ok tt, fs1) /\
    edit_step w E working start end_ fs1 = (Raise e, fs') /\
    fs' !! working = fs1 !! working.
Proof.
  revert fs. induction intervals as [|[start end_] rest IH]; intros fs Hrun.
  - discriminate Hrun.
  - cbn [remove_all] in Hrun. unfold bind in Hrun.
    destruct (edit_step w E working start end_ fs) as [[[]|e1] fs1] eqn:Hstep.
    + destruct (IH fs1 Hrun)
        as (applied & s & e' & skipped & fs2 & -> & Happ & Hfail & Hsame).
      exists ((start, end_) :: applied), s, e', skipped, fs2.
      split; [reflexivity|]. split; [|split; assumption].
      cbn [remove_all]. unfold bind. rewrite Hstep. exact Happ.
    + injection Hrun as <- <-.
      exists [], start, end_, rest, fs.
      split; [reflexivity|]. split; [reflexivity|]. split; [exact Hstep|].
      exact (edit_step_raise _ _ _ _ _ _ _ _ Hstep).
Qed.

Lemma remove_all_stops_at_first_failure_witness :
  exists (applied : list interval) (start end_ : time)
         (skipped : list interval) (fs1 : files),
    [(3, 6); (1, 2)] = applied ++ (start, end_) :: skipped /\
    remove_all AudioRemover failing_engine "talk.wav" applied sample_files
    = (Ok tt, fs1) /\
    edit_step AudioRemover failing_engine "talk.wav" start end_ fs1
    = (Raise CalledProcessError, sample_files_failed) /\
    sample_files_failed !! "talk.wav"%string = fs1 !! "talk.wav"%string.
Proof.
  apply (remove_all_stops_at_first_failure AudioRemover failing_engine
           "talk.wav" [(3, 6); (1, 2)] sample_files sample_files_failed
           CalledProcessError).
  vm_compute. reflexivity.
Defined.

Lemma remove_all_success_cases
  (w : remover) (E : Engine) (working : string) (intervals : list interval)
  (fs fs' : files) :
  remove_all w E working intervals fs = (Ok tt, fs') ->
  (intervals = [] /\ fs' = fs) \/
  (intervals <> [] /\
   is_Some (fs' !! working) /\ fs' !! tmp_path w working = None).
Proof.
  revert fs. induction intervals as [|[start end_] rest IH]; intros fs Hrun.
  - left. injection Hrun as <-. split; reflexivity.
  - right. split; [discriminate|].
    cbn [remove_all] in Hrun. unfold bind in Hrun.
    destruct (edit_step w E working start end_ fs) as [[u|e1] fs1] eqn:Hstep;
      [|discriminate Hrun].
    destruct (IH fs1 Hrun) as [[-> ->]|(_ & Hw & Ht)].
    + exact (edit_step_ok _ _ _ _ _ _ _ _ Hstep).
    + split; assumption.
Qed.


(** X5.  When the loop returns, either there was no interval and the
    file system is untouched, or the working file exists and its
    temporary output path is free again. *)
Theorem remove_all_success
  (w : remover) (E : Engine) (working : string) (intervals : list interval)
  (fs fs' : files) :
  remove_all w E working intervals fs = (Ok tt, fs') ->
  (intervals = [] /\ fs' = fs) \/
  (intervals <> [] /\
   is_Some (fs' !! working) /\ fs' !! tmp_path w working = None).
Proof. apply remove_all_success_cases. Qed.

Lemma remove_all_success_witness :
  ([(3, 6); (1, 2)] = [] /\ sample_files = sample_files) \/
  (([(3, 6); (1, 2)] : list interval) <> [] /\
   is_Some (sample_files !! "talk.wav"%string) /\
   sample_files !! tmp_path AudioRemover "talk.wav" = None).
Proof.
  apply (remove_all_success AudioRemover sample_engine "talk.wav"
           [(3, 6); (1, 2)] sample_files sample_files).
  vm_compute. reflexivity.
Defined.

(** ** The edit request *)

Lemma edit_request_cases (w : remover) (start end_ total : time) :
  edit_request w start end_ total =
  match w, Qltb 0 start, Qltb end_ total with
  | _, false, false => None
  | AudioRemover, true, false =>
      Some (Ok (Command (Filters [Trim Aud 0 start (Pad Aud 1)])
                  [MapPad (Pad Aud 1)]))
  | AudioRemover, false, true =>
      Some (Ok (Command (Filters [Trim Aud end_ total (Pad Aud 2)])
                  [MapPad (Pad Aud 2)]))
  | AudioRemover, true, true =>
      Some (Ok (Command
                  (FiltersConcat [Trim Aud 0 start (Pad Aud 1);
                                  Trim Aud end_ total (Pad Aud 2)]
                     [Pad Aud 1; Pad Aud 2] 0 1)
                  [MapOut]))
  | VideoRemover, true, false =>
      Some (Ok (Command (Filters [Trim Vid 0 start (Pad Vid 1);
                                  Trim Aud 0 start (Pad Aud 1)])
                  [MapPad (Pad Vid 1); MapPad (Pad Aud 1)]))
  | VideoRemover, false, true =>
      Some (Ok (Command (Filters [Trim Vid end_ total (Pad Vid 1);
                                  Trim Aud end_ total (Pad Aud 1)])
                  [MapPad (Pad Vid 1); MapPad (Pad Aud 1)]))
  | VideoRemover, true, true =>
      Some (Ok (Command
                  (FiltersConcat [Trim Vid 0 start (Pad Vid 1);
                                  Trim Aud 0 start (Pad Aud 1);
                                  Trim Vid end_ total (Pad Vid 2);
                                  Trim Aud end_ total (Pad Aud 2)]
                     [Pad Vid 1; Pad Aud 1; Pad Vid 2; Pad Aud 2] 1 1)
                  [MapOutV; MapOutA]))
  end.
Proof.
  unfold edit_request, build_filters, build_filters_video.
  destruct w, (Qltb 0 start), (Qltb end_ total); reflexivity.
Qed.

Lemma edit_request_never_raises
  (w : remover) (start end_ total : time) (e : exn) :
  edit_request w start end_ total <> Some (Raise e).
Proof.
  rewrite edit_request_cases.
  destruct w, (Qltb 0 start), (Qltb end_ total); discriminate.
Qed.

(** X6.  The edit request of either remover is well formed, for every
    interval and duration: building it never raises (the list indexing
    stays in range); no request is built exactly when the plan is
    empty; the request trims the kept segments of the plan, in order,
    on the audio stream and, for the video remover, on the video stream
    at the same boundaries; no pad is defined twice, and every pad the
    request concatenates or maps is defined by one of its filters. *)
Theorem edit_request_well_formed
  (w : remover) (start end_ total : time) :
  (edit_request w start end_ total = None <->
   kept w start end_ total = []) /\
  forall r : result command,
    edit_request w start end_ total = Some r ->
    exists cmd : command,
      r = Ok cmd /\
      kept_segments Aud (filters_of (cmd_filter cmd))
      = kept w start end_ total /\
      (w = VideoRemover ->
       kept_segments Vid (filters_of (cmd_filter cmd))
       = kept w start end_ total) /\
      List.NoDup (defined_pads cmd) /\
      List.incl (used_pads cmd) (defined_pads cmd).
Proof.
  rewrite edit_request_cases, kept_plan, plan_cases.
  destruct w, (Qltb 0 start), (Qltb end_ total); cbn [app];
    (split; [split; intros H; solve [reflexivity | discriminate H]|]);
    intros r [= <-]; eexists; (split; [reflexivity|]);
    cbn -[Qplus Qminus];
    repeat split; try discriminate;
    try (intros p Hp; cbn in Hp |- *; tauto);
    repeat (constructor; [cbn; intuition discriminate|]);
    try constructor.
Qed.

(** ** One input from conversion to the edited file *)

Lemma edit_step_raises_called_process_error
  (w : remover) (E : Engine) (input : string) (start end_ : time)
  (fs fs' : files) (e : exn) :
  edit_step w E input start end_ fs = (Raise e, fs') ->
  e = CalledProcessError.
Proof.
  intros Hstep. rewrite edit_step_outcome in Hstep. cbv zeta in Hstep.
  destruct (fs !! input) as [c|]; [|congruence].
  destruct (ffprobe E c) as [|v]; [congruence|].
  destruct (edit_request w start end_ _) as [[cmd|e1]|] eqn:Hreq.
  - destruct (ffmpeg_edit E cmd c) as [out|[part|]]; congruence.
  - exfalso. exact (edit_request_never_raises _ _ _ _ _ Hreq).
  - discriminate Hstep.
Qed.

Lemma remove_all_raises_called_process_error
  (w : remover) (E : Engine) (working : string) (intervals : list interval)
  (fs fs' : files) (e : exn) :
  remove_all w E working intervals fs = (Raise e, fs') ->
  e = CalledProcessError.
Proof.
  revert fs. induction intervals as [|[start end_] rest IH]; intros fs Hrun.
  - discriminate Hrun.
  - cbn [remove_all] in Hrun. unfold bind in Hrun.
    destruct (edit_step w E working start end_ fs) as [[u|e1] fs1] eqn:Hstep.
    + exact (IH fs1 Hrun).
    + injection Hrun as <- _.
      exact (edit_step_raises_called_process_error _ _ _ _ _ _ _ _ Hstep).
Qed.

Lemma run_transcode_frame
  (T : Transcoder) (options : list string) (input output : string)
  (fs fs' : files) (r : result unit) (q : string) :
  run_transcode T options input output fs = (r, fs') ->
  q <> output -> fs' !! q = fs !! q.
Proof.
  unfold run_transcode. intros Hrun Hq.
  destruct (fs !! input) as [c|]; [|injection Hrun as _ <-; reflexivity].
  destruct (ffmpeg_transcode T options c) as [out|[part|]];
    injection Hrun as _ <-; rewrite ?lookup_insert_ne by congruence;
    reflexivity.
Qed.

Lemma run_transcode_ok
  (T : Transcoder) (options : list string) (input output : string)
  (fs fs' : files) (u : unit) :
  run_transcode T options input output fs = (Ok u, fs') ->
  is_Some (fs' !! output).
Proof.
  unfold run_transcode. intros Hrun.
  destruct (fs !! input) as [c|]; [|discriminate Hrun].
  destruct (ffmpeg_transcode T options c) as [out|[part|]];
    try discriminate Hrun.
  injection Hrun as _ <-. rewrite lookup_insert_eq. eexists. reflexivity.
Qed.

Lemma run_transcode_raises
  (T : Transcoder) (options : list string) (input output : string)
  (fs fs' : files) (e : exn) :
  run_transcode T options input output fs = (Raise e, fs') ->
  e = CalledProcessError.
Proof.
  unfold run_transcode. intros Hrun.
  destruct (fs !! input) as [c|]; [|congruence].
  destruct (ffmpeg_transcode T options c) as [out|[part|]]; congruence.
Qed.

Lemma detect_silence_intervals_files
  (E : Engine) (wav_file noise : string) (duration margin : time)
  (fs fs' : files) (r : result (list interval)) :
  detect_silence_intervals E wav_file noise duration margin fs = (r, fs') ->
  fs' = fs.
Proof. unfold detect_silence_intervals. intros [= _ <-]. reflexivity. Qed.

(** An extension is never one of the longer suffixes the removers
    append to the base. *)
Lemma extension_not_two_dots (p base ext : string) (t : string) :
  splitext p = (base, ext) ->
  all_chars (fun c => negb (is_dot c)) t = false ->
  ext <> String "." t.
Proof.
  intros Hsplit Ht Hext.
  destruct (splitext_extension _ _ _ Hsplit) as [->|(t' & -> & Ht' & _)];
    [discriminate Hext|].
  injection Hext as ->. congruence.
Qed.

(** X7.  [process_audio_file] on an input that splits into (base, ext)
    touches no path other than [base.wav] and [base.wav.nosilence.wav],
    whether it returns or raises; in particular it leaves the input
    file as it was unless the extension of the input is [.wav]; and the
    path it returns is [base.wav]. *)
Theorem process_audio_file_paths
  (E : Engine) (T : Transcoder) (input_file noise : string)
  (duration margin : time) (base ext : string)
  (fs fs' : files) (r : result string) :
  splitext input_file = (base, ext) ->
  process_audio_file E T input_file noise duration margin fs = (r, fs') ->
  (forall q : string,
     q <> base +:+ ".wav" -> q <> base +:+ ".wav.nosilence.wav" ->
     fs' !! q = fs !! q) /\
  (ext <> ".wav"%string -> fs' !! input_file = fs !! input_file) /\
  (forall path : string, r = Ok path -> path = base +:+ ".wav").
Proof.
  intros Hsplit Hrun.
  assert (Hframe : forall q : string,
            q <> base +:+ ".wav" -> q <> base +:+ ".wav.nosilence.wav" ->
            fs' !! q = fs !! q /\
            (forall path : string, r = Ok path -> path = base +:+ ".wav")).
  { intros q Hq Hqt.
    unfold process_audio_file in Hrun. rewrite Hsplit in Hrun.
    unfold bind in Hrun.
    destruct (run_transcode T _ input_file (base +:+ ".wav") fs)
      as [[u|e] fs1] eqn:Hconv.
    2:{ injection Hrun as <- <-.
        split; [|discriminate].
        exact (run_transcode_frame _ _ _ _ _ _ _ _ Hconv Hq). }
    destruct (detect_silence_intervals E _ noise duration margin fs1)
      as [[intervals|e] fs2] eqn:Hdet;
      apply detect_silence_intervals_files in Hdet as ->.
    2:{ injection Hrun as <- <-.
        split; [|discriminate].
        exact (run_transcode_frame _ _ _ _ _ _ _ _ Hconv Hq). }
    destruct (remove_all AudioRemover E _ intervals fs1)
      as [[u'|e] fs3] eqn:Hloop; injection Hrun as <- <-.
    - split; [|intros path [= <-]; reflexivity].
      rewrite (remove_all_frame _ _ _ _ _ _ _ q Hloop Hq).
      + exact (run_transcode_frame _ _ _ _ _ _ _ _ Hconv Hq).
      + cbn [tmp_path]. rewrite append_assoc. exact Hqt.
    - split; [|discriminate].
      rewrite (remove_all_frame _ _ _ _ _ _ _ q Hloop Hq).
      + exact (run_transcode_frame _ _ _ _ _ _ _ _ Hconv Hq).
      + cbn [tmp_path]. rewrite append_assoc. exact Hqt. }
  pose proof (splitext_join _ _ _ Hsplit) as Hjoin.
  split; [intros q Hq Hqt; apply (Hframe q Hq Hqt)|]. split.
  - intros Hext. apply Hframe; rewrite <- Hjoin; intros H;
      apply append_inv_head in H.
    + congruence.
    + revert H. apply (extension_not_two_dots _ _ _ _ Hsplit). reflexivity.
  - apply (Hframe EmptyString); intros H;
      apply (f_equal String.length) in H; rewrite length_append in H;
      cbn [String.length] in H; lia.
Qed.

Lemma process_audio_file_paths_witness :
  (forall q : string,
     q <> "talk" +:+ ".wav" -> q <> "talk" +:+ ".wav.nosilence.wav" ->
     sample_inputs_done !! q = sample_inputs !! q) /\
  (".m4a"%string <> ".wav"%string ->
   sample_inputs_done !! "talk.m4a"%string
   = sample_inputs !! "talk.m4a"%string) /\
  (forall path : string,
     Ok "talk.wav"%string = Ok path -> path = "talk" +:+ ".wav").
Proof.
  apply (process_audio_file_paths sample_engine sample_transcoder
           "talk.m4a" "-50" 2 1 "talk" ".m4a"
           sample_inputs sample_inputs_done (Ok "talk.wav"%string)).
  - reflexivity.
  - vm_compute. reflexivity.
Defined.

Lemma append_differs (base u v : string) :
  u <> v -> base +:+ u <> base +:+ v.
Proof. intros Huv H. apply append_inv_head in H. contradiction. Qed.

(** What a run of [process_video_file] leaves behind. *)
Lemma process_video_file_facts
  (E : Engine) (T : Transcoder) (input_file noise : string)
  (duration margin : time) (base ext : string)
  (fs fs' : files) (r : result string) :
  splitext input_file = (base, ext) ->
  process_video_file E T input_file noise duration margin fs = (r, fs') ->
  (forall q : string,
     q <> base +:+ ".temp_video.mp4" ->
     q <> base +:+ ".temp_audio.wav" ->
     q <> base +:+ ".temp_video.mp4.nosilence.mp4" ->
     fs' !! q = fs !! q) /\
  (forall path : string,
     r = Ok path ->
     path = base +:+ ".temp_video.mp4" /\
     fs' !! (base +:+ ".temp_audio.wav") = None /\
     is_Some (fs' !! (base +:+ ".temp_video.mp4"))) /\
  (forall e : exn,
     r = Raise e ->
     (e = CalledProcessError \/ e = ValueError) /\
     (e = ValueError ->
      is_Some (fs' !! (base +:+ ".temp_audio.wav")) /\
      is_Some (fs' !! (base +:+ ".temp_video.mp4")))).
Proof.
  intros Hsplit Hrun.
  set (working := base +:+ ".temp_video.mp4") in *.
  set (temp_wav := base +:+ ".temp_audio.wav") in *.
  assert (Hwt : working <> temp_wav)
    by (apply append_differs; discriminate).
  assert (Htt : temp_wav <> tmp_path VideoRemover working).
  { cbn [tmp_path]. unfold working. rewrite append_assoc.
    apply append_differs. discriminate. }
  assert (Htmp : tmp_path VideoRemover working
                 = base +:+ ".temp_video.mp4.nosilence.mp4").
  { cbn [tmp_path]. unfold working. rewrite append_assoc. reflexivity. }
  unfold process_video_file in Hrun. rewrite Hsplit in Hrun.
  fold working temp_wav in Hrun. unfold bind in Hrun.
  destruct (run_transcode T _ input_file working fs)
    as [[u1|e1] fs1] eqn:Hcopy.
  2:{ injection Hrun as <- <-.
      pose proof (run_transcode_raises _ _ _ _ _ _ _ Hcopy) as ->.
      split; [intros q Hq _ _;
              exact (run_transcode_frame _ _ _ _ _ _ _ _ Hcopy Hq)|].
      split; [discriminate|].
      intros e [= <-]. split; [left; reflexivity | discriminate]. }
  pose proof (run_transcode_ok _ _ _ _ _ _ _ Hcopy) as Hworking1.
  destruct (run_transcode T _ working temp_wav fs1)
    as [[u2|e2] fs2] eqn:Haudio.
  2:{ injection Hrun as <- <-.
      pose proof (run_transcode_raises _ _ _ _ _ _ _ Haudio) as ->.
      split.
      - intros q Hq Hqt _.
        rewrite (run_transcode_frame _ _ _ _ _ _ _ _ Haudio Hqt).
        exact (run_transcode_frame _ _ _ _ _ _ _ _ Hcopy Hq).
      - split; [discriminate|].
        intros e [= <-]. split; [left; reflexivity | discriminate]. }
  pose proof (run_transcode_ok _ _ _ _ _ _ _ Haudio) as Htemp2.
  assert (Hworking2 : is_Some (fs2 !! working)).
  { rewrite (run_transcode_frame _ _ _ _ _ _ _ _ Haudio Hwt).
    exact Hworking1. }
  assert (Hframe2 : forall q : string,
            q <> working -> q <> temp_wav -> fs2 !! q = fs !! q).
  { intros q Hq Hqt.
    rewrite (run_transcode_frame _ _ _ _ _ _ _ _ Haudio Hqt).
    exact (run_transcode_frame _ _ _ _ _ _ _ _ Hcopy Hq). }
  destruct (detect_silence_intervals E temp_wav noise duration margin fs2)
    as [[intervals|e3] fs3] eqn:Hdet.
  2:{ pose proof Hdet as Hfs.
      apply detect_silence_intervals_files in Hfs as ->.
      injection Hrun as <- <-.
      split; [intros q Hq Hqt _; exact (Hframe2 q Hq Hqt)|].
      split; [discriminate|].
      intros e [= <-]. split; [|intros _; split; assumption].
      unfold detect_silence_intervals in Hdet.
      destruct (parse_silence_events _) as [[starts ends]|e] eqn:Hparse;
        [discriminate Hdet|].
      injection Hdet as <-.
      right. clear -Hparse. revert Hparse. unfold parse_silence_events.
      generalize (@nil time, @nil time).
      induction (splitlines _) as [|line rest IH]; intros acc;
        [discriminate|].
      cbn [scan_lines]. destruct acc as [starts ends].
      unfold scan_line, scan_marker.
      repeat match goal with
             | |- context [if ?b then _ else _] => destruct b
             | |- context [match ?x with Some _ => _ | None => _ end] =>
                 destruct x
             end; cbn [rbind]; try apply IH; congruence. }
  apply detect_silence_intervals_files in Hdet as ->.
  unfold path_exists in Hrun. rewrite bool_decide_eq_true_2 in Hrun
    by exact Htemp2.
  unfold os_remove in Hrun. destruct Htemp2 as [cw Hcw].
  rewrite Hcw in Hrun.
  destruct (remove_all VideoRemover E working intervals
              (delete temp_wav fs2)) as [[u4|e4] fs4] eqn:Hloop;
    injection Hrun as <- <-.
  - split; [|split; [|discriminate]].
    + intros q Hq Hqt Hqtmp.
      rewrite (remove_all_frame _ _ _ _ _ _ _ q Hloop Hq)
        by (rewrite Htmp; exact Hqtmp).
      rewrite lookup_delete_ne by congruence. exact (Hframe2 q Hq Hqt).
    + intros path [= <-]. split; [reflexivity|]. split.
      * rewrite (remove_all_frame _ _ _ _ _ _ _ temp_wav Hloop)
          by congruence.
        apply lookup_delete_eq.
      * destruct u4.
        destruct (remove_all_success_cases _ _ _ _ _ _ Hloop)
          as [[_ ->]|(_ & Hw & _)]; [|exact Hw].
        rewrite lookup_delete_ne by congruence. exact Hworking2.
  - pose proof (remove_all_raises_called_process_error _ _ _ _ _ _ _ Hloop)
      as ->.
    split; [|split; [discriminate|]].
    + intros q Hq Hqt Hqtmp.
      rewrite (remove_all_frame _ _ _ _ _ _ _ q Hloop Hq)
        by (rewrite Htmp; exact Hqtmp).
      rewrite lookup_delete_ne by congruence. exact (Hframe2 q Hq Hqt).
    + intros e [= <-]. split; [left; reflexivity | discriminate].
Qed.

(** X8.  [process_video_file] never modifies its input file: on an
    input that splits into (base, ext) it touches no path other than
    [base.temp_video.mp4], [base.temp_audio.wav] and
    [base.temp_video.mp4.nosilence.mp4], whether it returns or raises,
    and the input path is none of the three. *)
Theorem process_video_file_keeps_input
  (E : Engine) (T : Transcoder) (input_file noise : string)
  (duration margin : time) (base ext : string)
  (fs fs' : files) (r : result string) :
  splitext input_file = (base, ext) ->
  process_video_file E T input_file noise duration margin fs = (r, fs') ->
  (forall q : string,
     q <> base +:+ ".temp_video.mp4" ->
     q <> base +:+ ".temp_audio.wav" ->
     q <> base +:+ ".temp_video.mp4.nosilence.mp4" ->
     fs' !! q = fs !! q) /\
  fs' !! input_file = fs !! input_file.
Proof.
  intros Hsplit Hrun.
  destruct (process_video_file_facts _ _ _ _ _ _ _ _ _ _ _ Hsplit Hrun)
    as (Hframe & _ & _).
  split; [exact Hframe|].
  pose proof (splitext_join _ _ _ Hsplit) as Hjoin.
  apply Hframe; rewrite <- Hjoin; apply append_differs;
    apply (extension_not_two_dots _ _ _ _ Hsplit); reflexivity.
Qed.

Lemma process_video_file_keeps_input_witness :
  (forall q : string,
     q <> "clip" +:+ ".temp_video.mp4" ->
     q <> "clip" +:+ ".temp_audio.wav" ->
     q <> "clip" +:+ ".temp_video.mp4.nosilence.mp4" ->
     sample_videos_done !! q = sample_videos !! q) /\
  sample_videos_done !! "clip.mkv"%string = sample_videos !! "clip.mkv"%string.
Proof.
  apply (process_video_file_keeps_input sample_engine sample_transcoder
           "clip.mkv" "-50" 2 1 "clip" ".mkv"
           sample_videos sample_videos_done
           (Ok "clip.temp_video.mp4"%string)).
  - reflexivity.
  - vm_compute. reflexivity.
Defined.

(** X9.  The temporary audio of [process_video_file]: when the function
    returns, it returns [base.temp_video.mp4], that file exists and
    [base.temp_audio.wav] is gone; it raises nothing but
    CalledProcessError and ValueError; and when it raises ValueError
    (the parser met a malformed number) the temporary audio is left
    behind, next to the working video. *)
Theorem process_video_file_temp_audio
  (E : Engine) (T : Transcoder) (input_file noise : string)
  (duration margin : time) (base ext : string)
  (fs fs' : files) (r : result string) :
  splitext input_file = (base, ext) ->
  process_video_file E T input_file noise duration margin fs = (r, fs') ->
  (forall path : string,
     r = Ok path ->
     path = base +:+ ".temp_video.mp4" /\
     fs' !! (base +:+ ".temp_audio.wav") = None /\
     is_Some (fs' !! (base +:+ ".temp_video.mp4"))) /\
  (forall e : exn,
     r = Raise e ->
     (e = CalledProcessError \/ e = ValueError) /\
     (e = ValueError ->
      is_Some (fs' !! (base +:+ ".temp_audio.wav")) /\
      is_Some (fs' !! (base +:+ ".temp_video.mp4")))).
Proof.
  intros Hsplit Hrun.
  destruct (process_video_file_facts _ _ _ _ _ _ _ _ _ _ _ Hsplit Hrun)
    as (_ & Hok & Hraise).
  split; assumption.
Qed.

Lemma process_video_file_temp_audio_witness :
  (forall path : string,
     @Raise string ValueError = Ok path ->
     path = "clip" +:+ ".temp_video.mp4" /\
     sample_videos_garbled !! ("clip" +:+ ".temp_audio.wav") = None /\
     is_Some (sample_videos_garbled !! ("clip" +:+ ".temp_video.mp4"))) /\
  (forall e : exn,
     @Raise string ValueError = Raise e ->
     (e = CalledProcessError \/ e = ValueError) /\
     (e = ValueError ->
      is_Some (sample_videos_garbled !! ("clip" +:+ ".temp_audio.wav")) /\
      is_Some (sample_videos_garbled !! ("clip" +:+ ".temp_video.mp4")))).
Proof.
  apply (process_video_file_temp_audio garbled_engine sample_transcoder
           "clip.mkv" "-50" 2 1 "clip" ".mkv"
           sample_videos sample_videos_garbled (Raise ValueError)).
  - reflexivity.
  - vm_compute. reflexivity.
Defined.

(** ** What the parser records *)

Lemma float_digits_nonneg (s : string) (dot digits : bool)
  (mant : Z) (den : positive) (v : Q) :
  (0 <= mant)%Z ->
  float_digits s dot digits mant den = Some v -> 0 <= v.
Proof.
  revert dot digits mant den.
  induction s as [|c t IH]; intros dot digits mant den Hm;
    cbn [float_digits].
  - destruct digits; [|discriminate]. intros [= <-].
    unfold Qle. simpl. lia.
  - destruct (is_digit c).
    + apply IH. lia.
    + destruct (is_dot c); [|discriminate].
      destruct dot; [discriminate|]. apply IH. exact Hm.
Qed.

Lemma scan_marker_nonneg (m line : string) (acc acc' : list time) :
  Forall (fun t => 0 <= t) acc ->
  scan_marker m line acc = Ok acc' ->
  Forall (fun t => 0 <= t) acc'.
Proof.
  intros Hacc. unfold scan_marker.
  destruct (contains m line); [|intros [= <-]; exact Hacc].
  destruct (re_search m line) as [tok|]; [|intros [= <-]; exact Hacc].
  destruct (float_of_token tok) as [v|] eqn:Hv; [|discriminate].
  intros [= <-]. apply Forall_app. split; [exact Hacc|].
  constructor; [|constructor].
  apply (float_digits_nonneg tok false false 0 1 v); [lia | exact Hv].
Qed.

Lemma scan_lines_nonneg (lines : list string)
  (starts ends starts' ends' : list time) :
  Forall (fun t => 0 <= t) starts ->
  Forall (fun t => 0 <= t) ends ->
  scan_lines lines (starts, ends) = Ok (starts', ends') ->
  Forall (fun t => 0 <= t) starts' /\ Forall (fun t => 0 <= t) ends'.
Proof.
  revert starts ends.
  induction lines as [|line rest IH]; intros starts ends Hs He.
  - intros [= <- <-]. split; assumption.
  - cbn [scan_lines scan_line].
    destruct (scan_marker "silence_start:" line starts) as [s1|e] eqn:H1;
      [|discriminate].
    cbn [rbind].
    destruct (scan_marker "silence_end:" line ends) as [e1|e] eqn:H2;
      [|discriminate].
    cbn [rbind]. apply IH.
    + exact (scan_marker_nonneg _ _ _ _ Hs H1).
    + exact (scan_marker_nonneg _ _ _ _ He H2).
Qed.

(** X10.  The parser never records a negative time: every start and
    every end it returns is >= 0; and for a margin >= 0 every interval
    that [detect_silence_intervals] returns has start >= 0 and
    end >= 0. *)
Theorem detected_times_nonnegative
  (E : Engine) (wav_file noise : string) (duration margin : time)
  (fs fs' : files) (intervals : list interval) :
  0 <= margin ->
  detect_silence_intervals E wav_file noise duration margin fs
  = (Ok intervals, fs') ->
  (exists starts ends : list time,
     parse_silence_events
       (ffmpeg_silencedetect E (noise_param noise) duration (fs !! wav_file))
     = Ok (starts, ends) /\
     Forall (fun t => 0 <= t) starts /\
     Forall (fun t => 0 <= t) ends) /\
  Forall (fun p : interval => 0 <= fst p /\ 0 <= snd p) intervals.
Proof.
  intros Hm. unfold detect_silence_intervals.
  destruct (parse_silence_events _) as [[starts ends]|e] eqn:Hparse;
    cbn [rbind]; [|discriminate].
  intros [= <- _].
  destruct (scan_lines_nonneg _ [] [] starts ends
              ltac:(constructor) ltac:(constructor) Hparse) as [Hs He].
  split; [exists starts, ends; auto|].
  unfold normalize, pair_reversed.
  rewrite Forall_map, Forall_forall. intros [s e] Hin.
  apply list_elem_of_In in Hin.
  pose proof (in_combine_l _ _ _ _ Hin) as Hins.
  pose proof (in_combine_r _ _ _ _ Hin) as Hine.
  apply in_rev in Hins, Hine.
  rewrite Forall_forall in Hs, He.
  apply list_elem_of_In in Hins, Hine.
  specialize (Hs s Hins). specialize (He e Hine).
  unfold add_margin. destruct (negb (Qeq_bool s 0)); simpl; split; lra.
Qed.

Lemma detected_times_nonnegative_witness :
  (exists starts ends : list time,
     parse_silence_events
       (ffmpeg_silencedetect scenario_engine (noise_param "-50") 2
          (sample_files !! "talk.wav"%string))
     = Ok (starts, ends) /\
     Forall (fun t => 0 <= t) starts /\
     Forall (fun t => 0 <= t) ends) /\
  Forall (fun p : interval => 0 <= fst p /\ 0 <= snd p)
    (normalize [20 # 10; 100 # 10] [50 # 10; 120 # 10] 1).
Proof.
  apply (detected_times_nonnegative scenario_engine "talk.wav" "-50" 2 1
           sample_files sample_files).
  - lra.
  - reflexivity.
Defined.

(** ** A detector report without markers *)

Lemma prefix_split (m t : string) :
  String.prefix m t = true -> exists r : string, t = m +:+ r.
Proof.
  revert t. induction m as [|c m IH]; intros t H.
  - exists t. reflexivity.
  - destruct t as [|a t]; [discriminate|].
    cbn [String.prefix] in H.
    destruct (ascii_dec c a) as [->|]; [|discriminate].
    destruct (IH t H) as [r ->]. exists r. reflexivity.
Qed.

Lemma contains_factor (m s : string) :
  contains m s = true <-> exists a b : string, s = a +:+ m +:+ b.
Proof.
  split.
  - induction s as [|c t IH]; cbn [contains]; intros H.
    + rewrite orb_false_r in H. apply prefix_split in H as [r Hr].
      exists EmptyString, r. exact Hr.
    + apply orb_true_iff in H as [H|H].
      * apply prefix_split in H as [r Hr]. exists EmptyString, r. exact Hr.
      * destruct (IH H) as (a & b & ->). exists (String c a), b. reflexivity.
  - intros (a & b & ->). apply contains_append.
Qed.

(** Every line is a piece of the text. *)
Lemma splitlines_from_factor (n : nat) (s acc line : string) :
  (String.length s <= n)%nat ->
  List.In line (splitlines_from acc s) ->
  exists u v : string, acc +:+ s = u +:+ line +:+ v.
Proof.
  revert s acc. induction n as [|n IH]; intros s acc Hlen Hin.
  - destruct s; [|cbn [String.length] in Hlen; lia].
    cbn [splitlines_from] in Hin. destruct acc as [|a acc]; [destruct Hin|].
    destruct Hin as [<-|[]]. exists EmptyString, EmptyString.
    rewrite append_empty, !append_empty_r. reflexivity.
  - destruct s as [|c t].
    + cbn [splitlines_from] in Hin.
      destruct acc as [|a acc]; [destruct Hin|].
      destruct Hin as [<-|[]]. exists EmptyString, EmptyString.
      rewrite append_empty, !append_empty_r. reflexivity.
    + cbn [String.length] in Hlen. cbn [splitlines_from] in Hin.
      destruct (is_linebreak c).
      * destruct Hin as [<-|Hin];
          [exists EmptyString, (String c t); reflexivity|].
        assert (Hrest : exists t0 u v : string, t = t0 +:+ u +:+ line +:+ v).
        { destruct t as [|c' t'].
          - destruct Hin.
          - cbn [String.length] in Hlen.
            destruct ((N_of_ascii c =? 13) && (N_of_ascii c' =? 10))%N.
            + destruct (IH t' EmptyString ltac:(lia) Hin) as (u & v & Huv).
              rewrite append_empty in Huv.
              exists (String c' EmptyString), u, v. rewrite Huv. reflexivity.
            + destruct (IH (String c' t') EmptyString
                          ltac:(cbn [String.length]; lia) Hin)
                as (u & v & Huv).
              exists EmptyString, u, v. exact Huv. }
        destruct Hrest as (t0 & u & v & ->).
        exists (acc +:+ String c (t0 +:+ u)), v.
        rewrite !append_assoc, !append_cons, !append_assoc. reflexivity.
      * destruct (IH t (acc +:+ String c EmptyString) ltac:(lia) Hin)
          as (u & v & Huv). exists u, v.
        rewrite <- Huv, append_assoc. reflexivity.
Qed.

Lemma lines_without_marker (m output line : string) :
  contains m output = false ->
  List.In line (splitlines output) ->
  contains m line = false.
Proof.
  intros Hout Hin.
  destruct (splitlines_from_factor _ _ _ _ (Nat.le_refl _) Hin)
    as (u & v & Huv).
  rewrite append_empty in Huv.
  destruct (contains m line) eqn:Hline; [|reflexivity].
  apply contains_factor in Hline as (a & b & ->).
  assert (Hc : contains m output = true).
  { apply contains_factor. exists (u +:+ a), (b +:+ v).
    rewrite Huv, !append_assoc. reflexivity. }
  congruence.
Qed.

Lemma scan_lines_without_marker (lines : list string)
  (acc : list time * list time) :
  (forall line : string,
     List.In line lines ->
     contains "silence_start:" line = false /\
     contains "silence_end:" line = false) ->
  scan_lines lines acc = Ok acc.
Proof.
  induction lines as [|line rest IH]; intros Hno; [reflexivity|].
  destruct acc as [starts ends]. cbn [scan_lines scan_line].
  destruct (Hno line (or_introl eq_refl)) as [Hs He].
  unfold scan_marker. rewrite Hs, He. cbn [rbind].
  apply IH. intros l Hl. apply Hno. right. exact Hl.
Qed.

Lemma parse_without_marker (output : string) :
  contains "silence_start:" output = false ->
  contains "silence_end:" output = false ->
  parse_silence_events output = Ok ([], []).
Proof.
  intros Hs He. apply scan_lines_without_marker. intros line Hin.
  split; eapply lines_without_marker; eassumption.
Qed.

(** X11.  A run that detects nothing is a no-op on the converted file:
    when the conversion of the input succeeds and the detector's report
    on the converted file holds neither [silence_start:] nor
    [silence_end:], [process_audio_file] returns [base.wav], and the
    file system is the one before the call with [base.wav] holding
    exactly what the conversion wrote. *)
Theorem process_audio_file_without_silence
  (E : Engine) (T : Transcoder) (input_file noise : string)
  (duration margin : time) (base ext : string) (fs : files)
  (c out : content) :
  splitext input_file = (base, ext) ->
  fs !! input_file = Some c ->
  ffmpeg_transcode T ["-acodec"; "pcm_s16le"; "-ar"; "44100"]%string c
  = Exit0 out ->
  contains "silence_start:"
    (ffmpeg_silencedetect E (noise_param noise) duration (Some out)) = false ->
  contains "silence_end:"
    (ffmpeg_silencedetect E (noise_param noise) duration (Some out)) = false ->
  process_audio_file E T input_file noise duration margin fs
  = (Ok (base +:+ ".wav"), <[base +:+ ".wav" := out]> fs).
Proof.
  intros Hsplit Hin Hconv Hs He.
  unfold process_audio_file. rewrite Hsplit.
  unfold bind, run_transcode. rewrite Hin, Hconv.
  unfold detect_silence_intervals. rewrite lookup_insert_eq.
  rewrite (parse_without_marker _ Hs He). reflexivity.
Qed.

Lemma process_audio_file_without_silence_witness :
  process_audio_file sample_engine sample_transcoder "talk.m4a" "-50" 2 1
    sample_inputs
  = (Ok ("talk" +:+ ".wav"), <["talk" +:+ ".wav" := "M4A"%string]> sample_inputs).
Proof.
  apply (process_audio_file_without_silence sample_engine sample_transcoder
           "talk.m4a" "-50" 2 1 "talk" ".m4a" sample_inputs "M4A" "M4A");
    reflexivity.
Defined.

(** ** An unknown duration *)

(** X12.  When [ffprobe] exits with success but its output is not a
    number, the duration is taken as 0 (no exception), and for an
    interval with end >= 0 the plan of either remover then keeps no
    tail: the head [0, start) alone when start > 0, and nothing (no
    edit request, the file is copied as it is) when start <= 0.  What
    follows the silence is dropped from the working file. *)
Theorem unknown_duration_keeps_no_tail
  (w : remover) (E : Engine) (input : string) (start end_ : time)
  (fs : files) (c : content) :
  fs !! input = Some c ->
  ffprobe E c = ProbeStdout None ->
  0 <= end_ ->
  get_audio_duration E input fs = (Ok 0, fs) /\
  (0 < start ->
   kept w start end_ 0 = [(0, start)] /\
   exists cmd : command,
     edit_request w start end_ 0 = Some (Ok cmd) /\
     kept_segments Aud (filters_of (cmd_filter cmd)) = [(0, start)]) /\
  (start <= 0 ->
   kept w start end_ 0 = [] /\ edit_request w start end_ 0 = None).
Proof.
  intros Hin Hprobe Hend.
  assert (Htail : Qltb end_ 0 = false) by (apply Qltb_ge; exact Hend).
  split; [unfold get_audio_duration; rewrite Hin, Hprobe; reflexivity|].
  rewrite kept_plan, plan_cases, edit_request_cases, Htail.
  split; intros Hs.
  - apply Qltb_lt in Hs. rewrite Hs. split; [reflexivity|].
    destruct w; eexists; split; reflexivity.
  - apply Qltb_ge in Hs. rewrite Hs. destruct w; split; reflexivity.
Qed.

Lemma unknown_duration_keeps_no_tail_witness :
  get_audio_duration
    {| ffprobe := fun _ => ProbeStdout None;
       ffmpeg_silencedetect := fun _ _ _ => EmptyString;
       ffmpeg_edit := fun _ c => Exit0 c |} "talk.wav" sample_files
  = (Ok 0, sample_files) /\
  (0 < 3 ->
   kept VideoRemover 3 6 0 = [(0, 3)] /\
   exists cmd : command,
     edit_request VideoRemover 3 6 0 = Some (Ok cmd) /\
     kept_segments Aud (filters_of (cmd_filter cmd)) = [(0, 3)]) /\
  (3 <= 0 ->
   kept VideoRemover 3 6 0 = [] /\ edit_request VideoRemover 3 6 0 = None).
Proof.
  apply (unknown_duration_keeps_no_tail VideoRemover _ "talk.wav" 3 6
           sample_files "RIFF").
  - vm_compute. reflexivity.
  - reflexivity.
  - lra.
Defined.

(** ** The merger *)

Lemma video_not_audio (stream : stream_entry) :
  is_codec "video" stream = true -> is_codec "audio" stream = false.
Proof.
  unfold is_codec. destruct (codec_type stream); try discriminate.
  intros H. apply String.eqb_eq in H as ->. reflexivity.
Qed.

Lemma scan_streams_found (int_of_text : string -> option Z)
  (streams : list stream_entry)
  (w : Z) (height : option Z) (has_audio : bool) :
  scan_streams int_of_text streams (Some w) height has_audio
  = Returns (Some w, height,
             has_audio || existsb (is_codec "audio") streams).
Proof.
  revert has_audio. induction streams as [|s rest IH]; intros has_audio.
  - cbn. rewrite orb_false_r. reflexivity.
  - cbn [scan_streams existsb]. rewrite andb_false_r.
    destruct (is_codec "audio" s); rewrite IH;
      [rewrite orb_true_r | rewrite orb_false_l]; reflexivity.
Qed.

Lemma scan_streams_search (int_of_text : string -> option Z)
  (streams : list stream_entry)
  (height : option Z) (has_audio : bool) :
  scan_streams int_of_text streams None height has_audio =
  match List.find (is_codec "video") streams with
  | None =>
      Returns (None, height,
               has_audio || existsb (is_codec "audio") streams)
  | Some s =>
      match convert_dimension int_of_text (width_value s) with
      | Raises e => Raises e
      | Returns w =>
          match convert_dimension int_of_text (height_value s) with
          | Raises e => Raises e
          | Returns h =>
              Returns (Some w, Some h,
                       has_audio || existsb (is_codec "audio") streams)
          end
      end
  end.
Proof.
  revert has_audio. induction streams as [|s rest IH]; intros has_audio.
  - cbn. rewrite orb_false_r. reflexivity.
  - cbn [scan_streams List.find existsb]. rewrite andb_true_r.
    destruct (is_codec "video" s) eqn:Hv.
    + rewrite (video_not_audio s Hv), orb_false_l.
      destruct (convert_dimension int_of_text (width_value s)) as [w|e];
        [|reflexivity].
      destruct (convert_dimension int_of_text (height_value s)) as [h|e];
        [|reflexivity].
      apply scan_streams_found.
    + destruct (is_codec "audio" s); rewrite IH;
        destruct (List.find _ rest) as [s'|];
        rewrite ?orb_true_r, ?orb_false_l; reflexivity.
Qed.

Lemma convert_dimension_raises (int_of_text : string -> option Z)
  (v : json_value) (e : py_exn) :
  convert_dimension int_of_text v = Raises e ->
  e = PyValueError \/ e = PyOverflowError.
Proof.
  unfold convert_dimension.
  destruct (py_int int_of_text v); intros H; inversion H; auto.
Qed.

Lemma convert_duration_raises (float_of_text : string -> option py_float)
  (v : json_value) (e : py_exn) :
  convert_duration float_of_text v = Raises e ->
  e = PyTypeError \/ e = PyOverflowError.
Proof.
  unfold convert_duration.
  destruct v; try discriminate;
    destruct (py_float_of float_of_text _); intros H; inversion H; auto.
Qed.

(** X13.  [get_video_info] on output of [ffprobe] that [json.loads]
    could read, in the shape [ffprobe] prints.
    - The resolution returned is that of the first video stream,
      converted with [int]; when that conversion raises TypeError or
      ValueError the function raises ValueError, whatever the later
      streams are, and its OverflowError (an infinite value) is not
      caught.
    - [has_audio] tells whether any stream is an audio stream.
    - The duration is converted after the streams and before the test
      that a resolution was found: [None] gives 0.0, and so does a
      ValueError of [float]; TypeError and OverflowError of [float] are
      not caught.  Without a video stream the function raises
      ValueError, unless the duration has raised before.
    - The function raises nothing but ValueError, TypeError and
      OverflowError. *)
Theorem get_video_info_first_video_stream
  (int_of_text : string -> option Z)
  (float_of_text : string -> option py_float) (info : probe_info) :
  get_video_info int_of_text float_of_text (ProbeOutput (Some info)) =
  match List.find (is_codec "video") (info_streams info) with
  | None =>
      match convert_duration float_of_text (info_duration info) with
      | Raises e => Raises e
      | Returns _ => Raises PyValueError
      end
  | Some s =>
      match convert_dimension int_of_text (width_value s) with
      | Raises e => Raises e
      | Returns w =>
          match convert_dimension int_of_text (height_value s) with
          | Raises e => Raises e
          | Returns h =>
              match convert_duration float_of_text (info_duration info) with
              | Raises e => Raises e
              | Returns d =>
                  Returns {| vi_width := w;
                             vi_height := h;
                             vi_duration := d;
                             vi_has_audio :=
                               existsb (is_codec "audio")
                                       (info_streams info) |}
              end
          end
      end
  end /\
  (forall e : py_exn,
     get_video_info int_of_text float_of_text (ProbeOutput (Some info))
     = Raises e ->
     e = PyValueError \/ e = PyTypeError \/ e = PyOverflowError).
Proof.
  assert (Heq :
    get_video_info int_of_text float_of_text (ProbeOutput (Some info)) =
    match List.find (is_codec "video") (info_streams info) with
    | None =>
        match convert_duration float_of_text (info_duration info) with
        | Raises e => Raises e
        | Returns _ => Raises PyValueError
        end
    | Some s =>
        match convert_dimension int_of_text (width_value s) with
        | Raises e => Raises e
        | Returns w =>
            match convert_dimension int_of_text (height_value s) with
            | Raises e => Raises e
            | Returns h =>
                match convert_duration float_of_text (info_duration info)
                with
                | Raises e => Raises e
                | Returns d =>
                    Returns {| vi_width := w;
                               vi_height := h;
                               vi_duration := d;
                               vi_has_audio :=
                                 existsb (is_codec "audio")
                                         (info_streams info) |}
                end
            end
        end
    end).
  { unfold get_video_info. rewrite scan_streams_search.
    destruct (List.find _ (info_streams info)) as [s|].
    - destruct (convert_dimension int_of_text (width_value s)) as [w|e];
        [|reflexivity].
      destruct (convert_dimension int_of_text (height_value s)) as [h|e];
        [|reflexivity].
      destruct (convert_duration float_of_text (info_duration info));
        reflexivity.
    - destruct (convert_duration float_of_text (info_duration info));
        reflexivity. }
  split; [exact Heq|].
  intros e He. rewrite Heq in He. clear Heq.
  destruct (List.find _ (info_streams info)) as [s|].
  - destruct (convert_dimension int_of_text (width_value s))
      as [w|e1] eqn:Hw.
    2:{ injection He as ->.
        destruct (convert_dimension_raises _ _ _ Hw); auto. }
    destruct (convert_dimension int_of_text (height_value s))
      as [h|e1] eqn:Hh.
    2:{ injection He as ->.
        destruct (convert_dimension_raises _ _ _ Hh); auto. }
    destruct (convert_duration float_of_text (info_duration info))
      as [d|e1] eqn:Hd; [discriminate He|].
    injection He as ->.
    destruct (convert_duration_raises _ _ _ Hd); auto.
  - destruct (convert_duration float_of_text (info_duration info))
      as [d|e1] eqn:Hd.
    + injection He as <-. auto.
    + injection He as ->.
      destruct (convert_duration_raises _ _ _ Hd); auto.
Qed.

(** A document as [ffprobe] prints it: numbers for the resolution, a
    text for the duration.  The later video stream is not looked at. *)
Example get_video_info_example :
  get_video_info (fun _ => None)
    (fun s => option_map Finite (float_of_token s))
    (ProbeOutput (Some
       {| info_streams :=
            [ {| codec_type := JText "audio";
                 width_value := JNull; height_value := JNull |};
              {| codec_type := JText "video";
                 width_value := JInt 1920; height_value := JInt 1080 |};
              {| codec_type := JText "video";
                 width_value := JNull; height_value := JNull |} ];
          info_duration := JText "12.5" |}))
  = Returns {| vi_width := 1920; vi_height := 1080;
               vi_duration := Finite (125 # 10); vi_has_audio := true |}.
Proof. reflexivity. Qed.

(** Exceptions that are not caught: [float] of a list, and [int] of
    an infinite width; a duration that is a text but no number is 0. *)
Example get_video_info_exceptions :
  get_video_info (fun _ => None) (fun _ => None)
    (ProbeOutput (Some
       {| info_streams :=
            [ {| codec_type := JText "video";
                 width_value := JInt 640; height_value := JInt 480 |} ];
          info_duration := JArray |}))
  = Raises PyTypeError /\
  get_video_info (fun _ => None) (fun _ => None)
    (ProbeOutput (Some
       {| info_streams :=
            [ {| codec_type := JText "video";
                 width_value := JFloat (Infinite false);
                 height_value := JInt 480 |} ];
          info_duration := JNull |}))
  = Raises PyOverflowError /\
  get_video_info (fun _ => None) (fun _ => None)
    (ProbeOutput (Some
       {| info_streams :=
            [ {| codec_type := JText "video";
                 width_value := JFloat (Finite (6407 # 10));
                 height_value := JBool true |} ];
          info_duration := JText "N/A" |}))
  = Returns {| vi_width := 640; vi_height := 1;
               vi_duration := Finite 0; vi_has_audio := false |}.
Proof. repeat split. Qed.

Lemma fold_max_bounds (rest : list Z) (v : Z) :
  (v <= fold_left Z.max rest v)%Z /\
  (forall x : Z, List.In x rest -> (x <= fold_left Z.max rest v)%Z) /\
  (fold_left Z.max rest v = v \/ List.In (fold_left Z.max rest v) rest).
Proof.
  revert v. induction rest as [|y rest IH]; intros v; cbn [fold_left].
  - split; [lia|]. split; [intros x []|left; reflexivity].
  - destruct (IH (Z.max v y)) as (Hge & Hall & Hin).
    split; [lia|]. split.
    + intros x [<-|Hx]; [lia|exact (Hall x Hx)].
    + destruct Hin as [Heq|Hin]; [|right; right; exact Hin].
      rewrite Heq. destruct (Z.max_spec v y) as [[_ ->]|[_ ->]];
        [right; left; reflexivity | left; reflexivity].
Qed.

Lemma py_max_bounds (values : list Z) :
  values <> [] ->
  exists m : Z,
    py_max values = Returns m /\
    List.In m values /\
    forall x : Z, List.In x values -> (x <= m)%Z.
Proof.
  destruct values as [|v rest]; [contradiction|]. intros _.
  destruct (fold_max_bounds rest v) as (Hge & Hall & Hin).
  exists (fold_left Z.max rest v). split; [reflexivity|]. split.
  - destruct Hin as [->|Hin]; [left; reflexivity | right; exact Hin].
  - intros x [<-|Hx]; [exact Hge | exact (Hall x Hx)].
Qed.

Lemma length_input_filters (i : nat) (infos : list video_info) (tw th : Z) :
  length (input_filters i infos tw th) = (2 * length infos)%nat.
Proof.
  revert i. induction infos as [|info rest IH]; intros i; [reflexivity|].
  cbn [input_filters length]. rewrite IH. lia.
Qed.

Lemma nth_input_filters (i k : nat) (infos : list video_info) (tw th : Z)
  (info : video_info) :
  nth_error infos k = Some info ->
  nth_error (input_filters i infos tw th) (2 * k)
  = Some (ScalePad (i + k) tw th) /\
  nth_error (input_filters i infos tw th) (2 * k + 1)
  = Some (if vi_has_audio info then Resample (i + k)
          else SilentAudio (i + k) (format_3f (vi_duration info))).
Proof.
  revert i k. induction infos as [|first rest IH]; intros i k Hk.
  - destruct k; discriminate Hk.
  - destruct k as [|k].
    + injection Hk as ->. rewrite Nat.add_0_r. split; reflexivity.
    + replace (2 * S k)%nat with (S (S (2 * k))) by lia.
      replace (i + S k)%nat with (S i + k)%nat by lia.
      exact (IH (S i) k Hk).
Qed.

Lemma round_half_even_near (q : Q) :
  Qabs (q - inject_Z (round_half_even q)) <= 1 # 2.
Proof.
  apply Qabs_Qle_condition.
  pose proof (Qfloor_le q) as Hlo. pose proof (Qlt_floor q) as Hhi.
  rewrite inject_Z_plus in Hhi. change (inject_Z 1) with 1 in Hhi.
  unfold round_half_even.
  destruct (Qcompare (q - inject_Z (Qfloor q)) (1 # 2)) eqn:E;
    [apply Qeq_alt in E | apply Qlt_alt in E | apply Qgt_alt in E];
    try destruct (Z.even (Qfloor q));
    rewrite ?inject_Z_plus; change (inject_Z 1) with 1; split; lra.
Qed.

(** X14.  [build_filter_complex] raises ValueError on no input.  On
    n >= 1 inputs it returns 2n + 1 filters: the target width and
    height are the largest width and the largest height among the
    inputs (each is the value of some input, and no input exceeds it);
    input i has its scale-and-pad filter to that target at position 2i
    and its audio filter at position 2i + 1, silent audio exactly when
    the input has no audio stream, trimmed to the input's duration as
    [:.3f] writes it: for a finite duration, a count of thousandths
    within half a thousandth of the duration; the last filter
    concatenates the n inputs in order. *)
Theorem build_filter_complex_shape (video_infos : list video_info) :
  (video_infos = [] ->
   build_filter_complex video_infos = Raises PyValueError) /\
  (video_infos <> [] ->
   exists (tw th : Z) (filters : list merge_filter),
     build_filter_complex video_infos = Returns filters /\
     length filters = (2 * length video_infos + 1)%nat /\
     List.In tw (map vi_width video_infos) /\
     List.In th (map vi_height video_infos) /\
     (forall info : video_info,
        List.In info video_infos ->
        (vi_width info <= tw)%Z /\ (vi_height info <= th)%Z) /\
     (forall (i : nat) (info : video_info),
        nth_error video_infos i = Some info ->
        nth_error filters (2 * i) = Some (ScalePad i tw th) /\
        nth_error filters (2 * i + 1)
        = Some (if vi_has_audio info then Resample i
                else SilentAudio i (format_3f (vi_duration info)))) /\
     (forall (i : nat) (info : video_info) (d : Q),
        nth_error video_infos i = Some info ->
        vi_has_audio info = false ->
        vi_duration info = Finite d ->
        exists n : Z,
          nth_error filters (2 * i + 1)
          = Some (SilentAudio i (Thousandths n)) /\
          Qabs (d * 1000 - inject_Z n) <= 1 # 2) /\
     nth_error filters (2 * length video_infos)
     = Some (ConcatAll (seq 0 (length video_infos)) (length video_infos))).
Proof.
  split; [intros ->; reflexivity|]. intros Hne.
  destruct (py_max_bounds (map vi_width video_infos)) as (tw & Htw & Hinw & Hw).
  { destruct video_infos; [contradiction|discriminate]. }
  destruct (py_max_bounds (map vi_height video_infos))
    as (th & Hth & Hinh & Hh).
  { destruct video_infos; [contradiction|discriminate]. }
  exists tw, th. eexists.
  unfold build_filter_complex. rewrite Htw, Hth.
  split; [reflexivity|].
  split; [rewrite length_app, length_input_filters; cbn; lia|].
  split; [exact Hinw|]. split; [exact Hinh|].
  assert (Hpos : forall (i : nat) (info : video_info),
            nth_error video_infos i = Some info ->
            nth_error
              (input_filters 0 video_infos tw th ++
               [ConcatAll (seq 0 (length video_infos))
                  (length video_infos)]) (2 * i)
            = Some (ScalePad i tw th) /\
            nth_error
              (input_filters 0 video_infos tw th ++
               [ConcatAll (seq 0 (length video_infos))
                  (length video_infos)]) (2 * i + 1)
            = Some (if vi_has_audio info then Resample i
                    else SilentAudio i (format_3f (vi_duration info)))).
  { intros i info Hi.
    destruct (nth_input_filters 0 i video_infos tw th info Hi) as [H1 H2].
    assert (Hlt : (i < length video_infos)%nat)
      by (apply nth_error_Some; congruence).
    rewrite !nth_error_app1 by (rewrite length_input_filters; lia).
    split; assumption. }
  split; [|split; [exact Hpos|split]].
  - intros info Hin. split; [apply Hw | apply Hh]; apply in_map, Hin.
  - intros i info d Hi Hsilent Hd.
    destruct (Hpos i info Hi) as [_ H2].
    rewrite Hsilent, Hd in H2. cbn [format_3f] in H2.
    eexists. split; [exact H2|]. apply round_half_even_near.
  - rewrite nth_error_app2 by (rewrite length_input_filters; lia).
    rewrite length_input_filters, Nat.sub_diag. reflexivity.
Qed.

(** The durations of the silent tracks: 12.3456 is written 12.346,
    0.0004 is written 0.000, and the tie 0.0625 goes to the even
    0.062. *)
Example format_3f_examples :
  format_3f (Finite (123456 # 10000)) = Thousandths 12346 /\
  format_3f (Finite (4 # 10000)) = Thousandths 0 /\
  format_3f (Finite (625 # 10000)) = Thousandths 62 /\
  format_3f (Infinite false) = FixedInf false.
Proof. repeat split. Qed.

(** ** The speed-up script *)

Lemma default_name_differs (input_file suffix : string) :
  suffix <> EmptyString ->
  get_default_output_filename input_file suffix <> input_file.
Proof.
  intros Hne. unfold get_default_output_filename.
  destruct (splitext input_file) as [base ext] eqn:Hsplit.
  rewrite <- (splitext_join _ _ _ Hsplit).
  apply insert_suffix_differs, Hne.
Qed.

Lemma run_ffmpeg_script_frame {F : Type}
  (run : F -> content -> bool -> run_result) (filter : F)
  (input output : string) (fs fs' : files) (r : outcome unit) (q : string) :
  run_ffmpeg_script run filter input output fs = (r, fs') ->
  q <> output -> fs' !! q = fs !! q.
Proof.
  unfold run_ffmpeg_script. intros Hrun Hq.
  destruct (fs !! input) as [c|]; [|injection Hrun as _ <-; reflexivity].
  destruct (run filter c _) as [out|[part|]];
    injection Hrun as _ <-; rewrite ?lookup_insert_ne by congruence;
    reflexivity.
Qed.

Lemma run_ffmpeg_script_raises {F : Type}
  (run : F -> content -> bool -> run_result) (filter : F)
  (input output : string) (fs fs' : files) (e : py_exn) :
  run_ffmpeg_script run filter input output fs = (Raises e, fs') ->
  e = PyCalledProcessError.
Proof.
  unfold run_ffmpeg_script. intros Hrun.
  destruct (fs !! input) as [c|]; [|congruence].
  destruct (run filter c _) as [out|[part|]]; congruence.
Qed.

(** ** The other scripts *)

Lemma confirm_overwrite_downsize_loop (answers : list string) :
  confirm_overwrite_downsize answers
  = ask_until downsize_yes downsize_no answers.
Proof.
  induction answers as [|a rest IH]; [reflexivity|].
  cbn [confirm_overwrite_downsize ask_until]. rewrite IH. reflexivity.
Qed.

Lemma confirm_overwrite_silent_loop (answers : list string) :
  confirm_overwrite_silent answers = ask_until silent_yes silent_no answers.
Proof.
  induction answers as [|a rest IH]; [reflexivity|].
  cbn [confirm_overwrite_silent ask_until]. rewrite IH. reflexivity.
Qed.

Lemma ask_until_result (yes no : string -> bool) (answers rest : list string)
  (r : outcome bool) :
  ask_until yes no answers = (r, rest) ->
  (forall b : bool,
     r = Returns b ->
     exists (skipped : list string) (answer : string),
       answers = skipped ++ answer :: rest /\
       Forall (fun a => yes a = false /\ no a = false) skipped /\
       yes answer = b /\
       (b = false -> no answer = true)) /\
  (forall e : py_exn,
     r = Raises e ->
     e = PyEOFError /\ rest = [] /\
     Forall (fun a => yes a = false /\ no a = false) answers).
Proof.
  revert rest r. induction answers as [|a tail IH]; intros rest r Hask.
  - injection Hask as <- <-. split; [discriminate|].
    intros e [= <-]. split; [reflexivity|]. split; [reflexivity|constructor].
  - cbn [ask_until] in Hask. destruct (yes a) eqn:Hy.
    + injection Hask as <- <-. split; [|discriminate].
      intros b [= <-]. exists [], a.
      split; [reflexivity|]. split; [constructor|]. split; [exact Hy|].
      discriminate.
    + destruct (no a) eqn:Hn.
      * injection Hask as <- <-. split; [|discriminate].
        intros b [= <-]. exists [], a.
        split; [reflexivity|]. split; [constructor|]. split; [exact Hy|].
        intros _. exact Hn.
      * destruct (IH rest r Hask) as [Hret Hraise]. split.
        -- intros b Hb.
           destruct (Hret b Hb) as (skipped & answer & -> & Hsk & Hans).
           exists (a :: skipped), answer.
           split; [reflexivity|]. split; [|exact Hans].
           constructor; [split; assumption | exact Hsk].
        -- intros e He. destruct (Hraise e He) as (-> & -> & Hall).
           split; [reflexivity|]. split; [reflexivity|].
           constructor; [split; assumption | exact Hall].
Qed.

(** X17.  The asking loops of downsize_movie.py and
    silent_video_creator.py decide by the first answer they accept:
    the answers before it are accepted neither as yes nor as no and are
    skipped, the answers after it are not read, and the result is
    [True] exactly when that answer is a yes ([y] after [strip] and
    [lower] for downsize_movie.py; [y] or [yes] after [lower] for
    silent_video_creator.py).  When no answer is accepted, the loop
    ends with the EOFError of [input]. *)
Theorem confirm_overwrite_loops
  (answers rest : list string) (r : outcome bool) :
  (confirm_overwrite_downsize answers = (r, rest) ->
   (forall b : bool,
      r = Returns b ->
      exists (skipped : list string) (answer : string),
        answers = skipped ++ answer :: rest /\
        Forall (fun a => downsize_yes a = false /\ downsize_no a = false)
          skipped /\
        downsize_yes answer = b /\
        (b = false -> downsize_no answer = true)) /\
   (forall e : py_exn,
      r = Raises e ->
      e = PyEOFError /\ rest = [] /\
      Forall (fun a => downsize_yes a = false /\ downsize_no a = false)
        answers)) /\
  (confirm_overwrite_silent answers = (r, rest) ->
   (forall b : bool,
      r = Returns b ->
      exists (skipped : list string) (answer : string),
        answers = skipped ++ answer :: rest /\
        Forall (fun a => silent_yes a = false /\ silent_no a = false)
          skipped /\
        silent_yes answer = b /\
        (b = false -> silent_no answer = true)) /\
   (forall e : py_exn,
      r = Raises e ->
      e = PyEOFError /\ rest = [] /\
      Forall (fun a => silent_yes a = false /\ silent_no a = false)
        answers)).
Proof.
  split; intros H.
  - rewrite confirm_overwrite_downsize_loop in H.
    exact (ask_until_result _ _ _ _ _ H).
  - rewrite confirm_overwrite_silent_loop in H.
    exact (ask_until_result _ _ _ _ _ H).
Qed.

Example confirm_overwrite_examples :
  confirm_overwrite_downsize ["maybe"; " Y "; "n"]%string
  = (Returns true, ["n"%string]) /\
  confirm_overwrite_downsize ["yes"; ""]%string = (Returns false, []) /\
  confirm_overwrite_silent [" y"; "YES"; "n"]%string
  = (Returns true, ["n"%string]) /\
  confirm_overwrite_silent [""; "what"]%string = (Raises PyEOFError, []).
Proof. repeat split; reflexivity. Qed.

Lemma generated_name_differs (input_file : string) :
  generate_output_filename input_file <> input_file /\
  default_segment_filename input_file <> input_file /\
  default_extracted_filename input_file <> input_file.
Proof.
  unfold generate_output_filename, default_segment_filename,
    default_extracted_filename.
  destruct (splitext input_file) as [base ext] eqn:Hsplit.
  rewrite <- (splitext_join _ _ _ Hsplit).
  split; [|split]; try (apply insert_suffix_differs; discriminate).
  apply append_differs. intros H. symmetry in H. revert H.
  destruct (splitext_extension _ _ _ Hsplit) as [->|(t & -> & _)];
    discriminate.
Qed.

Lemma downsize_video_frame (F : Ffmpeg) (input output scale : string)
  (fs fs' : files) (r : outcome unit) (q : string) :
  downsize_video F input output scale fs = (r, fs') ->
  q <> output -> fs' !! q = fs !! q.
Proof.
  unfold downsize_video. intros Hrun Hq.
  destruct (run_ffmpeg_script _ _ input output fs) as [[u|e] fs1] eqn:H;
    [|destruct e]; injection Hrun as _ <-;
    exact (run_ffmpeg_script_frame _ _ _ _ _ _ _ _ H Hq).
Qed.

Lemma downsize_video_raises (F : Ffmpeg) (input output scale : string)
  (fs fs' : files) (e : py_exn) :
  downsize_video F input output scale fs = (Raises e, fs') ->
  e = PySystemExit 1.
Proof.
  unfold downsize_video. intros Hrun.
  destruct (run_ffmpeg_script _ _ input output fs) as [[u|e1] fs1] eqn:H;
    [discriminate Hrun|].
  pose proof (run_ffmpeg_script_raises _ _ _ _ _ _ _ H) as ->.
  injection Hrun as <- _. reflexivity.
Qed.

(** X18.  [main] of downsize_movie.py modifies no path other than the
    output path, and without [-o] never the input file; when the output
    exists and the user does not answer yes, nothing is modified (the
    program ends with status 0 on a no); the only ways it ends with an
    exception are status 0 (declined), status 1 (after a failure of
    [ffmpeg]) and the EOFError of [input]. *)
Theorem downsize_main_behaviour
  (F : Ffmpeg) (input_file : string) (output_arg : option string)
  (scale : string) (answers : list string)
  (fs fs' : files) (r : outcome unit) :
  downsize_main F input_file output_arg scale answers fs = (r, fs') ->
  (forall q : string,
     q <> or_default output_arg
            (get_default_output_filename input_file "_downsized") ->
     fs' !! q = fs !! q) /\
  (output_arg = None -> fs' !! input_file = fs !! input_file) /\
  (is_Some (fs !! or_default output_arg
                    (get_default_output_filename input_file "_downsized")) ->
   fst (confirm_overwrite_downsize answers) <> Returns true ->
   fs' = fs) /\
  (is_Some (fs !! or_default output_arg
                    (get_default_output_filename input_file "_downsized")) ->
   fst (confirm_overwrite_downsize answers) = Returns false ->
   r = Raises (PySystemExit 0)) /\
  (forall e : py_exn,
     r = Raises e ->
     e = PySystemExit 0 \/ e = PySystemExit 1 \/ e = PyEOFError).
Proof.
  intros Hmain. unfold downsize_main in Hmain.
  set (output_file := or_default output_arg _) in *.
  assert (Heof : forall e rest,
            confirm_overwrite_downsize answers = (Raises e, rest) ->
            e = PyEOFError).
  { intros e rest H. rewrite confirm_overwrite_downsize_loop in H.
    destruct (ask_until_result _ _ _ _ _ H) as [_ Hr].
    destruct (Hr e eq_refl) as [-> _]. reflexivity. }
  assert (Hframe : forall q : string, q <> output_file -> fs' !! q = fs !! q).
  { intros q Hq.
    destruct (bool_decide (is_Some (fs !! output_file)));
      [destruct (confirm_overwrite_downsize answers) as [[[]|e] rest]|];
      try (injection Hmain as _ <-; reflexivity);
      exact (downsize_video_frame _ _ _ _ _ _ _ _ Hmain Hq). }
  split; [exact Hframe|]. split; [|split; [|split]].
  - intros ->. apply Hframe. unfold output_file. cbn [or_default].
    intros H. symmetry in H. revert H.
    apply default_name_differs. discriminate.
  - intros Hex Hno. rewrite (bool_decide_eq_true_2 _ Hex) in Hmain.
    destruct (confirm_overwrite_downsize answers) as [[[]|e] rest];
      cbn [fst] in Hno; [contradiction| |]; injection Hmain as _ <-;
      reflexivity.
  - intros Hex Hno. rewrite (bool_decide_eq_true_2 _ Hex) in Hmain.
    destruct (confirm_overwrite_downsize answers) as [[[]|e] rest];
      cbn [fst] in Hno; try discriminate Hno.
    injection Hmain as <- _. reflexivity.
  - intros e ->.
    destruct (bool_decide (is_Some (fs !! output_file)));
      [destruct (confirm_overwrite_downsize answers) as [[[]|e1] rest] eqn:Hc|].
    + right. left. exact (downsize_video_raises _ _ _ _ _ _ _ Hmain).
    + injection Hmain as <- _. left. reflexivity.
    + injection Hmain as <- _. right. right. exact (Heof _ _ eq_refl).
    + right. left. exact (downsize_video_raises _ _ _ _ _ _ _ Hmain).
Qed.

Lemma downsize_main_behaviour_witness :
  (forall q : string,
     q <> or_default None
            (get_default_output_filename "clip.mkv" "_downsized") ->
     (<["clip_downsized.mkv"%string := "MKV"%string]> sample_videos : files)
       !! q = sample_videos !! q) /\
  (@None string = None ->
   (<["clip_downsized.mkv"%string := "MKV"%string]> sample_videos : files)
     !! "clip.mkv"%string = sample_videos !! "clip.mkv"%string) /\
  (is_Some (sample_videos !!
              or_default None
                (get_default_output_filename "clip.mkv" "_downsized")) ->
   fst (confirm_overwrite_downsize []) <> Returns true ->
   (<["clip_downsized.mkv"%string := "MKV"%string]> sample_videos : files)
   = sample_videos) /\
  (is_Some (sample_videos !!
              or_default None
                (get_default_output_filename "clip.mkv" "_downsized")) ->
   fst (confirm_overwrite_downsize []) = Returns false ->
   Returns tt = Raises (PySystemExit 0)) /\
  (forall e : py_exn,
     Returns tt = Raises e ->
     e = PySystemExit 0 \/ e = PySystemExit 1 \/ e = PyEOFError).
Proof.
  apply (downsize_main_behaviour
           {| ffmpeg_run := fun _ c _ => Exit0 c |}
           "clip.mkv" None "1280:-2" [] sample_videos _ (Returns tt)).
  vm_compute. reflexivity.
Defined.

Lemma make_video_silent_frame (F : Ffmpeg) (input output : string)
  (fs fs' : files) (r : outcome unit) (q : string) :
  make_video_silent F input output fs = (r, fs') ->
  q <> output -> fs' !! q = fs !! q.
Proof.
  unfold make_video_silent. intros Hrun Hq.
  destruct (run_ffmpeg_script _ _ input output fs) as [[u|e] fs1] eqn:H;
    [|destruct e]; injection Hrun as _ <-;
    exact (run_ffmpeg_script_frame _ _ _ _ _ _ _ _ H Hq).
Qed.

Lemma make_video_silent_returns (F : Ffmpeg) (input output : string)
  (fs fs' : files) (r : outcome unit) :
  make_video_silent F input output fs = (r, fs') -> r = Returns tt.
Proof.
  unfold make_video_silent. intros Hrun.
  destruct (run_ffmpeg_script _ _ input output fs) as [[[]|e] fs1] eqn:H.
  - injection Hrun as <- _. reflexivity.
  - pose proof (run_ffmpeg_script_raises _ _ _ _ _ _ _ H) as ->.
    injection Hrun as <- _. reflexivity.
Qed.

(** X19.  [main] of silent_video_creator.py modifies no path other than
    the output path, and without [-o] never the input file; when the
    input file does not exist it returns without running anything;
    when the output exists, [-y] is not given and the user does not
    answer yes, nothing is modified; a failure of [ffmpeg] is never
    raised: the only exception that leaves [main] is the EOFError of
    [input]. *)
Theorem silent_main_behaviour
  (F : Ffmpeg) (input_file : string) (output_arg : option string)
  (yes : bool) (answers : list string)
  (fs fs' : files) (r : outcome unit) :
  silent_main F input_file output_arg yes answers fs = (r, fs') ->
  (forall q : string,
     q <> or_default output_arg (generate_output_filename input_file) ->
     fs' !! q = fs !! q) /\
  (output_arg = None -> fs' !! input_file = fs !! input_file) /\
  (fs !! input_file = None -> r = Returns tt /\ fs' = fs) /\
  (is_Some (fs !! or_default output_arg
                    (generate_output_filename input_file)) ->
   yes = false ->
   fst (confirm_overwrite_silent answers) <> Returns true ->
   fs' = fs) /\
  (forall e : py_exn, r = Raises e -> e = PyEOFError).
Proof.
  intros Hmain. unfold silent_main in Hmain.
  set (output_file := or_default output_arg _) in *.
  assert (Heof : forall e rest,
            confirm_overwrite_silent answers = (Raises e, rest) ->
            e = PyEOFError).
  { intros e rest H. rewrite confirm_overwrite_silent_loop in H.
    destruct (ask_until_result _ _ _ _ _ H) as [_ Hr].
    destruct (Hr e eq_refl) as [-> _]. reflexivity. }
  assert (Hframe : forall q : string, q <> output_file -> fs' !! q = fs !! q).
  { intros q Hq.
    destruct (negb (bool_decide (is_Some (fs !! input_file))));
      [injection Hmain as _ <-; reflexivity|].
    destruct (bool_decide (is_Some (fs !! output_file)) && negb yes);
      [destruct (confirm_overwrite_silent answers) as [[[]|e] rest]|];
      try (injection Hmain as _ <-; reflexivity);
      exact (make_video_silent_frame _ _ _ _ _ _ _ Hmain Hq). }
  split; [exact Hframe|]. split; [|split; [|split]].
  - intros ->. apply Hframe. unfold output_file. cbn [or_default].
    intros H. symmetry in H. revert H. apply generated_name_differs.
  - intros Hnone. rewrite Hnone in Hmain.
    rewrite bool_decide_eq_false_2 in Hmain
      by (intros [x Hx]; discriminate Hx).
    injection Hmain as <- <-. split; reflexivity.
  - intros Hex -> Hno.
    destruct (negb (bool_decide (is_Some (fs !! input_file))));
      [injection Hmain as _ <-; reflexivity|].
    rewrite (bool_decide_eq_true_2 _ Hex) in Hmain. cbn [andb negb] in Hmain.
    destruct (confirm_overwrite_silent answers) as [[[]|e] rest];
      cbn [fst] in Hno; [contradiction| |]; injection Hmain as _ <-;
      reflexivity.
  - intros e ->.
    destruct (negb (bool_decide (is_Some (fs !! input_file))));
      [discriminate Hmain|].
    destruct (bool_decide (is_Some (fs !! output_file)) && negb yes);
      [destruct (confirm_overwrite_silent answers) as [[[]|e1] rest] eqn:Hc|].
    + apply make_video_silent_returns in Hmain. discriminate Hmain.
    + discriminate Hmain.
    + injection Hmain as <- _. exact (Heof _ _ eq_refl).
    + apply make_video_silent_returns in Hmain. discriminate Hmain.
Qed.

Lemma silent_main_behaviour_witness :
  (forall q : string,
     q <> or_default None (generate_output_filename "clip.mkv") ->
     (<["clip_silent.mkv"%string := "MKV"%string]> sample_videos : files)
       !! q = sample_videos !! q) /\
  (@None string = None ->
   (<["clip_silent.mkv"%string := "MKV"%string]> sample_videos : files)
     !! "clip.mkv"%string = sample_videos !! "clip.mkv"%string) /\
  (sample_videos !! "clip.mkv"%string = None ->
   Returns tt = Returns tt /\
   (<["clip_silent.mkv"%string := "MKV"%string]> sample_videos : files)
   = sample_videos) /\
  (is_Some (sample_videos !!
              or_default None (generate_output_filename "clip.mkv")) ->
   false = false ->
   fst (confirm_overwrite_silent []) <> Returns true ->
   (<["clip_silent.mkv"%string := "MKV"%string]> sample_videos : files)
   = sample_videos) /\
  (forall e : py_exn, Returns tt = Raises e -> e = PyEOFError).
Proof.
  apply (silent_main_behaviour
           {| ffmpeg_run := fun _ c _ => Exit0 c |}
           "clip.mkv" None false [] sample_videos _ (Returns tt)).
  vm_compute. reflexivity.
Defined.


(** ** The scripts that ask once *)

Lemma speed_up_video_cases (F : SpeedFfmpeg) (input output : string)
  (speed : Q) (fs fs1 : files) (r1 : outcome unit) :
  speed_up_video F input output speed fs = (r1, fs1) ->
  (forall q : string, q <> output -> fs1 !! q = fs !! q) /\
  (forall e : py_exn,
     r1 = Raises e ->
     e = PyZeroDivisionError /\ speed == 0 /\ fs1 = fs \/
     e = PyCalledProcessError) /\
  (speed == 0 -> r1 = Raises PyZeroDivisionError).
Proof.
  unfold speed_up_video. intros Hrun.
  destruct (Qeq_bool speed 0) eqn:Hz.
  - injection Hrun as <- <-. apply Qeq_bool_iff in Hz.
    split; [reflexivity|]. split; [|reflexivity].
    intros e He. injection He as <-. left. auto.
  - split; [|split].
    + intros q Hq. exact (run_ffmpeg_script_frame _ _ _ _ _ _ _ _ Hrun Hq).
    + intros e ->. right.
      exact (run_ffmpeg_script_raises _ _ _ _ _ _ _ Hrun).
    + intros H0. apply Qeq_eq_bool in H0. congruence.
Qed.

(** What [main] of video_speedup.py does with the outcome of
    [speed_up_video]: CalledProcessError is caught. *)
Lemma speedup_try_cases (r1 r : outcome unit) (fs1 fs' : files) :
  match r1 with
  | Raises PyCalledProcessError => (Returns tt, fs1)
  | _ => (r1, fs1)
  end = (r, fs') ->
  fs' = fs1 /\
  (r1 = Raises PyCalledProcessError /\ r = Returns tt \/
   r1 <> Raises PyCalledProcessError /\ r = r1).
Proof.
  destruct r1 as [u|[]]; intros H; injection H as <- <-;
    (split; [reflexivity|]); try (right; split; [discriminate|reflexivity]).
  left. split; reflexivity.
Qed.

Lemma speedup_main_cases
  (F : SpeedFfmpeg) (input_file : string) (output_arg : option string)
  (speed : Q) (answer : option string) (fs fs' : files) (r : outcome unit) :
  speedup_main F input_file output_arg speed answer fs = (r, fs') ->
  (is_Some (fs !! or_default output_arg
                    (get_default_output_filename input_file "_speedup")) /\
   answer = None /\ r = Raises PyEOFError /\ fs' = fs) \/
  (is_Some (fs !! or_default output_arg
                    (get_default_output_filename input_file "_speedup")) /\
   (exists line : string,
      answer = Some line /\ lower (strip line) <> "y"%string) /\
   r = Returns tt /\ fs' = fs) \/
  ((fs !! or_default output_arg
            (get_default_output_filename input_file "_speedup") = None \/
    exists line : string,
      answer = Some line /\ lower (strip line) = "y"%string) /\
   exists r1 : outcome unit,
     speed_up_video F input_file
       (or_default output_arg
          (get_default_output_filename input_file "_speedup")) speed fs
     = (r1, fs') /\
     (r1 = Raises PyCalledProcessError /\ r = Returns tt \/
      r1 <> Raises PyCalledProcessError /\ r = r1)).
Proof.
  unfold speedup_main. cbv zeta.
  set (output_file := or_default output_arg _).
  intros Hmain.
  assert (Hprocess :
            match speed_up_video F input_file output_file speed fs with
            | (Raises PyCalledProcessError, fs1) => (Returns tt, fs1)
            | other => other
            end = (r, fs') ->
            exists r1 : outcome unit,
              speed_up_video F input_file output_file speed fs = (r1, fs') /\
              (r1 = Raises PyCalledProcessError /\ r = Returns tt \/
               r1 <> Raises PyCalledProcessError /\ r = r1)).
  { destruct (speed_up_video F input_file output_file speed fs)
      as [r1 fs1]. intros H. exists r1.
    assert (H' : match r1 with
                 | Raises PyCalledProcessError => (Returns tt, fs1)
                 | _ => (r1, fs1)
                 end = (r, fs')) by (destruct r1 as [u|[]]; exact H).
    destruct (speedup_try_cases _ _ _ _ H') as [-> Hr].
    split; [reflexivity|exact Hr]. }
  destruct (bool_decide (is_Some (fs !! output_file))) eqn:Hex.
  - apply bool_decide_eq_true_1 in Hex.
    destruct answer as [line|]; cbn [input_line] in Hmain.
    + destruct (String.eqb (lower (strip line)) "y") eqn:Hy.
      * right. right. split; [|exact (Hprocess Hmain)].
        right. exists line. apply String.eqb_eq in Hy. auto.
      * right. left. injection Hmain as <- <-.
        apply String.eqb_neq in Hy. split; [exact Hex|].
        split; [exists line; auto|auto].
    + left. injection Hmain as <- <-. auto.
  - apply bool_decide_eq_false_1 in Hex.
    right. right. split; [|exact (Hprocess Hmain)].
    left. destruct (fs !! output_file) eqn:Hl; [|reflexivity].
    exfalso. apply Hex. eexists. reflexivity.
Qed.

(** X15.  [main] of video_speedup.py modifies no path other than the
    output path; when the output path exists and the user does not
    answer [y] (after [strip] and [lower]), nothing is modified: the
    program returns on an answer and ends with the EOFError of [input]
    when there is none; and without [-o] (the default output name is
    used) it never modifies the input file. *)
Theorem speedup_main_protects_files
  (F : SpeedFfmpeg) (input_file : string) (output_arg : option string)
  (speed : Q) (answer : option string) (fs fs' : files) (r : outcome unit) :
  speedup_main F input_file output_arg speed answer fs = (r, fs') ->
  (forall q : string,
     q <> or_default output_arg
            (get_default_output_filename input_file "_speedup") ->
     fs' !! q = fs !! q) /\
  (is_Some (fs !! or_default output_arg
                    (get_default_output_filename input_file "_speedup")) ->
   (forall line : string,
      answer = Some line -> lower (strip line) <> "y"%string) ->
   fs' = fs /\
   (answer <> None -> r = Returns tt) /\
   (answer = None -> r = Raises PyEOFError)) /\
  (output_arg = None -> fs' !! input_file = fs !! input_file).
Proof.
  intros Hmain. apply speedup_main_cases in Hmain.
  set (output_file := or_default output_arg _) in *.
  assert (Hframe : forall q : string, q <> output_file -> fs' !! q = fs !! q).
  { intros q Hq.
    destruct Hmain as [(_ & _ & _ & ->)|[(_ & _ & _ & ->)|(_ & r1 & Hrun & _)]];
      try reflexivity.
    destruct (speed_up_video_cases _ _ _ _ _ _ _ Hrun) as [Hf _].
    apply Hf, Hq. }
  split; [exact Hframe|]. split.
  - intros Hex Hans.
    destruct Hmain as [(_ & -> & -> & ->)
                      |[(_ & (line & -> & _) & -> & ->)
                       |([Hnone|(line & -> & Hy)] & _)]].
    + split; [reflexivity|]. split; [intros H; contradiction|reflexivity].
    + split; [reflexivity|]. split; [reflexivity|discriminate].
    + rewrite Hnone in Hex. destruct Hex as [x Hx]. discriminate Hx.
    + exfalso. exact (Hans line eq_refl Hy).
  - intros ->. apply Hframe. unfold output_file. cbn [or_default].
    intros H. symmetry in H. revert H.
    apply default_name_differs. discriminate.
Qed.

Lemma speedup_main_protects_files_witness :
  (forall q : string,
     q <> or_default (Some "clip.temp_video.mp4"%string)
            (get_default_output_filename "clip.mkv" "_speedup") ->
     sample_videos_done !! q = sample_videos_done !! q) /\
  (is_Some (sample_videos_done !!
              or_default (Some "clip.temp_video.mp4"%string)
                (get_default_output_filename "clip.mkv" "_speedup")) ->
   (forall line : string,
      @None string = Some line -> lower (strip line) <> "y"%string) ->
   sample_videos_done = sample_videos_done /\
   (@None string <> None -> @Raises unit PyEOFError = Returns tt) /\
   (@None string = None -> @Raises unit PyEOFError = Raises PyEOFError)) /\
  (Some "clip.temp_video.mp4"%string = None ->
   sample_videos_done !! "clip.mkv"%string
   = sample_videos_done !! "clip.mkv"%string).
Proof.
  apply (speedup_main_protects_files
           {| ffmpeg_setpts := fun _ c _ => Exit0 c |}
           "clip.mkv" (Some "clip.temp_video.mp4"%string) (3 # 2) None
           sample_videos_done sample_videos_done (Raises PyEOFError)).
  vm_compute. reflexivity.
Defined.

(** X16.  Errors of [main] of video_speedup.py: a failure of [ffmpeg]
    never leaves [main] as an exception (it is caught and reported);
    the exceptions that do are ZeroDivisionError, raised for a speed of
    zero before [ffmpeg] is run, and the EOFError of [input] when the
    output exists and there is no answer, both with the file system as
    it was; and a speed of zero does raise ZeroDivisionError, unless
    the output exists and the user did not answer [y]. *)
Theorem speedup_main_errors
  (F : SpeedFfmpeg) (input_file : string) (output_arg : option string)
  (speed : Q) (answer : option string) (fs fs' : files) (r : outcome unit) :
  speedup_main F input_file output_arg speed answer fs = (r, fs') ->
  (forall e : py_exn,
     r = Raises e ->
     fs' = fs /\
     (e = PyZeroDivisionError /\ speed == 0 \/
      e = PyEOFError /\ answer = None /\
      is_Some (fs !! or_default output_arg
                       (get_default_output_filename input_file "_speedup")))) /\
  (speed == 0 ->
   (fs !! or_default output_arg
            (get_default_output_filename input_file "_speedup") = None \/
    exists line : string,
      answer = Some line /\ lower (strip line) = "y"%string) ->
   r = Raises PyZeroDivisionError).
Proof.
  intros Hmain. apply speedup_main_cases in Hmain.
  set (output_file := or_default output_arg _) in *.
  split.
  - intros e ->.
    destruct Hmain as [(Hex & -> & He & ->)
                      |[(_ & _ & Hr & _)
                       |(_ & r1 & Hrun & [[_ Hr]|[Hne Hr]])]];
      try discriminate Hr.
    + injection He as <-. split; [reflexivity|]. right. auto.
    + subst r1.
      destruct (speed_up_video_cases _ _ _ _ _ _ _ Hrun) as (_ & He & _).
      destruct (He e eq_refl) as [(-> & Hz & ->)| ->];
        [|contradiction Hne; reflexivity].
      split; [reflexivity|]. left. auto.
  - intros Hz Hgo.
    destruct Hmain as [(Hex & -> & _)
                      |[(Hex & (line & -> & Hn) & _)
                       |(_ & r1 & Hrun & Hr)]].
    + destruct Hgo as [Hnone|(line & Hl & _)]; [|discriminate Hl].
      rewrite Hnone in Hex. destruct Hex as [x Hx]. discriminate Hx.
    + destruct Hgo as [Hnone|(line' & Hl & Hy)].
      * rewrite Hnone in Hex. destruct Hex as [x Hx]. discriminate Hx.
      * injection Hl as <-. contradiction.
    + destruct (speed_up_video_cases _ _ _ _ _ _ _ Hrun) as (_ & _ & H0).
      rewrite (H0 Hz) in Hr.
      destruct Hr as [[Hr _]|[_ ->]]; [discriminate Hr|reflexivity].
Qed.

Lemma speedup_main_errors_witness :
  (forall e : py_exn,
     @Raises unit PyZeroDivisionError = Raises e ->
     sample_videos_done = sample_videos_done /\
     (e = PyZeroDivisionError /\ 0 == 0 \/
      e = PyEOFError /\ Some " Y "%string = None /\
      is_Some (sample_videos_done !!
                 or_default (Some "clip.temp_video.mp4"%string)
                   (get_default_output_filename "clip.mkv" "_speedup")))) /\
  (0 == 0 ->
   (sample_videos_done !!
      or_default (Some "clip.temp_video.mp4"%string)
        (get_default_output_filename "clip.mkv" "_speedup") = None \/
    exists line : string,
      Some " Y "%string = Some line /\ lower (strip line) = "y"%string) ->
   @Raises unit PyZeroDivisionError = Raises PyZeroDivisionError).
Proof.
  apply (speedup_main_errors
           {| ffmpeg_setpts := fun _ c _ => Exit0 c |}
           "clip.mkv" (Some "clip.temp_video.mp4"%string) 0
           (Some " Y "%string)
           sample_videos_done sample_videos_done
           (Raises PyZeroDivisionError)).
  vm_compute. reflexivity.
Defined.


(** X20.  [main] of trim_video.py modifies no path other than the
    output path, and without [-o] never the input file; when the output
    exists and the user does not answer [y] (after [lower]; the answer
    is not stripped), nothing is modified, and the program returns on
    an answer; the exceptions that leave it are the CalledProcessError
    of a failed [ffmpeg] run, raised again, and the EOFError of [input]
    when the output exists and there is no answer. *)
Theorem trim_main_behaviour
  (F : Ffmpeg) (input_file : string) (output_arg : option string)
  (duration : string) (answer : option string)
  (fs fs' : files) (r : outcome unit) :
  trim_main F input_file output_arg duration answer fs = (r, fs') ->
  (forall q : string,
     q <> or_default output_arg (default_segment_filename input_file) ->
     fs' !! q = fs !! q) /\
  (output_arg = None -> fs' !! input_file = fs !! input_file) /\
  (is_Some (fs !! or_default output_arg
                    (default_segment_filename input_file)) ->
   (forall line : string, answer = Some line -> lower line <> "y"%string) ->
   fs' = fs /\ (answer <> None -> r = Returns tt)) /\
  (forall e : py_exn,
     r = Raises e ->
     e = PyCalledProcessError \/
     e = PyEOFError /\ answer = None /\ fs' = fs /\
     is_Some (fs !! or_default output_arg
                      (default_segment_filename input_file))).
Proof.
  unfold trim_main, extract_segment. cbv zeta.
  set (output_file := or_default output_arg _).
  intros Hmain.
  assert (Hcases :
            (is_Some (fs !! output_file) /\ fs' = fs /\
             (answer = None /\ r = Raises PyEOFError \/
              (exists line : string,
                 answer = Some line /\ lower line <> "y"%string) /\
              r = Returns tt)) \/
            ((fs !! output_file = None \/
              exists line : string,
                answer = Some line /\ lower line = "y"%string) /\
             run_ffmpeg_script (ffmpeg_run F)
               ["-t"; duration; "-c"; "copy"]%string
               input_file output_file fs = (r, fs'))).
  { destruct (bool_decide (is_Some (fs !! output_file))) eqn:Hex.
    - apply bool_decide_eq_true_1 in Hex.
      destruct answer as [line|]; cbn [input_line] in Hmain.
      + destruct (String.eqb (lower line) "y") eqn:Hy.
        * right. split; [|exact Hmain]. right. exists line.
          apply String.eqb_eq in Hy. auto.
        * left. injection Hmain as <- <-. apply String.eqb_neq in Hy.
          split; [exact Hex|]. split; [reflexivity|]. right.
          split; [exists line; auto|reflexivity].
      + left. injection Hmain as <- <-. auto.
    - apply bool_decide_eq_false_1 in Hex. right. split; [|exact Hmain].
      left. destruct (fs !! output_file) eqn:Hl; [|reflexivity].
      exfalso. apply Hex. eexists. reflexivity. }
  clear Hmain.
  assert (Hframe : forall q : string, q <> output_file -> fs' !! q = fs !! q).
  { intros q Hq. destruct Hcases as [(_ & -> & _)|[_ Hrun]]; [reflexivity|].
    exact (run_ffmpeg_script_frame _ _ _ _ _ _ _ _ Hrun Hq). }
  split; [exact Hframe|]. split; [|split].
  - intros ->. apply Hframe. unfold output_file. cbn [or_default].
    intros H. symmetry in H. revert H. apply generated_name_differs.
  - intros Hex Hans.
    destruct Hcases as [(_ & -> & [[-> _]|[_ ->]])
                       |[[Hnone|(line & -> & Hy)] _]].
    + split; [reflexivity|]. intros H. contradiction.
    + split; reflexivity.
    + rewrite Hnone in Hex. destruct Hex as [x Hx]. discriminate Hx.
    + exfalso. exact (Hans line eq_refl Hy).
  - intros e ->.
    destruct Hcases as [(Hex & -> & [[-> He]|[_ Hr]])|[_ Hrun]].
    + injection He as <-. right. auto.
    + discriminate Hr.
    + left. exact (run_ffmpeg_script_raises _ _ _ _ _ _ _ Hrun).
Qed.

Lemma trim_main_behaviour_witness :
  (forall q : string,
     q <> or_default (Some "clip.temp_video.mp4"%string)
            (default_segment_filename "clip.mkv") ->
     sample_videos_done !! q = sample_videos_done !! q) /\
  (Some "clip.temp_video.mp4"%string = None ->
   sample_videos_done !! "clip.mkv"%string
   = sample_videos_done !! "clip.mkv"%string) /\
  (is_Some (sample_videos_done !!
              or_default (Some "clip.temp_video.mp4"%string)
                (default_segment_filename "clip.mkv")) ->
   (forall line : string,
      Some " y"%string = Some line -> lower line <> "y"%string) ->
   sample_videos_done = sample_videos_done /\
   (Some " y"%string <> None -> Returns tt = Returns tt)) /\
  (forall e : py_exn,
     Returns tt = Raises e ->
     e = PyCalledProcessError \/
     e = PyEOFError /\ Some " y"%string = None /\
     sample_videos_done = sample_videos_done /\
     is_Some (sample_videos_done !!
                or_default (Some "clip.temp_video.mp4"%string)
                  (default_segment_filename "clip.mkv"))).
Proof.
  apply (trim_main_behaviour
           {| ffmpeg_run := fun _ c _ => Exit0 c |}
           "clip.mkv" (Some "clip.temp_video.mp4"%string) "00:01:00"
           (Some " y"%string) sample_videos_done _ (Returns tt)).
  vm_compute. reflexivity.
Defined.

Lemma extract_audio_cases (F : Ffmpeg) (stderr_utf8 : bool)
  (input output : string) (fs fs1 : files) (r1 : outcome unit) :
  extract_audio F stderr_utf8 input output fs = (r1, fs1) ->
  (forall q : string, q <> output -> fs1 !! q = fs !! q) /\
  (forall e : py_exn,
     r1 = Raises e ->
     e = if stderr_utf8 then PyRuntimeError else PyUnicodeDecodeError).
Proof.
  unfold extract_audio. intros H.
  destruct (run_ffmpeg_script _ _ input output fs) as [[u|e0] fs2] eqn:Hff.
  - injection H as <- <-. split; [|discriminate].
    intros q Hq. exact (run_ffmpeg_script_frame _ _ _ _ _ _ _ _ Hff Hq).
  - pose proof (run_ffmpeg_script_raises _ _ _ _ _ _ _ Hff) as ->.
    injection H as <- <-. split.
    + intros q Hq. exact (run_ffmpeg_script_frame _ _ _ _ _ _ _ _ Hff Hq).
    + intros e He. injection He as <-. reflexivity.
Qed.

(** X21.  [main] of extract_audio_mp3.py modifies no path other than
    the output path, and without [-o] never the input file; when the
    output exists and the user does not answer [y] (after [strip] and
    [lower]), nothing is modified; a failure of [ffmpeg] never leaves
    [main] as an exception, whether [extract_audio] raises RuntimeError
    or fails to decode the error text: [main] returns whenever the
    output does not exist or the user answers, and the only exception
    is the EOFError of [input] when the output exists and there is no
    answer. *)
Theorem extract_main_behaviour
  (F : Ffmpeg) (stderr_utf8 : bool) (input_file : string)
  (output_arg : option string) (answer : option string)
  (fs fs' : files) (r : outcome unit) :
  extract_main F stderr_utf8 input_file output_arg answer fs = (r, fs') ->
  (forall q : string,
     q <> or_default output_arg (default_extracted_filename input_file) ->
     fs' !! q = fs !! q) /\
  (output_arg = None -> fs' !! input_file = fs !! input_file) /\
  (is_Some (fs !! or_default output_arg
                    (default_extracted_filename input_file)) ->
   (forall line : string,
      answer = Some line -> lower (strip line) <> "y"%string) ->
   fs' = fs) /\
  (fs !! or_default output_arg (default_extracted_filename input_file)
   = None \/ answer <> None ->
   r = Returns tt) /\
  (forall e : py_exn,
     r = Raises e ->
     e = PyEOFError /\ answer = None /\ fs' = fs /\
     is_Some (fs !! or_default output_arg
                      (default_extracted_filename input_file))).
Proof.
  unfold extract_main, confirm_overwrite_extract.
  set (output_file := or_default output_arg _).
  intros Hmain.
  assert (Hrun : match extract_audio F stderr_utf8 input_file output_file fs
                 with
                 | (Raises (PySystemExit code), fs1) =>
                     (Raises (PySystemExit code), fs1)
                 | (_, fs1) => (Returns tt, fs1)
                 end = (r, fs') ->
                 r = Returns tt /\
                 forall q : string, q <> output_file -> fs' !! q = fs !! q).
  { destruct (extract_audio F stderr_utf8 input_file output_file fs)
      as [r1 fs1] eqn:Hext.
    destruct (extract_audio_cases _ _ _ _ _ _ _ Hext) as [Hf He].
    destruct r1 as [u|e].
    - intros H. injection H as <- <-. auto.
    - rewrite (He e eq_refl). destruct stderr_utf8;
        intros H; injection H as <- <-; auto. }
  assert (Hcases :
            (is_Some (fs !! output_file) /\ fs' = fs /\
             (answer = None /\ r = Raises PyEOFError \/
              (exists line : string,
                 answer = Some line /\ lower (strip line) <> "y"%string) /\
              r = Returns tt)) \/
            ((fs !! output_file = None \/
              exists line : string,
                answer = Some line /\ lower (strip line) = "y"%string) /\
             r = Returns tt /\
             forall q : string, q <> output_file -> fs' !! q = fs !! q)).
  { destruct (bool_decide (is_Some (fs !! output_file))) eqn:Hex.
    - apply bool_decide_eq_true_1 in Hex.
      destruct answer as [line|]; cbn [input_line] in Hmain.
      + destruct (String.eqb (lower (strip line)) "y") eqn:Hy.
        * right. split; [|exact (Hrun Hmain)]. right. exists line.
          apply String.eqb_eq in Hy. auto.
        * left. injection Hmain as <- <-. apply String.eqb_neq in Hy.
          split; [exact Hex|]. split; [reflexivity|]. right.
          split; [exists line; auto|reflexivity].
      + left. injection Hmain as <- <-. auto.
    - apply bool_decide_eq_false_1 in Hex. right.
      split; [|exact (Hrun Hmain)].
      left. destruct (fs !! output_file) eqn:Hl; [|reflexivity].
      exfalso. apply Hex. eexists. reflexivity. }
  clear Hmain Hrun.
  assert (Hframe : forall q : string, q <> output_file -> fs' !! q = fs !! q).
  { intros q Hq. destruct Hcases as [(_ & -> & _)|(_ & _ & Hf)];
      [reflexivity|exact (Hf q Hq)]. }
  split; [exact Hframe|]. split; [|split; [|split]].
  - intros ->. apply Hframe. unfold output_file. cbn [or_default].
    intros H. symmetry in H. revert H. apply generated_name_differs.
  - intros Hex Hans.
    destruct Hcases as [(_ & -> & _)|[[Hnone|(line & -> & Hy)] _]].
    + reflexivity.
    + rewrite Hnone in Hex. destruct Hex as [x Hx]. discriminate Hx.
    + exfalso. exact (Hans line eq_refl Hy).
  - intros Hgo.
    destruct Hcases as [(Hex & _ & [[-> _]|[_ ->]])|(_ & -> & _)];
      try reflexivity.
    destruct Hgo as [Hnone|Hne]; [|contradiction].
    rewrite Hnone in Hex. destruct Hex as [x Hx]. discriminate Hx.
  - intros e ->.
    destruct Hcases as [(Hex & -> & [[-> He]|[_ Hr]])|(_ & Hr & _)];
      try discriminate Hr.
    injection He as <-. auto.
Qed.

Lemma extract_main_behaviour_witness :
  (forall q : string,
     q <> or_default None (default_extracted_filename "clip.mkv") ->
     (<["clip_extracted.mp3"%string := "part"%string]> sample_videos : files)
       !! q = sample_videos !! q) /\
  (@None string = None ->
   (<["clip_extracted.mp3"%string := "part"%string]> sample_videos : files)
     !! "clip.mkv"%string = sample_videos !! "clip.mkv"%string) /\
  (is_Some (sample_videos !!
              or_default None (default_extracted_filename "clip.mkv")) ->
   (forall line : string,
      @None string = Some line -> lower (strip line) <> "y"%string) ->
   (<["clip_extracted.mp3"%string := "part"%string]> sample_videos : files)
   = sample_videos) /\
  (sample_videos !! or_default None (default_extracted_filename "clip.mkv")
   = None \/ @None string <> None ->
   Returns tt = Returns tt) /\
  (forall e : py_exn,
     Returns tt = Raises e ->
     e = PyEOFError /\ @None string = None /\
     (<["clip_extracted.mp3"%string := "part"%string]> sample_videos : files)
     = sample_videos /\
     is_Some (sample_videos !!
                or_default None (default_extracted_filename "clip.mkv"))).
Proof.
  apply (extract_main_behaviour
           {| ffmpeg_run := fun _ _ _ => ExitFailed (Some "part"%string) |}
           false "clip.mkv" None None sample_videos _ (Returns tt)).
  vm_compute. reflexivity.
Defined.
